(** * Knowflow-Ai: the retrieval-augmented streaming chat pipeline

    A shallow embedding of the two halves of the chat pipeline:

    - the Session Stream Controller, the [POST] handler of
      [/api/chat/[id]/stream] (src/unnamed/part_002, lines 1-214);
    - the Client Stream Consumer, the [useSSEChat] hook
      (src/unnamed/part_000, lines 62-350).

    Around them: the submit handler of the message input that calls the
    hook (src/unnamed/part_010), the semantic search route
    (src/unnamed/part_002, lines 214-316), and the routes that edit,
    delete and restore the stored turns
    (src/src/app/api/extract-vocabulary/route.ts, lines 127-376).

    JavaScript strings are modelled by [string] (code units below 256),
    JavaScript numbers used as similarity scores by the kernel's binary64
    floats, the [Message] table by a finite map keyed by its primary key,
    and the handler's [try]/[catch] control flow by a small state and
    exception monad.  Everything the handler obtains from outside the
    repository (the vector store, the model, the clock, [JSON]) is an
    explicit argument. *)

From Stdlib Require Import Ascii String ZArith PrimFloat FloatOps SpecFloat FloatAxioms.
From stdpp Require Import base option list strings gmap sorting pretty.

Local Open Scope Z_scope.

(* Decimal score literals such as 0.91 denote the nearest binary64 value,
   as they do in JavaScript. *)
Set Warnings "-inexact-float".

(** ** JavaScript strings *)

Module Js.

(** The white space [String.prototype.trim] removes, among the code
    units below 256: TAB, LF, VT, FF, CR, SPACE and NBSP. *)
Definition is_white_space (c : ascii) : bool :=
  bool_decide (nat_of_ascii c ∈ [9; 10; 11; 12; 13; 32; 160]%nat).

Fixpoint trimStart (s : string) : string :=
  match s with
  | EmptyString => EmptyString
  | String c s' => if is_white_space c then trimStart s' else s
  end.

Fixpoint trimEnd (s : string) : string :=
  match s with
  | EmptyString => EmptyString
  | String c s' =>
      match trimEnd s' with
      | EmptyString => if is_white_space c then EmptyString else String c EmptyString
      | r => String c r
      end
  end.

Definition trim (s : string) : string := trimEnd (trimStart s).

Definition is_empty (s : string) : bool :=
  match s with EmptyString => true | _ => false end.

(** [s.startsWith(p)] *)
Definition startsWith (p s : string) : bool := String.prefix p s.

(** [s.slice(n)] for [0 <= n] *)
Fixpoint slice (n : nat) (s : string) : string :=
  match n, s with
  | O, _ => s
  | S n', String _ s' => slice n' s'
  | S _, EmptyString => EmptyString
  end.

(** [s.split(c)] for a one-character separator: never the empty array. *)
Fixpoint split (sep : ascii) (s : string) : list string :=
  match s with
  | EmptyString => [EmptyString]
  | String c s' =>
      if Ascii.eqb c sep then EmptyString :: split sep s'
      else match split sep s' with
           | [] => [String c EmptyString]
           | w :: ws => String c w :: ws
           end
  end.

(** [xs.join(sep)] *)
Definition join (sep : string) (xs : list string) : string := String.concat sep xs.

(** [s.includes(p)] *)
Fixpoint includes (p s : string) : bool :=
  String.prefix p s ||
  match s with
  | EmptyString => false
  | String _ s' => includes p s'
  end.

Definition LF : ascii := "010"%char.
Definition nl : string := String LF EmptyString.

(** *** Numbers as text

    A number in a request body is given by an integer literal [n] and is
    the binary64 value nearest to [n]: [n] itself below [2^53], a rounded
    value from there on.  [Number::toString] prints the shortest decimal
    that reads back as the number, in full up to 21 digits and in
    exponent form beyond. *)

(** The binary64 value nearest to the natural number [m], ties to even:
    the number [JSON.parse] reads from the integer literal [m].  Every
    binary64 value from [2^53] on is an integer; [None] is [Infinity]. *)
Definition nearest_double (m : Z) : option Z :=
  if m <? 2 ^ 53 then Some m
  else
    let sh := Z.log2 m - 52 in
    let q := Z.shiftr m sh in
    let r := Z.land m (Z.ones sh) in
    let half := Z.shiftl 1 (sh - 1) in
    let q := if (half <? r) || ((r =? half) && Z.odd q) then q + 1 else q in
    let v := Z.shiftl q sh in
    if v <? 2 ^ 1024 then Some v else None.

Definition reads_as (x c : Z) : bool :=
  match nearest_double c with
  | Some v => v =? x
  | None => false
  end.

Definition decimal_length (m : Z) : Z := Z.of_nat (String.length (pretty m)).

(** The decimal with the fewest significant digits that reads as [x],
    the one nearest to [x] when two with that many digits do (the even
    one when they are as near): [k] counts the digits tried, [e] is the
    decimal length of [x]. *)
Fixpoint shortest_decimal (fuel : nat) (x e k : Z) : Z :=
  match fuel with
  | O => x
  | S fuel =>
      let p := 10 ^ (e - k) in
      let lo := x / p * p in
      let hi := lo + p in
      match reads_as x lo, reads_as x hi with
      | true, true =>
          if x - lo <? hi - x then lo
          else if hi - x <? x - lo then hi
          else if Z.even (lo / p) then lo else hi
      | true, false => lo
      | false, true => hi
      | false, false => shortest_decimal fuel x e (k + 1)
      end
  end.

Fixpoint strip_zeros (s : string) : string :=
  match s with
  | EmptyString => EmptyString
  | String c s' =>
      match strip_zeros s' with
      | EmptyString => if Ascii.eqb c "0" then EmptyString else String c EmptyString
      | r => String c r
      end
  end.

(** [Number::toString] on a positive integral number given by its
    shortest decimal [c]: the digits when there are at most 21, else the
    exponent form. *)
Definition decimal_to_string (c : Z) : string :=
  let digits := pretty c in
  let n := Z.of_nat (String.length digits) in
  if n <=? 21 then digits
  else
    match strip_zeros digits with
    | String d EmptyString => String d ("e+" +:+ pretty (n - 1))
    | String d rest => String d ("." +:+ rest +:+ "e+" +:+ pretty (n - 1))
    | EmptyString => digits
    end.

Definition positive_to_string (m : Z) : string :=
  match nearest_double m with
  | None => "Infinity"
  | Some x =>
      if x <? 2 ^ 53 then pretty x
      else decimal_to_string (shortest_decimal 17 x (decimal_length x) 1)
  end.

(** [Number::toString] of the number read from the integer literal [n]. *)
Definition number_to_string (n : Z) : string :=
  if n <? 0 then "-" +:+ positive_to_string (- n) else positive_to_string n.

(** The primitive values a parsed request body can hold in the fields
    the handler reads; a number is the one read from an integer literal.
    Objects, arrays and numbers with a fraction are left out. *)
Inductive value :=
| Undefined
| Null
| Bool (b : bool)
| Num (n : Z)
| Str (s : string).

(** [!!v] *)
Definition truthy (v : value) : bool :=
  match v with
  | Undefined | Null => false
  | Bool b => b
  | Num n => negb (n =? 0)
  | Str s => negb (is_empty s)
  end.

(** [typeof v === 'string'] *)
Definition is_string (v : value) : bool :=
  match v with Str _ => true | _ => false end.

(** [ToString], as applied by template literals and by [+] with a string. *)
Definition to_string (v : value) : string :=
  match v with
  | Undefined => "undefined"
  | Null => "null"
  | Bool true => "true"
  | Bool false => "false"
  | Num n => number_to_string n
  | Str s => s
  end.

(** [!process.env.X]: unset or empty. *)
Definition env_missing (v : option string) : bool :=
  match v with
  | None => true
  | Some s => is_empty s
  end.

End Js.

(** ** Data model (lib/types, src/unnamed/part_000 lines 1-62) *)

Inductive Role := system | user | assistant.

#[global] Instance Role_eq_dec : EqDecision Role.
Proof. solve_decision. Defined.

(** The metadata the ingestion path attaches to every indexed passage
    (src/unnamed/part_001, line 147): [documentName] is what the chat
    pipeline reads, the remaining keys are carried along untouched. *)
Record DocMetadata := {
  documentName : option string;
  otherKeys : list (string * Js.value);
}.

(** A passage as the vector store returns it. *)
Module Document.
Record t := mk {
  pageContent : string;
  metadata : option DocMetadata;
}.
End Document.

Module DocumentSource.
Record t := mk {
  id : string;
  name : string;
  pageContent : string;
  metadata : option DocMetadata;
}.
End DocumentSource.

Module StreamChunk.
Inductive kind := text | image | sources | done | error.

#[global] Instance kind_eq_dec : EqDecision kind.
Proof. solve_decision. Defined.

Record t := mk {
  type : kind;
  content : string;
}.
End StreamChunk.

(** [Message.metadata]: every key is optional. *)
Module MessageMetadata.
Record t := mk {
  sources : option (list DocumentSource.t);
  images : option (list string);
  timestamp : option string;
  tokens : option Z;
}.
End MessageMetadata.

(** A row of the [Message] table, without its primary key [id], which is
    the key of the table (the edit, delete and restore routes address a
    row by [where: { id }]).  Times are milliseconds since the epoch. *)
Module MessageRow.
Record t := mk {
  projectId : string;
  content : string;
  role : Role;
  isDeleted : bool;
  deletedAt : option Z;
  editHistory : option (list (string * Z));
  lastEditedAt : option Z;
  metadata : option MessageMetadata.t;
  createdAt : Z;
  updatedAt : Z;
}.
End MessageRow.


(** ** The Session Stream Controller (src/unnamed/part_002, [POST]) *)

Module Controller.

(** *** What the handler obtains from its environment *)

Record Env := {
  OPENAI_API_KEY : option string;
  PINECONE_API_KEY : option string;
  PINECONE_INDEX_NAME : option string;
}.

(** The parsed request body, with the three fields the handler reads. *)
Record Body := {
  message : Js.value;
  sessionId : Js.value;
  contextStyle : Js.value;
}.

(** One entry of the message list handed to the model. *)
Record ChatMessage := {
  role : Role;
  content : string;
}.

(** The model's streamed completion: the [choices[0]?.delta?.content] of
    each chunk in delivery order, and whether the iterator rejects after
    the last of them instead of completing. *)
Record Completion := {
  deltas : list (option string);
  rejects : bool;
}.

Record Db := {
  projects : gmap string string;            (* project id -> owner's user id *)
  messages : gmap string MessageRow.t;      (* message id -> row *)
}.

Record World := {
  env : Env;
  sessionUserId : option string;            (* [session?.user?.id] *)
  requestBody : option Body;                (* [None]: [request.json()] rejects *)
  (* [PineconeStore.fromExistingIndex] on a namespace followed by
     [similaritySearchWithScore(query, k)]; [None]: either one rejects *)
  similaritySearchWithScore : string → string → nat → option (list (Document.t * float));
  (* [openai.chat.completions.create]; [None]: the call rejects *)
  chat_completions_create : list ChatMessage → option Completion;
  dbReachable : bool;                       (* the write reaches the database *)
  now : Z;                                  (* the database clock *)
}.

(** *** The stream's state and the handler's monad

    [enqueued] records the chunk behind each
    [controller.enqueue(encoder.encode(`data: ${JSON.stringify(chunk)}\n\n`))];
    [Wire.event_text] below gives the text.  The transport is taken to
    stay open while the handler runs: a consumer that cancels the stream
    is not part of this model. *)

Record State := {
  enqueued : list StreamChunk.t;            (* [controller.enqueue], oldest first *)
  closed : bool;                            (* [controller.close] was called *)
  db : Db;
  console : list string;                    (* [console.error] *)
}.

Inductive Outcome (A : Type) :=
| Returned (a : A)
| Thrown.
Arguments Returned {A} a.
Arguments Thrown {A}.

Definition M (A : Type) : Type := State → State * Outcome A.

Definition ret {A} (a : A) : M A := λ s, (s, Returned a).

Definition throw {A} : M A := λ s, (s, Thrown).

Definition bind {A B} (m : M A) (k : A → M B) : M B := λ s,
  match m s with
  | (s', Returned a) => k a s'
  | (s', Thrown) => (s', Thrown)
  end.

Definition try_catch {A} (m : M A) (handler : M A) : M A := λ s,
  match m s with
  | (s', Thrown) => handler s'
  | r => r
  end.

Declare Scope ctl_scope.
Delimit Scope ctl_scope with ctl.
Notation "x <- m ;; k" := (bind m (λ x, k))
  (at level 100, m at next level, right associativity) : ctl_scope.
Notation "m ;; k" := (bind m (λ _, k))
  (at level 100, right associativity) : ctl_scope.
Local Open Scope ctl_scope.

(** [controller.enqueue] and [controller.close] throw on a closed stream. *)
Definition sendChunk (chunk : StreamChunk.t) : M unit := λ s,
  if closed s then (s, Thrown)
  else ({| enqueued := enqueued s ++ [chunk]; closed := closed s;
           db := db s; console := console s |}, Returned ()).

Definition close : M unit := λ s,
  if closed s then (s, Thrown)
  else ({| enqueued := enqueued s; closed := true;
           db := db s; console := console s |}, Returned ()).

Definition console_error (line : string) : M unit := λ s,
  ({| enqueued := enqueued s; closed := closed s;
      db := db s; console := console s ++ [line] |}, Returned ()).

Definition sendError (error : string) : M unit :=
  sendChunk (StreamChunk.mk StreamChunk.error error) ;; close.

Definition sendDone : M unit :=
  sendChunk (StreamChunk.mk StreamChunk.done "") ;; close.

(** *** Persistence *)

(** The literal rows of [prisma.message.createMany]. *)
Record MessageCreateInput := {
  id : string;
  projectId : string;
  create_content : string;
  create_role : Role;
}.

(** The columns the literal leaves out take their defaults. *)
Definition row_of (now : Z) (d : MessageCreateInput) : MessageRow.t :=
  {| MessageRow.projectId := projectId d;
     MessageRow.content := create_content d;
     MessageRow.role := create_role d;
     MessageRow.isDeleted := false;
     MessageRow.deletedAt := None;
     MessageRow.editHistory := None;
     MessageRow.lastEditedAt := None;
     MessageRow.metadata := None;
     MessageRow.createdAt := now;
     MessageRow.updatedAt := now |}.

(** One multi-row insert: it fails as a whole on a primary-key conflict,
    also between two rows of the same insert. *)
Fixpoint insertRows (now : Z) (data : list MessageCreateInput)
    (table : gmap string MessageRow.t) : option (gmap string MessageRow.t) :=
  match data with
  | [] => Some table
  | d :: data' =>
      match table !! id d with
      | Some _ => None
      | None => insertRows now data' (<[id d := row_of now d]> table)
      end
  end.

Definition createMany (w : World) (data : list MessageCreateInput) : M unit := λ s,
  if dbReachable w then
    match insertRows (now w) data (messages (db s)) with
    | Some table =>
        ({| enqueued := enqueued s; closed := closed s;
            db := {| projects := projects (db s); messages := table |};
            console := console s |}, Returned ())
    | None => (s, Thrown)
    end
  else (s, Thrown).

(** [orderBy: { createdAt: 'desc' }] *)
Definition newer_first (a b : string * MessageRow.t) : Prop :=
  MessageRow.createdAt b.2 ≤ MessageRow.createdAt a.2.

#[global] Instance newer_first_dec a b : Decision (newer_first a b).
Proof. unfold newer_first. apply _. Defined.

#[global] Instance newer_first_total : Total newer_first.
Proof. intros a b. unfold newer_first. lia. Qed.

#[global] Instance newer_first_trans : Transitive newer_first.
Proof. intros a b c. unfold newer_first. lia. Qed.

(** [include: { messages: { orderBy: { createdAt: 'desc' }, take: 10 } }] *)
Definition include_messages (d : Db) (projectId : string) : list (string * MessageRow.t) :=
  take 10 (merge_sort newer_first
    (map_to_list (filter (λ kv, MessageRow.projectId kv.2 = projectId) (messages d)))).

(** [prisma.project.findFirst({ where: { id, userId }, include })]:
    the project's recent messages, when the project is the caller's. *)
Definition findFirst (d : Db) (projectId userId : string)
    : option (list (string * MessageRow.t)) :=
  match projects d !! projectId with
  | Some owner =>
      if decide (owner = userId) then Some (include_messages d projectId) else None
  | None => None
  end.

(** *** Relevance filter and sources (lines 102-119) *)

Definition SIM_THRESHOLD : float := 0.75%float.

(** [scored.filter(([, score]) => score >= threshold)]; the comparison is
    the IEEE one, so a NaN score is dropped. *)
Definition filterScored (threshold : float) (scored : list (Document.t * float))
    : list (Document.t * float) :=
  List.filter (λ entry, PrimFloat.leb threshold entry.2) scored.

(** [doc.metadata?.documentName || 'Document'] *)
Definition source_name (doc : Document.t) : string :=
  match Document.metadata doc with
  | Some md =>
      match documentName md with
      | Some n => if Js.is_empty n then "Document" else n
      | None => "Document"
      end
  | None => "Document"
  end.

Definition toSources (filtered : list (Document.t * float)) : list DocumentSource.t :=
  imap (λ idx entry,
    {| DocumentSource.id := "src-" +:+ pretty idx;
       DocumentSource.name := source_name entry.1;
       DocumentSource.pageContent := Document.pageContent entry.1;
       DocumentSource.metadata := Document.metadata entry.1 |}) filtered.

Definition context_separator : string := Js.nl +:+ "---" +:+ Js.nl.

Definition contextText (sources : list DocumentSource.t) : string :=
  Js.join context_separator
    (imap (λ i s, "[" +:+ pretty (i + 1)%nat +:+ "] " +:+ DocumentSource.pageContent s) sources).

(** *** Prompt composition (lines 123-140) *)

Definition baseSystem (contextStyle : string) : string :=
  "You are an AI assistant with broad knowledge. When an additional CONTEXT section is supplied, use it to improve accuracy, resolve ambiguity, or cite sources. If the context contradicts general knowledge, follow the context. If the context does not relate to the question, rely on your own knowledge. Respond in a "
  +:+ contextStyle +:+ " style.".

(** [project.messages.slice(0, 6).reverse()] *)
Definition recentMessages (project_messages : list (string * MessageRow.t))
    : list (string * MessageRow.t) :=
  reverse (take 6 project_messages).

Definition push {A} (xs : list A) (x : A) : list A := xs ++ [x].

Definition messagesForLLM (contextStyle : string) (sources : list DocumentSource.t)
    (recent : list (string * MessageRow.t)) (message : string) : list ChatMessage :=
  let msgs := [ {| role := system; content := baseSystem contextStyle |} ] in
  let msgs :=
    if bool_decide (0 < length sources)%nat
    then push msgs {| role := system;
                      content := "Context:" +:+ Js.nl +:+ contextText sources |}
    else msgs in
  let msgs :=
    foldl (λ acc m, push acc {| role := MessageRow.role m.2;
                                content := MessageRow.content m.2 |}) msgs recent in
  push msgs {| role := user; content := message |}.

(** *** The stream body (lines 58-196) *)

Section Stream.

(** [JSON.stringify] on the sources array. *)
Variable JSON_stringify : list DocumentSource.t → string.

(** [for await (const chunk of completion)] *)
Fixpoint for_await (deltas : list (option string)) (rejects : bool)
    (fullResponse : string) : M string :=
  match deltas with
  | [] => if rejects then throw else ret fullResponse
  | delta :: rest =>
      match delta with
      | Some content =>
          if Js.is_empty content then for_await rest rejects fullResponse
          else
            let fullResponse := fullResponse +:+ content in
            sendChunk (StreamChunk.mk StreamChunk.text content) ;;
            for_await rest rejects fullResponse
      | None => for_await rest rejects fullResponse
      end
  end.

Definition persisted_turns (projectId : string) (sessionId : Js.value)
    (message fullResponse : string) : list MessageCreateInput :=
  [ {| id := Js.to_string sessionId +:+ "-user"; projectId := projectId;
       create_content := message; create_role := user |};
    {| id := Js.to_string sessionId +:+ "-assistant"; projectId := projectId;
       create_content := fullResponse; create_role := assistant |} ].

Definition stream_body (w : World) (projectId : string)
    (project_messages : list (string * MessageRow.t))
    (message : string) (sessionId : Js.value) (contextStyle : string) : M unit :=
  if Js.env_missing (OPENAI_API_KEY (env w)) then
    sendError "OpenAI API key not configured"
  else
    let recent := recentMessages project_messages in
    if Js.env_missing (PINECONE_API_KEY (env w))
       || Js.env_missing (PINECONE_INDEX_NAME (env w)) then
      sendError "Pinecone environment variables not configured"
    else
      scored <- (match similaritySearchWithScore w ("project-" +:+ projectId) message 4 with
                 | Some scored => ret scored
                 | None => throw
                 end) ;;
      let filtered := filterScored SIM_THRESHOLD scored in
      let sources := toSources filtered in
      sendChunk (StreamChunk.mk StreamChunk.sources (JSON_stringify sources)) ;;
      let msgs := messagesForLLM contextStyle sources recent message in
      completion <- (match chat_completions_create w msgs with
                     | Some completion => ret completion
                     | None => throw
                     end) ;;
      fullResponse <- for_await (deltas completion) (rejects completion) "" ;;
      try_catch
        (createMany w (persisted_turns projectId sessionId message fullResponse))
        (console_error "Failed to save messages to database:") ;;
      sendDone.

Definition start (w : World) (projectId : string)
    (project_messages : list (string * MessageRow.t))
    (message : string) (sessionId : Js.value) (contextStyle : string) : M unit :=
  try_catch
    (stream_body w projectId project_messages message sessionId contextStyle)
    (console_error "Error in chat stream:" ;;
     sendError "An error occurred while processing your message").

(** *** Vocabulary for stating the stream's properties *)

(** The non-empty increments of a completion, in delivery order: the
    chunks for which [if (content)] holds. *)
Definition increments (deltas : list (option string)) : list string :=
  List.filter (λ c, negb (Js.is_empty c)) (omap (λ d, d) deltas).

Definition text_event (c : string) : StreamChunk.t :=
  StreamChunk.mk StreamChunk.text c.

(** The payloads of the [text] events of an event sequence. *)
Definition text_payloads (events : list StreamChunk.t) : list string :=
  StreamChunk.content <$>
    List.filter (λ e, bool_decide (StreamChunk.type e = StreamChunk.text)) events.

Definition is_terminal (e : StreamChunk.t) : bool :=
  bool_decide (StreamChunk.type e = StreamChunk.done) ||
  bool_decide (StreamChunk.type e = StreamChunk.error).

Definition with_enqueued (s : State) (events : list StreamChunk.t) : State :=
  {| enqueued := enqueued s ++ events; closed := closed s;
     db := db s; console := console s |}.

Definition configured (w : World) : bool :=
  negb (Js.env_missing (OPENAI_API_KEY (env w))) &&
  negb (Js.env_missing (PINECONE_API_KEY (env w))) &&
  negb (Js.env_missing (PINECONE_INDEX_NAME (env w))).

(** What the collaborators deliver to a request: the scored candidates of
    the retriever and the completion of the model, when the handler is
    configured and neither call rejects. *)
Definition delivered (w : World) (projectId : string)
    (project_messages : list (string * MessageRow.t))
    (message contextStyle : string) : option (list DocumentSource.t * Completion) :=
  if configured w then
    scored ← similaritySearchWithScore w ("project-" +:+ projectId) message 4;
    let sources := toSources (filterScored SIM_THRESHOLD scored) in
    completion ← chat_completions_create w
      (messagesForLLM contextStyle sources (recentMessages project_messages) message);
    Some (sources, completion)
  else None.

Definition sources_event (sources : list DocumentSource.t) : StreamChunk.t :=
  StreamChunk.mk StreamChunk.sources (JSON_stringify sources).

Definition done_event : StreamChunk.t := StreamChunk.mk StreamChunk.done "".

Definition error_event (text : string) : StreamChunk.t :=
  StreamChunk.mk StreamChunk.error text.

(** The table after a best-effort [createMany]. *)
Definition after_write (w : World) (d : Db) (data : list MessageCreateInput)
    : gmap string MessageRow.t :=
  if dbReachable w
  then default (messages d) (insertRows (now w) data (messages d))
  else messages d.

Definition write_failed (w : World) (d : Db) (data : list MessageCreateInput) : bool :=
  negb (dbReachable w) ||
  bool_decide (insertRows (now w) data (messages d) = None).

Definition generic_error : string := "An error occurred while processing your message".

(** *** The handler *)

Inductive Response :=
| Plain (status : nat) (body : string)
| EventStream (final : State) (outcome : Outcome unit).

Definition open_stream (d : Db) : State :=
  {| enqueued := []; closed := false; db := d; console := [] |}.

Definition POST (w : World) (d : Db) (projectId : string) : Response :=
  match sessionUserId w with
  | None => Plain 401 "Unauthorized"
  | Some userId =>
      if Js.is_empty userId then Plain 401 "Unauthorized"
      else
        match findFirst d projectId userId with
        | None => Plain 403 "Project not found or access denied"
        | Some project_messages =>
            match requestBody w with
            | None => Plain 500 "Internal server error"
            | Some body =>
                let contextStyle :=
                  match contextStyle body with
                  | Js.Undefined => Js.Str "detailed"
                  | v => v
                  end in
                if negb (Js.truthy (message body)) || negb (Js.is_string (message body))
                then Plain 400 "Message is required"
                else
                  let (final, outcome) :=
                    start w projectId project_messages
                      (Js.to_string (message body)) (sessionId body)
                      (Js.to_string contextStyle) (open_stream d) in
                  EventStream final outcome
            end
        end
  end.

(** A history row as the entry of the message list it becomes. *)
Definition as_chat_message (m : string * MessageRow.t) : ChatMessage :=
  {| role := MessageRow.role m.2; content := MessageRow.content m.2 |}.

(** The message is missing, not a string, or the empty string. *)
Definition no_message (body : Body) : Prop :=
  ∀ s, message body = Js.Str s → s = "".

(** The specification's statement: no turn with a soft-delete marker is
    among the history messages. *)
Definition history_excludes_deleted (d : Db) (projectId : string) : Prop :=
  Forall (λ m, MessageRow.isDeleted m.2 = false)
    (recentMessages (include_messages d projectId)).

(** The specification's statement: the stored assistant turn's metadata
    holds the filtered sources and a timestamp. *)
Definition stores_sources_metadata (final : State) (sessionId : Js.value)
    (sources : list DocumentSource.t) : Prop :=
  ∃ row md,
    messages (db final) !! (Js.to_string sessionId +:+ "-assistant") = Some row ∧
    MessageRow.metadata row = Some md ∧
    MessageMetadata.sources md = Some sources ∧
    is_Some (MessageMetadata.timestamp md).

(** The specification's statement: a message that is empty after
    trimming is answered with status 400. *)
Definition blank_message_rejected (w : World) (d : Db)
    (projectId : string) : Prop :=
  ∀ body s,
    requestBody w = Some body →
    message body = Js.Str s → Js.trim s = "" →
    ∃ text, POST w d projectId
            = Plain 400 text.

End Stream.

End Controller.


(** ** The Client Stream Consumer (src/unnamed/part_000, [useSSEChat]) *)

Module Consumer.

(** The fields of a client-side [Message] that the hook writes. *)
Module Message.
Record t := mk {
  id : string;
  role : Role;
  content : string;
  images : option (list string);
  metadata : option MessageMetadata.t;
  createdAt : Z;
}.
End Message.

Record ChatState := {
  messages : list Message.t;
  isLoading : bool;
  streamingContent : string;
  sources : list DocumentSource.t;
  error : option string;
}.

(** The hook instance: its React state and the abort-controller ref
    ([true]: the ref holds a controller). *)
Record Hook := {
  state : ChatState;
  abortControllerRef : bool;
}.

Record Options := {
  contextStyle : option string;
  opt_images : option (list string);
}.

(** A thrown [Error] (every rejection of [fetch] and [read] is one). *)
Record Exn := {
  exn_name : string;
  exn_message : string;
}.

Definition new_Error (message : string) : Exn :=
  {| exn_name := "Error"; exn_message := message |}.

(** The transport as the reader sees it: the decoded text of each
    successful [reader.read()], then either [done: true] or a rejected
    read (an abort surfaces as a rejection named [AbortError]). *)
Inductive ReadEnd :=
| EndOfStream
| ReadRejects (e : Exn).

Record Reader := {
  reads : list string;
  ending : ReadEnd;
}.

Inductive FetchResult :=
| FetchRejects (e : Exn)
| FetchResponds (ok : bool) (status : nat) (body : option Reader).

Record FetchRequest := {
  url : string;
  req_message : string;
  req_sessionId : string;
  req_contextStyle : string;
  req_images : list string;
}.

(** What [generateSessionId()], [new Date()] and [fetch] yield at each
    place one [sendMessage] call uses them. *)
Record World := {
  userMessageId : string;                   (* line 110 *)
  userCreatedAt : Z;                        (* line 114 *)
  requestSessionId : string;                (* line 137 *)
  assistantMessageId : string;              (* line 201 *)
  assistantTimestamp : string;              (* line 206 *)
  assistantCreatedAt : Z;                   (* line 208 *)
  fetch : FetchRequest → FetchResult;
}.

(** A parsed event, as far as the [switch] looks at it: [type] is [None]
    for a value no [case] matches, and [content] is the string the
    protocol puts there. *)
Record ParsedChunk := {
  type : option StreamChunk.kind;
  content : string;
}.

(** Where [reader.releaseLock()] is called. *)
Inductive ReleaseSite := AtDone | AtError | AtFinally.

(** The request-local variables of [sendMessage] together with the
    React state and what the call did to the outside. *)
Record Run := {
  hook_state : ChatState;
  fullAssistantContent : string;
  currentSources : list DocumentSource.t;
  readerReleased : bool;
  releaseLock_calls : list ReleaseSite;
  console : list string;
}.

Definition setState (f : ChatState → ChatState) (r : Run) : Run :=
  {| hook_state := f (hook_state r);
     fullAssistantContent := fullAssistantContent r;
     currentSources := currentSources r;
     readerReleased := readerReleased r;
     releaseLock_calls := releaseLock_calls r;
     console := console r |}.

Definition console_log (line : string) (r : Run) : Run :=
  {| hook_state := hook_state r;
     fullAssistantContent := fullAssistantContent r;
     currentSources := currentSources r;
     readerReleased := readerReleased r;
     releaseLock_calls := releaseLock_calls r;
     console := console r ++ [line] |}.

(** [if (!readerReleased) { reader.releaseLock(); readerReleased = true; }] *)
Definition release_and_mark (site : ReleaseSite) (r : Run) : Run :=
  if readerReleased r then r
  else {| hook_state := hook_state r;
          fullAssistantContent := fullAssistantContent r;
          currentSources := currentSources r;
          readerReleased := true;
          releaseLock_calls := releaseLock_calls r ++ [site];
          console := console r |}.

(** The [finally] of the read loop releases without setting the flag. *)
Definition release_finally (r : Run) : Run :=
  if readerReleased r then r
  else {| hook_state := hook_state r;
          fullAssistantContent := fullAssistantContent r;
          currentSources := currentSources r;
          readerReleased := readerReleased r;
          releaseLock_calls := releaseLock_calls r ++ [AtFinally];
          console := console r |}.

(** How the [switch] leaves the line loop: [None] goes on with the next
    line, [Some _] is the [return] of the [done] and [error] cases. *)
Inductive Terminal := ByDone | ByError.

(** The place of the release that goes with each way out of the loop. *)
Definition site_of_terminal (t : Terminal) : ReleaseSite :=
  match t with
  | ByDone => AtDone
  | ByError => AtError
  end.

(** What a step of the loop may do to the release bookkeeping: nothing
    while the loop goes on, one flagged release when it returns. *)
Definition release_step (r : Run) (out : Run * option Terminal) : Prop :=
  match out.2 with
  | None =>
      readerReleased out.1 = false ∧ releaseLock_calls out.1 = releaseLock_calls r
  | Some t =>
      readerReleased out.1 = true ∧
      releaseLock_calls out.1 = releaseLock_calls r ++ [site_of_terminal t]
  end.

Section Hook.

Variable projectId : string.

(** [JSON.parse] of an event line ([None]: it throws, or yields [null],
    whose [.type] throws), and of the content of a [sources] event. *)
Variable JSON_parse_chunk : string → option ParsedChunk.
Variable JSON_parse_sources : string → option (list DocumentSource.t).

Definition DATA_PREFIX : string := "data: ".

Definition dispatch (w : World) (data : ParsedChunk) (r : Run) : Run * option Terminal :=
  match type data with
  | Some StreamChunk.sources =>
      match JSON_parse_sources (content data) with
      | Some parsed =>
          let r := {| hook_state := hook_state r;
                      fullAssistantContent := fullAssistantContent r;
                      currentSources := parsed;
                      readerReleased := readerReleased r;
                      releaseLock_calls := releaseLock_calls r;
                      console := console r |} in
          (setState (λ prev,
             {| messages := messages prev; isLoading := isLoading prev;
                streamingContent := streamingContent prev;
                sources := parsed; error := error prev |}) r, None)
      | None => (console_log "Error parsing SSE data:" r, None)
      end
  | Some StreamChunk.text =>
      let full := fullAssistantContent r +:+ content data in
      let r := {| hook_state := hook_state r;
                  fullAssistantContent := full;
                  currentSources := currentSources r;
                  readerReleased := readerReleased r;
                  releaseLock_calls := releaseLock_calls r;
                  console := console r |} in
      (setState (λ prev,
         {| messages := messages prev; isLoading := isLoading prev;
            streamingContent := full;
            sources := sources prev; error := error prev |}) r, None)
  | Some StreamChunk.image =>
      (console_log ("Received image: " +:+ content data) r, None)
  | Some StreamChunk.done =>
      let assistantMessage :=
        {| Message.id := assistantMessageId w +:+ "_assistant";
           Message.role := assistant;
           Message.content := fullAssistantContent r;
           Message.images := None;
           Message.metadata :=
             Some {| MessageMetadata.sources := Some (currentSources r);
                     MessageMetadata.images := None;
                     MessageMetadata.timestamp := Some (assistantTimestamp w);
                     MessageMetadata.tokens := None |};
           Message.createdAt := assistantCreatedAt w |} in
      let r := setState (λ prev,
         {| messages := messages prev ++ [assistantMessage]; isLoading := false;
            streamingContent := ""; sources := []; error := error prev |}) r in
      (release_and_mark AtDone r, Some ByDone)
  | Some StreamChunk.error =>
      let r := setState (λ prev,
         {| messages := messages prev; isLoading := false;
            streamingContent := ""; sources := sources prev;
            error := Some (content data) |}) r in
      (release_and_mark AtError r, Some ByError)
  | None => (r, None)
  end.

(** The body of [for (const line of lines)]. *)
Definition process_line (w : World) (line : string) (r : Run) : Run * option Terminal :=
  if Js.startsWith DATA_PREFIX line then
    let jsonStr := Js.trim (Js.slice 6 line) in
    if Js.is_empty jsonStr then (r, None)
    else
      match JSON_parse_chunk jsonStr with
      | Some data => dispatch w data r
      | None => (console_log "Error parsing SSE data:" r, None)
      end
  else (r, None).

Fixpoint process_lines (w : World) (lines : list string) (r : Run) : Run * option Terminal :=
  match lines with
  | [] => (r, None)
  | line :: rest =>
      match process_line w line r with
      | (r', None) => process_lines w rest r'
      | stop => stop
      end
  end.

(** How the [while (true)] read loop is left. *)
Inductive LoopExit :=
| Returned (t : Terminal)
| Exhausted
| ReadThrew (e : Exn).

Fixpoint read_loop (w : World) (reads : list string) (ending : ReadEnd) (r : Run)
    : Run * LoopExit :=
  match reads with
  | [] =>
      match ending with
      | EndOfStream => (r, Exhausted)
      | ReadRejects e => (r, ReadThrew e)
      end
  | chunk :: rest =>
      match process_lines w (Js.split Js.LF chunk) r with
      | (r', Some t) => (r', Returned t)
      | (r', None) => read_loop w rest ending r'
      end
  end.

Definition release_site (exit : LoopExit) : ReleaseSite :=
  match exit with
  | Returned t => site_of_terminal t
  | Exhausted | ReadThrew _ => AtFinally
  end.

(** The inner [try { while ... } finally { ... }]. *)
Definition consume (w : World) (reader : Reader) (r : Run) : Run * LoopExit :=
  let (r', exit) := read_loop w (reads reader) (ending reader) r in
  (release_finally r', exit).

(** The outer [catch (error)]. *)
Definition handle_failure (e : Exn) (r : Run) : Run :=
  if String.eqb (exn_name e) "AbortError" then
    setState (λ prev,
      {| messages := messages prev; isLoading := false;
         streamingContent := ""; sources := sources prev; error := error prev |})
      (console_log "Request was aborted" r)
  else
    let errorMessage :=
      if Js.includes "timeout" (exn_message e) then
        "Request timed out. Please try again."
      else if Js.includes "network" (exn_message e) then
        "Network error. Please check your connection and try again."
      else exn_message e in
    setState (λ prev,
      {| messages := messages prev; isLoading := false;
         streamingContent := ""; sources := sources prev;
         error := Some errorMessage |})
      (console_log "Error in SSE chat:" r).

(** What one call of [sendMessage] leaves behind. *)
Record Result := {
  hook : Hook;
  fetches : list FetchRequest;
  releases : list ReleaseSite;
  log : list string;
}.

Definition or_default {A} (o : option A) (falsy : A → bool) (d : A) : A :=
  match o with
  | Some a => if falsy a then d else a
  | None => d
  end.

Definition userMessage (w : World) (content : string) (options : Options) : Message.t :=
  {| Message.id := userMessageId w +:+ "_user";
     Message.role := user;
     Message.content := Js.trim content;
     Message.images := opt_images options;
     Message.metadata := None;
     Message.createdAt := userCreatedAt w |}.

Definition request_of (w : World) (content : string) (options : Options) : FetchRequest :=
  {| url := "/api/chat/" +:+ projectId +:+ "/stream";
     req_message := Js.trim content;
     req_sessionId := requestSessionId w;
     req_contextStyle := or_default (contextStyle options) Js.is_empty "detailed";
     req_images := or_default (opt_images options) (λ _, false) [] |}.

(** The first [setState] of [sendMessage] and the fresh request-local
    variables. *)
Definition begin (w : World) (content : string) (options : Options) (h : Hook) : Run :=
  {| hook_state :=
       {| messages := messages (state h) ++ [userMessage w content options];
          isLoading := true; streamingContent := ""; sources := [];
          error := None |};
     fullAssistantContent := "";
     currentSources := [];
     readerReleased := false;
     releaseLock_calls := [];
     console := [] |}.

(** What a call does once it is past its guard. *)
Definition sendMessage_body (w : World) (content : string) (options : Options)
    (h : Hook) : Result :=
  let r0 := begin w content options h in
  let request := request_of w content options in
  let r :=
    match fetch w request with
    | FetchRejects e => handle_failure e r0
    | FetchResponds ok status body =>
        if negb ok then
          handle_failure (new_Error ("HTTP error! status: " +:+ pretty status)) r0
        else
          match body with
          | None => handle_failure (new_Error "Failed to get response reader") r0
          | Some reader =>
              match consume w reader r0 with
              | (r', ReadThrew e) => handle_failure e r'
              | (r', _) => r'
              end
          end
    end in
  {| hook := {| state := hook_state r; abortControllerRef := false |};
     fetches := [request];
     releases := releaseLock_calls r;
     log := console r |}.

(** [sendMessage] is a [useCallback] with [state.isLoading] among its
    dependencies: each render makes a callback whose guard reads the
    [state] of that render, while every [setState] of the call updates
    the state of its moment.  [sendMessage_from rendered] is a call
    through the callback of the render that showed [rendered], on a hook
    whose state is by then [state h]. *)
Definition sendMessage_from (rendered : ChatState) (w : World) (content : string)
    (options : Options) (h : Hook) : Result :=
  if Js.is_empty (Js.trim content) || isLoading rendered then
    {| hook := h; fetches := []; releases := []; log := [] |}
  else sendMessage_body w content options h.

(** A call through the callback of the latest render: the guard reads
    the flag the hook has. *)
Definition sendMessage (w : World) (content : string) (options : Options) (h : Hook) : Result :=
  sendMessage_from (state h) w content options h.

(** The part of a call that runs at once, up to its first [await]: the
    guard, the first [setState] and the call of [fetch], whose answer is
    outstanding when the part ends.  It gives the state it leaves and the
    requests it has put in flight. *)
Definition sendMessage_issue (rendered : ChatState) (w : World) (content : string)
    (options : Options) (st : ChatState) : ChatState * list FetchRequest :=
  if Js.is_empty (Js.trim content) || isLoading rendered then (st, [])
  else
    (hook_state (begin w content options {| state := st; abortControllerRef := true |}),
     [request_of w content options]).

(** The specification's statement: at most one request is in flight at
    any time.  Two calls made one after the other before an answer
    arrives, through the callback the component holds, leave at most one
    request in flight. *)
Definition one_request_in_flight (rendered : ChatState) (first second : World)
    (content content' : string) (options options' : Options) : Prop :=
  let (st, sent) := sendMessage_issue rendered first content options rendered in
  let (st', sent') := sendMessage_issue rendered second content' options' st in
  (length (sent ++ sent') ≤ 1)%nat.

(** The reader a call obtains: none when the call is a no-op, when
    [fetch] rejects, when the response is not [ok] or has no body. *)
Definition acquired_reader (w : World) (content : string) (options : Options)
    (h : Hook) : option Reader :=
  if Js.is_empty (Js.trim content) || isLoading (state h) then None
  else
    match fetch w (request_of w content options) with
    | FetchResponds true _ (Some reader) => Some reader
    | _ => None
    end.

(** The result of a call that does nothing. *)
Definition no_op (h : Hook) : Result :=
  {| hook := h; fetches := []; releases := []; log := [] |}.

Definition stopStreaming (h : Hook) : Hook :=
  {| state :=
       {| messages := messages (state h); isLoading := false;
          streamingContent := ""; sources := sources (state h); error := None |};
     abortControllerRef := false |}.

Definition clearMessages (h : Hook) : Hook :=
  {| state :=
       {| messages := []; isLoading := isLoading (state h);
          streamingContent := ""; sources := []; error := None |};
     abortControllerRef := abortControllerRef h |}.

End Hook.

End Consumer.


(** ** A JSON codec for running the model

    The handler and the hook take [JSON.stringify] and [JSON.parse] as
    arguments.  This module provides instances for them on the part of
    JSON with integer numbers and without [\u] escapes in the input, so
    that both halves of the pipeline can be run on concrete requests and
    wire text.  The properties below hold for any instance. *)

Module Json.

Local Unset Elimination Schemes.
Inductive t :=
| JNull
| JBool (b : bool)
| JNum (n : Z)
| JStr (s : string)
| JArr (items : list t)
| JObj (fields : list (string * t)).
Local Set Elimination Schemes.

Definition dquote : ascii := "034"%char.
Definition backslash : ascii := "092"%char.

Definition hex_digit (n : nat) : ascii :=
  ascii_of_nat (if (n <? 10)%nat then 48 + n else 87 + n).

(** The escapes [JSON.stringify] writes inside a string. *)
Definition escape_char (c : ascii) : string :=
  let n := nat_of_ascii c in
  if Ascii.eqb c dquote then String backslash (String dquote "")
  else if Ascii.eqb c backslash then String backslash (String backslash "")
  else if (n =? 8)%nat then String backslash "b"
  else if (n =? 9)%nat then String backslash "t"
  else if (n =? 10)%nat then String backslash "n"
  else if (n =? 12)%nat then String backslash "f"
  else if (n =? 13)%nat then String backslash "r"
  else if (n <? 32)%nat then
    String backslash ("u00" +:+ String (hex_digit (n / 16)) (String (hex_digit (n mod 16)) ""))
  else String c "".

Fixpoint escape (s : string) : string :=
  match s with
  | EmptyString => EmptyString
  | String c s' => escape_char c +:+ escape s'
  end.

Definition quote (s : string) : string :=
  String dquote (escape s +:+ String dquote "").

Fixpoint stringify (v : t) : string :=
  match v with
  | JNull => "null"
  | JBool true => "true"
  | JBool false => "false"
  | JNum n => Js.number_to_string n
  | JStr s => quote s
  | JArr items => "[" +:+ Js.join "," (List.map stringify items) +:+ "]"
  | JObj fields =>
      "{" +:+ Js.join "," (List.map (λ kv, quote kv.1 +:+ ":" +:+ stringify kv.2) fields)
      +:+ "}"
  end.

(** *** Parsing *)

Definition is_json_space (c : ascii) : bool :=
  bool_decide (nat_of_ascii c ∈ [9; 10; 13; 32]%nat).

Fixpoint skip_space (s : string) : string :=
  match s with
  | String c s' => if is_json_space c then skip_space s' else s
  | EmptyString => EmptyString
  end.

Definition unescape (c : ascii) : option ascii :=
  if Ascii.eqb c dquote then Some dquote
  else if Ascii.eqb c backslash then Some backslash
  else if Ascii.eqb c "/" then Some "/"%char
  else if Ascii.eqb c "b" then Some "008"%char
  else if Ascii.eqb c "t" then Some "009"%char
  else if Ascii.eqb c "n" then Some "010"%char
  else if Ascii.eqb c "f" then Some "012"%char
  else if Ascii.eqb c "r" then Some "013"%char
  else None.

Definition hex_value (c : ascii) : option nat :=
  let n := nat_of_ascii c in
  if (48 <=? n)%nat && (n <=? 57)%nat then Some (n - 48)%nat
  else if (97 <=? n)%nat && (n <=? 102)%nat then Some (n - 87)%nat
  else if (65 <=? n)%nat && (n <=? 70)%nat then Some (n - 55)%nat
  else None.

(** The code unit of the four hexadecimal digits of a [\u] escape, when
    it is one of the code units of the model (below 256). *)
Definition code_unit (a b c d : ascii) : option ascii :=
  a ← hex_value a; b ← hex_value b; c ← hex_value c; d ← hex_value d;
  let n := (((a * 16 + b) * 16 + c) * 16 + d)%nat in
  if (n <? 256)%nat then Some (ascii_of_nat n) else None.

(** The rest of a string literal after its opening quote; raw control
    characters are rejected. *)
Fixpoint parse_string (s : string) : option (string * string) :=
  match s with
  | EmptyString => None
  | String c s' =>
      if Ascii.eqb c dquote then Some (EmptyString, s')
      else if Ascii.eqb c backslash then
        match s' with
        | String "u" (String h1 (String h2 (String h3 (String h4 s'')))) =>
            c' ← code_unit h1 h2 h3 h4;
            '(str, rest) ← parse_string s'';
            Some (String c' str, rest)
        | String e s'' =>
            c' ← unescape e;
            '(str, rest) ← parse_string s'';
            Some (String c' str, rest)
        | EmptyString => None
        end
      else if (nat_of_ascii c <? 32)%nat then None
      else
        '(str, rest) ← parse_string s';
        Some (String c str, rest)
  end.

Definition digit_value (c : ascii) : option Z :=
  let n := nat_of_ascii c in
  if (48 <=? n)%nat && (n <=? 57)%nat then Some (Z.of_nat (n - 48)) else None.

Fixpoint parse_digits (acc : Z) (s : string) : Z * string :=
  match s with
  | String c s' =>
      match digit_value c with
      | Some d => parse_digits (10 * acc + d) s'
      | None => (acc, s)
      end
  | EmptyString => (acc, s)
  end.

(** An integer literal: an optional minus sign and at least one digit,
    with no zero before another digit. *)
Definition parse_number (s : string) : option (Z * string) :=
  let (negative, body) :=
    match s with
    | String "-" s' => (true, s')
    | _ => (false, s)
    end in
  match body with
  | String "0" (String c _) =>
      if is_Some_dec (digit_value c) then None
      else Some (0, Js.slice 1 body)
  | String c _ =>
      if is_Some_dec (digit_value c) then
        let (n, rest) := parse_digits 0 body in
        Some (if negative then - n else n, rest)
      else None
  | EmptyString => None
  end.

Definition strip_prefix (p s : string) : option string :=
  if String.prefix p s then Some (Js.slice (String.length p) s) else None.

Fixpoint parse_value (fuel : nat) (s : string) : option (t * string) :=
  match fuel with
  | O => None
  | S fuel =>
      match skip_space s with
      | String "n" _ as s => rest ← strip_prefix "null" s; Some (JNull, rest)
      | String "t" _ as s => rest ← strip_prefix "true" s; Some (JBool true, rest)
      | String "f" _ as s => rest ← strip_prefix "false" s; Some (JBool false, rest)
      | String "[" s' =>
          match skip_space s' with
          | String "]" rest => Some (JArr [], rest)
          | s' => '(items, rest) ← parse_items fuel s'; Some (JArr items, rest)
          end
      | String "{" s' =>
          match skip_space s' with
          | String "}" rest => Some (JObj [], rest)
          | s' => '(fields, rest) ← parse_fields fuel s'; Some (JObj fields, rest)
          end
      | String c s' as s =>
          if Ascii.eqb c dquote then
            '(str, rest) ← parse_string s'; Some (JStr str, rest)
          else
            '(n, rest) ← parse_number s; Some (JNum n, rest)
      | EmptyString => None
      end
  end
with parse_items (fuel : nat) (s : string) : option (list t * string) :=
  match fuel with
  | O => None
  | S fuel =>
      '(item, rest) ← parse_value fuel s;
      match skip_space rest with
      | String "," rest' =>
          '(items, rest'') ← parse_items fuel rest'; Some (item :: items, rest'')
      | String "]" rest' => Some ([item], rest')
      | _ => None
      end
  end
with parse_fields (fuel : nat) (s : string) : option (list (string * t) * string) :=
  match fuel with
  | O => None
  | S fuel =>
      match skip_space s with
      | String c s' =>
          if Ascii.eqb c dquote then
            '(key, rest) ← parse_string s';
            match skip_space rest with
            | String ":" rest' =>
                '(v, rest'') ← parse_value fuel rest';
                match skip_space rest'' with
                | String "," rest3 =>
                    '(fields, rest4) ← parse_fields fuel rest3;
                    Some ((key, v) :: fields, rest4)
                | String "}" rest3 => Some ([(key, v)], rest3)
                | _ => None
                end
            | _ => None
            end
          else None
      | EmptyString => None
      end
  end.

(** A whole text: one value and nothing but white space after it. *)
Definition parse (s : string) : option t :=
  '(v, rest) ← parse_value (S (String.length s)) s;
  if Js.is_empty (skip_space rest) then Some v else None.

End Json.

(** ** The wire format between the two halves *)

Module Wire.

Import Json.

Definition field (key : string) (fields : list (string * Json.t)) : option Json.t :=
  snd <$> List.find (λ kv, String.eqb kv.1 key) fields.

Definition value_to_json (v : Js.value) : option Json.t :=
  match v with
  | Js.Undefined => None
  | Js.Null => Some JNull
  | Js.Bool b => Some (JBool b)
  | Js.Num n => Some (JNum n)
  | Js.Str s => Some (JStr s)
  end.

Definition json_to_value (j : Json.t) : option Js.value :=
  match j with
  | JNull => Some Js.Null
  | JBool b => Some (Js.Bool b)
  | JNum n => Some (Js.Num n)
  | JStr s => Some (Js.Str s)
  | _ => None
  end.

Definition metadata_to_json (md : DocMetadata) : Json.t :=
  JObj (match documentName md with
        | Some n => [("documentName", JStr n)]
        | None => []
        end ++
        omap (λ kv, pair kv.1 <$> value_to_json kv.2) (otherKeys md)).

Definition source_to_json (s : DocumentSource.t) : Json.t :=
  JObj ([("id", JStr (DocumentSource.id s));
         ("name", JStr (DocumentSource.name s));
         ("pageContent", JStr (DocumentSource.pageContent s))] ++
        match DocumentSource.metadata s with
        | Some md => [("metadata", metadata_to_json md)]
        | None => []
        end).

(** [JSON.stringify(sources)] *)
Definition stringify_sources (sources : list DocumentSource.t) : string :=
  stringify (JArr (List.map source_to_json sources)).

Definition kind_name (k : StreamChunk.kind) : string :=
  match k with
  | StreamChunk.text => "text"
  | StreamChunk.image => "image"
  | StreamChunk.sources => "sources"
  | StreamChunk.done => "done"
  | StreamChunk.error => "error"
  end.

Definition kind_of_name (s : string) : option StreamChunk.kind :=
  List.find (λ k, String.eqb (kind_name k) s)
    [StreamChunk.text; StreamChunk.image; StreamChunk.sources;
     StreamChunk.done; StreamChunk.error].

(** [`data: ${JSON.stringify(chunk)}\n\n`] *)
Definition event_text (chunk : StreamChunk.t) : string :=
  "data: " +:+
  stringify (JObj [("type", JStr (kind_name (StreamChunk.type chunk)));
                   ("content", JStr (StreamChunk.content chunk))])
  +:+ Js.nl +:+ Js.nl.

Definition string_field (key : string) (fields : list (string * Json.t)) : option string :=
  match field key fields with
  | Some (JStr s) => Some s
  | _ => None
  end.

(** [JSON.parse] of an event line: [null] makes the access to [.type]
    throw, a value without a known [type] matches no [case]. *)
Definition parse_chunk (s : string) : option Consumer.ParsedChunk :=
  j ← parse s;
  match j with
  | JNull => None
  | JObj fields =>
      Some {| Consumer.type := string_field "type" fields ≫= kind_of_name;
              Consumer.content := default "" (string_field "content" fields) |}
  | _ => Some {| Consumer.type := None; Consumer.content := "" |}
  end.

Definition json_to_metadata (j : Json.t) : option DocMetadata :=
  match j with
  | JObj fields =>
      Some {| documentName := string_field "documentName" fields;
              otherKeys :=
                omap (λ kv, pair kv.1 <$> json_to_value kv.2)
                  (List.filter (λ kv, negb (String.eqb kv.1 "documentName")) fields) |}
  | _ => None
  end.

Definition json_to_source (j : Json.t) : option DocumentSource.t :=
  match j with
  | JObj fields =>
      id ← string_field "id" fields;
      name ← string_field "name" fields;
      pageContent ← string_field "pageContent" fields;
      Some {| DocumentSource.id := id; DocumentSource.name := name;
              DocumentSource.pageContent := pageContent;
              DocumentSource.metadata := field "metadata" fields ≫= json_to_metadata |}
  | _ => None
  end.

(** [JSON.parse] of the content of a [sources] event, read as an array
    of sources. *)
Definition parse_sources (s : string) : option (list DocumentSource.t) :=
  j ← parse s;
  match j with
  | JArr items => mapM json_to_source items
  | _ => None
  end.

End Wire.

(** ** A concrete request, for running both halves *)

Module Demo.

Import Controller.

Definition refund_passage : Document.t :=
  Document.mk "Refunds are issued within 30 days of purchase."
    (Some {| documentName := Some "policy.pdf";
             otherKeys := [("chunkIndex", Js.Num 0)] |}).

Definition shipping_passage : Document.t :=
  Document.mk "Orders ship within 5 business days." None.

Definition row (projectId content : string) (role : Role) (isDeleted : bool)
    (createdAt : Z) : MessageRow.t :=
  {| MessageRow.projectId := projectId; MessageRow.content := content;
     MessageRow.role := role; MessageRow.isDeleted := isDeleted;
     MessageRow.deletedAt := if isDeleted then Some (createdAt + 1) else None;
     MessageRow.editHistory := None; MessageRow.lastEditedAt := None;
     MessageRow.metadata := None; MessageRow.createdAt := createdAt;
     MessageRow.updatedAt := if isDeleted then createdAt + 1 else createdAt |}.

(** Project [p1] of user [u1] holds two turns, the second soft-deleted;
    project [p2] belongs to somebody else. *)
Definition database : Db :=
  {| projects := <["p1" := "u1"]> (<["p2" := "u2"]> ∅);
     messages :=
       <["m1" := row "p1" "Hi" user false 100]>
       (<["m2" := row "p1" "My card number is 1234" user true 200]>
       (<["m3" := row "p2" "Unrelated" user false 300]> ∅)) |}.

Definition environment : Env :=
  {| OPENAI_API_KEY := Some "sk-test";
     PINECONE_API_KEY := Some "pc-test";
     PINECONE_INDEX_NAME := Some "knowflow" |}.

Definition request (message : Js.value) : Body :=
  {| message := message; sessionId := Js.Str "s1"; contextStyle := Js.Undefined |}.

Definition world (message : Js.value) : World :=
  {| env := environment;
     sessionUserId := Some "u1";
     requestBody := Some (request message);
     similaritySearchWithScore := λ _ _ _,
       Some [(refund_passage, 0.91%float); (shipping_passage, 0.60%float)];
     chat_completions_create := λ _,
       Some {| deltas := [Some "Hel"; None; Some ""; Some "lo"]; rejects := false |};
     dbReachable := true;
     now := 1000 |}.

Definition question : Js.value := Js.Str "What is the refund policy?".

(** The same world with the database out of reach for the write. *)
Definition world_offline (message : Js.value) : World :=
  {| env := environment;
     sessionUserId := sessionUserId (world message);
     requestBody := requestBody (world message);
     similaritySearchWithScore := similaritySearchWithScore (world message);
     chat_completions_create := chat_completions_create (world message);
     dbReachable := false;
     now := 1000 |}.

(** The same world with a model that fails after its first increment. *)
Definition world_model_fails (message : Js.value) : World :=
  {| env := environment;
     sessionUserId := sessionUserId (world message);
     requestBody := requestBody (world message);
     similaritySearchWithScore := similaritySearchWithScore (world message);
     chat_completions_create := λ _,
       Some {| deltas := [Some "Hel"]; rejects := true |};
     dbReachable := true;
     now := 1000 |}.

Definition refund_source : DocumentSource.t :=
  {| DocumentSource.id := "src-0"; DocumentSource.name := "policy.pdf";
     DocumentSource.pageContent := Document.pageContent refund_passage;
     DocumentSource.metadata := Document.metadata refund_passage |}.

(** *** The consumer's side *)

Definition idle : Consumer.Hook :=
  {| Consumer.state :=
       {| Consumer.messages := []; Consumer.isLoading := false;
          Consumer.streamingContent := ""; Consumer.sources := [];
          Consumer.error := None |};
     Consumer.abortControllerRef := false |}.

Definition no_options : Consumer.Options :=
  {| Consumer.contextStyle := None; Consumer.opt_images := None |}.

(** A browser in which [fetch] answers every request the same way. *)
Definition client (answer : Consumer.FetchResult) : Consumer.World :=
  {| Consumer.userMessageId := "session_1_a";
     Consumer.userCreatedAt := 1;
     Consumer.requestSessionId := "session_1_b";
     Consumer.assistantMessageId := "session_2_c";
     Consumer.assistantTimestamp := "1970-01-01T00:00:00.002Z";
     Consumer.assistantCreatedAt := 2;
     Consumer.fetch := λ _, answer |}.

(** A response whose body delivers the given events, one per read. *)
Definition streaming (events : list StreamChunk.t) (ending : Consumer.ReadEnd)
    : Consumer.FetchResult :=
  Consumer.FetchResponds true 200
    (Some {| Consumer.reads := Wire.event_text <$> events;
             Consumer.ending := ending |}).

Definition AbortError : Consumer.Exn :=
  {| Consumer.exn_name := "AbortError";
     Consumer.exn_message := "The user aborted a request." |}.

Definition send (answer : Consumer.FetchResult) : Consumer.Result :=
  Consumer.sendMessage "p1" Wire.parse_chunk Wire.parse_sources (client answer)
    " What is the refund policy? " no_options idle.

(** The events the controller emits for the demo request. *)
Definition served_events : list StreamChunk.t :=
  match Controller.POST Wire.stringify_sources (world question) database "p1" with
  | Controller.EventStream final _ => Controller.enqueued final
  | Controller.Plain _ _ => []
  end.

End Demo.

(** ** The rest of the hook and its caller

    [retryLastMessage] (src/unnamed/part_000, lines 316-337) and the
    submit handler of the message input (src/unnamed/part_010, lines
    31-38), which reaches [sendMessage] through [ChatPanel]. *)

Module Retry.

Import Consumer.

Section Hook.

Variable projectId : string.
Variable JSON_parse_chunk : string → option ParsedChunk.
Variable JSON_parse_sources : string → option (list DocumentSource.t).

(** [state.messages.slice().reverse().find(msg => msg.role === 'user')] *)
Definition lastUserMessage (st : ChatState) : option Message.t :=
  List.find (λ msg, bool_decide (Message.role msg = user)) (reverse (messages st)).

(** The predicate of the [filter] in [retryLastMessage]. *)
Definition kept_on_retry (last : Message.t) (msg : Message.t) : bool :=
  negb (bool_decide (Message.role msg = assistant) &&
        (Message.createdAt last <? Message.createdAt msg)).

Definition retryLastMessage (w : World) (h : Hook) : Result :=
  match lastUserMessage (state h) with
  | Some last =>
      let h' :=
        {| state :=
             {| messages := List.filter (kept_on_retry last) (messages (state h));
                isLoading := isLoading (state h);
                streamingContent := streamingContent (state h);
                sources := sources (state h);
                error := None |};
           abortControllerRef := abortControllerRef h |} in
      sendMessage projectId JSON_parse_chunk JSON_parse_sources w
        (Message.content last)
        {| contextStyle := None; opt_images := Message.images last |} h'
  | None => no_op h
  end.

(** The state of the message input. *)
Record InputState := {
  value : string;
  input_contextStyle : string;
  input_images : list string;
}.

(** [handleSubmit] of the message input, with [onSubmit] bound to
    [sendMessage] as [ChatPanel] binds it: [None] when the handler
    returns early, otherwise the cleared input and what the hook did. *)
Definition handleSubmit (w : World) (input : InputState) (h : Hook)
    : option (InputState * Result) :=
  if Js.is_empty (Js.trim (value input)) || isLoading (state h) then None
  else
    Some ({| value := ""; input_contextStyle := input_contextStyle input;
             input_images := [] |},
          sendMessage projectId JSON_parse_chunk JSON_parse_sources w
            (Js.trim (value input))
            {| contextStyle := Some (input_contextStyle input);
               opt_images := Some (input_images input) |} h).

End Hook.

End Retry.

(** ** The event text on the transport

    [sendChunk] (src/unnamed/part_002, lines 60-63) writes
    [data: ${JSON.stringify(chunk)}] followed by two line feeds. *)

Module Transport.

Section Codec.

(** [JSON.stringify] on a chunk. *)
Variable JSON_stringify_chunk : StreamChunk.t → string.

Definition event_text (chunk : StreamChunk.t) : string :=
  "data: " +:+ JSON_stringify_chunk chunk +:+ Js.nl +:+ Js.nl.

(** What the consumer's [JSON.parse] has to return for the text of a
    chunk to read it back. *)
Definition parsed (chunk : StreamChunk.t) : Consumer.ParsedChunk :=
  {| Consumer.type := Some (StreamChunk.type chunk);
     Consumer.content := StreamChunk.content chunk |}.

Fixpoint has_line_feed (s : string) : bool :=
  match s with
  | EmptyString => false
  | String c s' => Ascii.eqb c Js.LF || has_line_feed s'
  end.

(** The consumer's parser agrees with the serializer on one chunk: the
    text is on one line, is not blank, and parses back to the chunk. *)
Definition reads_back (JSON_parse_chunk : string → option Consumer.ParsedChunk)
    (chunk : StreamChunk.t) : Prop :=
  has_line_feed (JSON_stringify_chunk chunk) = false ∧
  Js.is_empty (Js.trim (JSON_stringify_chunk chunk)) = false ∧
  JSON_parse_chunk (Js.trim (JSON_stringify_chunk chunk)) = Some (parsed chunk).

End Codec.

End Transport.

(** ** The semantic search route (src/unnamed/part_002, lines 214-316) *)

Module Search.

Record World := {
  env : Controller.Env;
  sessionUserId : option string;            (* [session?.user?.id] *)
  requestQuery : option Js.value;           (* [body.query]; [None]: [request.json()] rejects *)
  (* [PineconeStore.fromExistingIndex] on a namespace followed by
     [maxMarginalRelevanceSearch(query, { k, fetchK, lambda })];
     [None]: either one rejects *)
  maxMarginalRelevanceSearch :
    string → string → nat → nat → float → option (list Document.t);
}.

(** One entry of [formattedResults]; [relevanceScore] is always [null]. *)
Record SearchResult := {
  id : nat;
  content : string;
  metadata : option DocMetadata;
}.

Inductive Payload :=
| Failure (error : string)
| Results (query : string) (results : list SearchResult) (totalResults : nat).

Record Response := {
  status : nat;
  payload : Payload;
}.

(** [prisma.project.findFirst({ where: { id, userId } })] *)
Definition owns (projects : gmap string string) (projectId userId : string) : bool :=
  bool_decide (projects !! projectId = Some userId).

Definition formattedResults (results : list Document.t) : list SearchResult :=
  imap (λ idx doc,
    {| id := idx; content := Document.pageContent doc;
       metadata := Document.metadata doc |}) results.

Definition POST (w : World) (projects : gmap string string) (projectId : string)
    : Response :=
  match sessionUserId w with
  | None => {| status := 401; payload := Failure "Unauthorized" |}
  | Some userId =>
      if Js.is_empty userId then {| status := 401; payload := Failure "Unauthorized" |}
      else if negb (owns projects projectId userId) then
        {| status := 403; payload := Failure "Project not found or access denied" |}
      else
        match requestQuery w with
        | None => {| status := 500; payload := Failure "Failed to perform semantic search" |}
        | Some query =>
            if negb (Js.truthy query) || negb (Js.is_string query) then
              {| status := 400;
                 payload := Failure "Query is required and must be a string" |}
            else if Js.env_missing (Controller.OPENAI_API_KEY (env w))
                    || Js.env_missing (Controller.PINECONE_API_KEY (env w))
                    || Js.env_missing (Controller.PINECONE_INDEX_NAME (env w)) then
              {| status := 500;
                 payload := Failure "Vector search temporarily disabled. Please use the main chat interface." |}
            else
              match maxMarginalRelevanceSearch w ("project-" +:+ projectId)
                      (Js.to_string query) 4 20 0.6%float with
              | Some results =>
                  let formatted := formattedResults results in
                  {| status := 200;
                     payload := Results (Js.to_string query) formatted (length formatted) |}
              | None =>
                  {| status := 500; payload := Failure "Failed to perform semantic search" |}
              end
        end
  end.

End Search.

(** ** The message routes

    [PATCH] and [DELETE] of [/api/messages/[id]] and [POST] of
    [/api/messages/[id]/restore] (src/src/app/api/extract-vocabulary/route.ts,
    lines 176-319 and 319-376), which edit, soft-delete, delete and
    restore the rows the stream handler writes and reads. *)

Module MessageRoutes.

Import Controller.

Record World := {
  sessionEmail : option string;             (* [session?.user?.email] *)
  users : gmap string string;               (* e-mail address -> user id *)
  date : nat → Z;                           (* the n-th [new Date()] of the call *)
}.

(** The JSON bodies of the responses: an error with its status, the
    updated row of a [PATCH], and the reports of [DELETE] and restore. *)
Inductive Response :=
| Failure (status : nat) (error : string)
| Updated (message : MessageRow.t)
| Deleted (message : string) (permanent : bool) (data : option MessageRow.t)
| Restored (message : string) (data : MessageRow.t).

(** [v !== s] for a string [s] *)
Definition differs_from (v : Js.value) (s : string) : bool :=
  match v with
  | Js.Str r => negb (String.eqb r s)
  | _ => true
  end.

Definition role_name (r : Role) : string :=
  match r with
  | system => "system"
  | user => "user"
  | assistant => "assistant"
  end.

(** [prisma.message.findFirst({ where: { id, project: { userId } } })] *)
Definition findMessage (d : Db) (id userId : string) : option MessageRow.t :=
  row ← messages d !! id;
  owner ← projects d !! MessageRow.projectId row;
  if decide (owner = userId) then Some row else None.

(** The checks the three handlers share: the session, then the user. *)
Definition authenticate (w : World) : Response + string :=
  match sessionEmail w with
  | None => inl (Failure 401 "Unauthorized")
  | Some email =>
      if Js.is_empty email then inl (Failure 401 "Unauthorized")
      else
        match users w !! email with
        | Some userId => inr userId
        | None => inl (Failure 404 "User not found")
        end
  end.

Definition with_messages (d : Db) (table : gmap string MessageRow.t) : Db :=
  {| projects := projects d; messages := table |}.

(** The body of a [PATCH]: [content] and [role] as they were sent. *)
Record PatchBody := {
  patch_content : Js.value;
  patch_role : Js.value;
}.

(** [PATCH]: [content: undefined] leaves the column as it is, a string
    sets it, anything else is refused by the database client. *)
Definition PATCH (w : World) (body : option PatchBody) (id : string) (d : Db)
    : Response * Db :=
  match sessionEmail w with
  | None => (Failure 401 "Unauthorized", d)
  | Some email =>
      if Js.is_empty email then (Failure 401 "Unauthorized", d)
      else
        match body with
        | None => (Failure 500 "Internal server error", d)
        | Some body =>
            match users w !! email with
            | None => (Failure 404 "User not found", d)
            | Some userId =>
                match findMessage d id userId with
                | None => (Failure 404 "Message not found", d)
                | Some currentMessage =>
                    if Js.truthy (patch_role body) &&
                       differs_from (patch_role body)
                         (role_name (MessageRow.role currentMessage))
                    then (Failure 400 "Cannot change message role", d)
                    else
                      let currentEditHistory :=
                        default [] (MessageRow.editHistory currentMessage) in
                      let newEditHistory :=
                        currentEditHistory ++
                        [(MessageRow.content currentMessage, date w 0)] in
                      let updated (content : string) :=
                        {| MessageRow.projectId := MessageRow.projectId currentMessage;
                           MessageRow.content := content;
                           MessageRow.role := MessageRow.role currentMessage;
                           MessageRow.isDeleted := MessageRow.isDeleted currentMessage;
                           MessageRow.deletedAt := MessageRow.deletedAt currentMessage;
                           MessageRow.editHistory := Some newEditHistory;
                           MessageRow.lastEditedAt := Some (date w 1);
                           MessageRow.metadata := MessageRow.metadata currentMessage;
                           MessageRow.createdAt := MessageRow.createdAt currentMessage;
                           MessageRow.updatedAt := date w 2 |} in
                      match patch_content body with
                      | Js.Str content =>
                          (Updated (updated content),
                           with_messages d (<[id := updated content]> (messages d)))
                      | Js.Undefined =>
                          (Updated (updated (MessageRow.content currentMessage)),
                           with_messages d
                             (<[id := updated (MessageRow.content currentMessage)]>
                                (messages d)))
                      | _ => (Failure 500 "Internal server error", d)
                      end
                end
            end
        end
  end.

(** [DELETE]: [permanent] is [?permanent=true]. *)
Definition DELETE (w : World) (permanent : bool) (id : string) (d : Db)
    : Response * Db :=
  match authenticate w with
  | inl refusal => (refusal, d)
  | inr userId =>
      match findMessage d id userId with
      | None => (Failure 404 "Message not found", d)
      | Some message =>
          if permanent then
            (Deleted "Message permanently deleted" true None,
             with_messages d (delete id (messages d)))
          else
            let deletedMessage :=
              {| MessageRow.projectId := MessageRow.projectId message;
                 MessageRow.content := MessageRow.content message;
                 MessageRow.role := MessageRow.role message;
                 MessageRow.isDeleted := true;
                 MessageRow.deletedAt := Some (date w 0);
                 MessageRow.editHistory := MessageRow.editHistory message;
                 MessageRow.lastEditedAt := MessageRow.lastEditedAt message;
                 MessageRow.metadata := MessageRow.metadata message;
                 MessageRow.createdAt := MessageRow.createdAt message;
                 MessageRow.updatedAt := date w 1 |} in
            (Deleted "Message deleted" false (Some deletedMessage),
             with_messages d (<[id := deletedMessage]> (messages d)))
      end
  end.

(** [POST .../restore]: only a soft-deleted row is found. *)
Definition restore (w : World) (id : string) (d : Db) : Response * Db :=
  match authenticate w with
  | inl refusal => (refusal, d)
  | inr userId =>
      match findMessage d id userId with
      | Some message =>
          if MessageRow.isDeleted message then
            let restoredMessage :=
              {| MessageRow.projectId := MessageRow.projectId message;
                 MessageRow.content := MessageRow.content message;
                 MessageRow.role := MessageRow.role message;
                 MessageRow.isDeleted := false;
                 MessageRow.deletedAt := None;
                 MessageRow.editHistory := MessageRow.editHistory message;
                 MessageRow.lastEditedAt := MessageRow.lastEditedAt message;
                 MessageRow.metadata := MessageRow.metadata message;
                 MessageRow.createdAt := MessageRow.createdAt message;
                 MessageRow.updatedAt := date w 0 |} in
            (Restored "Message restored successfully" restoredMessage,
             with_messages d (<[id := restoredMessage]> (messages d)))
          else (Failure 404 "Deleted message not found", d)
      | None => (Failure 404 "Deleted message not found", d)
      end
  end.

End MessageRoutes.

(** ** The read loop at the level of events

    What the read loop of the hook does when every read delivers the text
    of one event: the [switch] applied to the events in turn. *)

Module Delivery.

Import Consumer.

Section Events.

Variable JSON_parse_sources : string → option (list DocumentSource.t).

Fixpoint run_events (w : World) (events : list StreamChunk.t) (ending : ReadEnd)
    (r : Run) : Run * LoopExit :=
  match events with
  | [] =>
      match ending with
      | EndOfStream => (r, Exhausted)
      | ReadRejects e => (r, ReadThrew e)
      end
  | event :: rest =>
      match dispatch JSON_parse_sources w (Transport.parsed event) r with
      | (r', Some t) => (r', Returned t)
      | (r', None) => run_events w rest ending r'
      end
  end.

(** The state after a run of events none of which ends the loop. *)
Definition after_events (w : World) (events : list StreamChunk.t) (r : Run) : Run :=
  foldl (λ r event, (dispatch JSON_parse_sources w (Transport.parsed event) r).1)
    r events.

End Events.

(** An event that does not end the stream. *)
Definition goes_on (event : StreamChunk.t) : bool :=
  match StreamChunk.type event with
  | StreamChunk.done | StreamChunk.error => false
  | _ => true
  end.

(** How the read loop is left when the reads run out. *)
Definition exit_of (ending : ReadEnd) : LoopExit :=
  match ending with
  | EndOfStream => Exhausted
  | ReadRejects e => ReadThrew e
  end.

(** What stays as it is across an event that does not end the stream. *)
Definition carried_over (r r' : Run) : Prop :=
  messages (hook_state r') = messages (hook_state r) ∧
  isLoading (hook_state r') = isLoading (hook_state r) ∧
  error (hook_state r') = error (hook_state r) ∧
  readerReleased r' = readerReleased r ∧
  releaseLock_calls r' = releaseLock_calls r.

(** What a step of the loop may do to the turns and the error: nothing
    while the loop goes on, one assistant turn on [done], an error and no
    turn on [error]. *)
Definition turn_step (r : Run) (out : Run * option Terminal) : Prop :=
  match out.2 with
  | None =>
      messages (hook_state out.1) = messages (hook_state r) ∧
      error (hook_state out.1) = None
  | Some ByDone =>
      (∃ turn, messages (hook_state out.1) = messages (hook_state r) ++ [turn] ∧
               Message.role turn = assistant) ∧
      error (hook_state out.1) = None ∧
      isLoading (hook_state out.1) = false
  | Some ByError =>
      messages (hook_state out.1) = messages (hook_state r) ∧
      is_Some (error (hook_state out.1)) ∧
      isLoading (hook_state out.1) = false
  end.

Section Response.

Variable projectId : string.
Variable JSON_stringify_chunk : StreamChunk.t → string.

(** The answer of [fetch] that delivers the given events, one per read,
    followed by whatever else. *)
Definition responds_with (w : World) (content : string) (options : Options)
    (events : list StreamChunk.t) (more : list string) (ending : ReadEnd) : Prop :=
  ∃ status,
    fetch w (request_of projectId w content options) =
      FetchResponds true status
        (Some {| reads := (Transport.event_text JSON_stringify_chunk <$> events) ++ more;
                 ending := ending |}).

End Response.

End Delivery.

(** ** Characters of a string *)

Module Text.

Fixpoint has_char (c : ascii) (s : string) : bool :=
  match s with
  | EmptyString => false
  | String c' s' => Ascii.eqb c' c || has_char c s'
  end.

Definition is_digit (c : ascii) : bool :=
  (48 <=? nat_of_ascii c)%nat && (nat_of_ascii c <=? 57)%nat.

Fixpoint digits_only (s : string) : bool :=
  match s with
  | EmptyString => true
  | String c s' => is_digit c && digits_only s'
  end.

End Text.

(** ** Further concrete requests *)

Module Scenario.

(** [JSON.stringify(chunk)] *)
Definition stringify_chunk (chunk : StreamChunk.t) : string :=
  Json.stringify
    (Json.JObj [("type", Json.JStr (Wire.kind_name (StreamChunk.type chunk)));
                ("content", Json.JStr (StreamChunk.content chunk))]).

(** The demo world with a retriever that finds nothing relevant. *)
Definition world_nothing_relevant : Controller.World :=
  {| Controller.env := Demo.environment;
     Controller.sessionUserId := Some "u1";
     Controller.requestBody := Some (Demo.request Demo.question);
     Controller.similaritySearchWithScore := λ _ _ _,
       Some [(Demo.shipping_passage, 0.60%float)];
     Controller.chat_completions_create :=
       Controller.chat_completions_create (Demo.world Demo.question);
     Controller.dbReachable := true;
     Controller.now := 1000 |}.

(** The demo database after an earlier exchange of session [s1]. *)
Definition database_after_s1 : Controller.Db :=
  {| Controller.projects := Controller.projects Demo.database;
     Controller.messages :=
       <["s1-user" := Demo.row "p1" "Earlier question" user false 400]>
         (Controller.messages Demo.database) |}.

(** The answer of the demo model. *)
Definition completion : Controller.Completion :=
  {| Controller.deltas := [Some "Hel"; None; Some ""; Some "lo"];
     Controller.rejects := false |}.

(** The owner of project [p1], signed in. *)
Definition owner : MessageRoutes.World :=
  {| MessageRoutes.sessionEmail := Some "ann@example.org";
     MessageRoutes.users := {[ "ann@example.org" := "u1" ]};
     MessageRoutes.date := λ n, 2000 + Z.of_nat n |}.

Definition first_turn : MessageRow.t := Demo.row "p1" "Hi" user false 100.

Definition edit : MessageRoutes.PatchBody :=
  {| MessageRoutes.patch_content := Js.Str "Hello";
     MessageRoutes.patch_role := Js.Undefined |}.

Definition search_world : Search.World :=
  {| Search.env := Demo.environment;
     Search.sessionUserId := Some "u1";
     Search.requestQuery := Some (Js.Str "refund");
     Search.maxMarginalRelevanceSearch := λ _ _ _ _ _,
       Some [Demo.refund_passage; Demo.shipping_passage] |}.

(** A hook that shows one answered question. *)
Definition asked : Consumer.Message.t :=
  {| Consumer.Message.id := "session_0_a_user"; Consumer.Message.role := user;
     Consumer.Message.content := "What is the refund policy?";
     Consumer.Message.images := None; Consumer.Message.metadata := None;
     Consumer.Message.createdAt := 10 |}.

Definition answer : Consumer.Message.t :=
  {| Consumer.Message.id := "session_0_b_assistant";
     Consumer.Message.role := assistant;
     Consumer.Message.content := "Hello";
     Consumer.Message.images := None; Consumer.Message.metadata := None;
     Consumer.Message.createdAt := 20 |}.

Definition answered : Consumer.Hook :=
  {| Consumer.state :=
       {| Consumer.messages := [asked; answer]; Consumer.isLoading := false;
          Consumer.streamingContent := ""; Consumer.sources := [];
          Consumer.error := Some "Network error. Please check your connection and try again." |};
     Consumer.abortControllerRef := false |}.

Definition question : string := " What is the refund policy? ".

End Scenario.

(** * Properties *)

(** ** JavaScript string helpers on examples *)

Example trim_spaces : Js.trim "  hi there  " = "hi there".
Proof. reflexivity. Qed.

Example trim_blank : Js.trim "   " = "".
Proof. reflexivity. Qed.

Example split_lines :
  Js.split Js.LF ("a" +:+ Js.nl +:+ Js.nl +:+ "b") = ["a"; ""; "b"].
Proof. reflexivity. Qed.

Example to_string_num : Js.to_string (Js.Num 42) = "42".
Proof. reflexivity. Qed.

(** Integers from [2^53] on are printed as the binary64 value they are
    read as, in exponent form from 22 digits on. *)
Example to_string_rounded : Js.to_string (Js.Num (2 ^ 53 + 1)) = "9007199254740992".
Proof. vm_compute. reflexivity. Qed.

Example to_string_shortest : Js.to_string (Js.Num (2 ^ 60)) = "1152921504606847000".
Proof. vm_compute. reflexivity. Qed.

Example to_string_exponent : Js.to_string (Js.Num (10 ^ 21)) = "1e+21".
Proof. vm_compute. reflexivity. Qed.

Example to_string_exponent_digits :
  Js.to_string (Js.Num (- 123456789012345678901234567890)) = "-1.2345678901234568e+29".
Proof. vm_compute. reflexivity. Qed.

(** A control character is written as a [\u] escape and read back. *)
Example control_character_round_trip :
  Json.parse (Json.stringify (Json.JStr (String "001" "a")))
    = Some (Json.JStr (String "001" "a")).
Proof. vm_compute. reflexivity. Qed.

(** ** The controller's monad *)

Section ControllerFacts.

Import Controller.
Local Open Scope ctl_scope.

Variable JSON_stringify : list DocumentSource.t → string.

Local Abbreviation sources_event := (Controller.sources_event JSON_stringify).
Local Abbreviation start := (Controller.start JSON_stringify).

Lemma with_enqueued_nil s : with_enqueued s [] = s.
Proof. destruct s. unfold with_enqueued. simpl. by rewrite app_nil_r. Qed.

Lemma with_enqueued_app s xs ys :
  with_enqueued (with_enqueued s xs) ys = with_enqueued s (xs ++ ys).
Proof. unfold with_enqueued. simpl. by rewrite app_assoc. Qed.

Lemma sendChunk_open s c :
  closed s = false → sendChunk c s = (with_enqueued s [c], Returned ()).
Proof. intros H. unfold sendChunk, with_enqueued. by rewrite H. Qed.

Lemma increments_cons_skip d ds :
  (d = None ∨ d = Some "") → increments (d :: ds) = increments ds.
Proof. intros [-> | ->]; reflexivity. Qed.

Lemma increments_cons_keep c ds :
  Js.is_empty c = false → increments (Some c :: ds) = c :: increments ds.
Proof. intros H. unfold increments. simpl. by rewrite H. Qed.

Lemma append_nil_r (a : string) : a +:+ "" = a.
Proof.
  induction a as [| c a IH]; [done |].
  change (String c (a +:+ "") = String c a). by rewrite IH.
Qed.

Lemma append_nil_r_empty (a : string) : "" +:+ a = a.
Proof. done. Qed.

Lemma append_assoc (a b c : string) : (a +:+ b) +:+ c = a +:+ (b +:+ c).
Proof.
  induction a as [| x a IH]; [done |].
  change (String x ((a +:+ b) +:+ c) = String x (a +:+ (b +:+ c))). by rewrite IH.
Qed.

Lemma concat_cons (c : string) (cs : list string) :
  String.concat "" (c :: cs) = c +:+ String.concat "" cs.
Proof. destruct cs; [symmetry; apply append_nil_r | done]. Qed.

(** The streaming loop emits one [text] event per non-empty increment, in
    order, and returns the accumulator extended by their concatenation,
    unless the model's iterator rejects. *)
Lemma for_await_spec deltas rejects acc s :
  closed s = false →
  for_await deltas rejects acc s =
    (with_enqueued s (text_event <$> increments deltas),
     if rejects then Thrown
     else Returned (acc +:+ String.concat "" (increments deltas))).
Proof.
  revert acc s. induction deltas as [| d ds IH]; intros acc s Hopen.
  - cbn [for_await increments omap List.filter fmap list_fmap list_omap].
    rewrite with_enqueued_nil.
    destruct rejects; unfold throw, ret; [done |].
    by rewrite append_nil_r.
  - destruct d as [c |]; cbn [for_await].
    + destruct (Js.is_empty c) eqn:Hc.
      * rewrite IH by done.
        destruct c; [| done]. by rewrite increments_cons_skip by auto.
      * unfold bind. rewrite sendChunk_open by done.
        rewrite IH by done. rewrite with_enqueued_app.
        rewrite increments_cons_keep by done.
        rewrite concat_cons, append_assoc. done.
    + rewrite IH by done. by rewrite increments_cons_skip by auto.
Qed.

(** ** Event order of a stream (C1) *)

(** The final state of a stream whose retrieval and model call both
    went through. *)
Lemma start_delivered w projectId pm message sessionId style d sources completion :
  delivered w projectId pm message style = Some (sources, completion) →
  let texts := increments (deltas completion) in
  let data := persisted_turns projectId sessionId message (String.concat "" texts) in
  start w projectId pm message sessionId style (open_stream d) =
    if rejects completion then
      ({| enqueued := sources_event sources :: (text_event <$> texts) ++
                      [error_event "An error occurred while processing your message"];
          closed := true; db := d;
          console := ["Error in chat stream:"] |}, Returned ())
    else
      ({| enqueued := sources_event sources :: (text_event <$> texts) ++ [done_event];
          closed := true;
          db := {| projects := projects d; messages := after_write w d data |};
          console := if write_failed w d data
                     then ["Failed to save messages to database:"] else [] |},
       Returned ()).
Proof.
  unfold delivered, configured. intros H.
  destruct (Js.env_missing (OPENAI_API_KEY (env w))) eqn:H1; [done |].
  destruct (Js.env_missing (PINECONE_API_KEY (env w))) eqn:H2; [done |].
  destruct (Js.env_missing (PINECONE_INDEX_NAME (env w))) eqn:H3; [done |].
  simpl in H.
  destruct (similaritySearchWithScore w _ _ _) as [scored |] eqn:Hs; [| done].
  simpl in H.
  destruct (chat_completions_create w _) as [c |] eqn:Hc; [| done].
  simpl in H. injection H as <- <-.
  unfold start, stream_body, try_catch, bind.
  rewrite H1, H2, H3, Hs. cbn [orb ret].
  unfold sendChunk at 1. cbn [closed open_stream enqueued app db console].
  rewrite Hc. cbn [ret].
  rewrite for_await_spec by done.
  destruct (rejects c).
  - reflexivity.
  - unfold createMany, after_write, write_failed, sendDone, bind, sendChunk, close,
      console_error, with_enqueued.
    cbn [closed enqueued db console messages projects].
    rewrite append_nil_r_empty.
    set (data := persisted_turns _ _ _ _).
    destruct (dbReachable w); cbn [negb orb];
      [ destruct (insertRows (now w) data (messages d)) eqn:Hi | ];
      cbn [default]; rewrite ?bool_decide_eq_true_2, ?bool_decide_eq_false_2 by done;
      cbn [closed enqueued db console];
      repeat f_equal; by destruct d.
Qed.

(** The final state of a stream that stops before the model delivers:
    a configuration error, a failed retrieval or a rejected model call. *)
Lemma start_not_delivered w projectId pm message sessionId style d :
  delivered w projectId pm message style = None →
  ∃ pre text log,
    start w projectId pm message sessionId style (open_stream d) =
      ({| enqueued := pre ++ [error_event text]; closed := true; db := d;
          console := log |}, Returned ())
    ∧ (pre = [] ∨ ∃ sources, pre = [sources_event sources]).
Proof.
  unfold delivered, configured, start, stream_body, try_catch, bind. intros H.
  destruct (Js.env_missing (OPENAI_API_KEY (env w))) eqn:H1.
  { exists [], "OpenAI API key not configured", []. split; [| by left].
    by destruct d. }
  destruct (Js.env_missing (PINECONE_API_KEY (env w))) eqn:H2.
  { exists [], "Pinecone environment variables not configured", [].
    split; [| by left]. by destruct d. }
  destruct (Js.env_missing (PINECONE_INDEX_NAME (env w))) eqn:H3.
  { exists [], "Pinecone environment variables not configured", [].
    split; [| by left]. by destruct d. }
  simpl in H. cbn [orb].
  destruct (similaritySearchWithScore w _ _ _) as [scored |] eqn:Hs.
  - simpl in H.
    destruct (chat_completions_create w _) as [c |] eqn:Hc; [done |].
    exists [sources_event (toSources (filterScored SIM_THRESHOLD scored))],
      generic_error, ["Error in chat stream:"].
    split; [| right; eauto].
    cbn [ret]. unfold sendChunk at 1.
    cbn [closed open_stream enqueued app db console]. rewrite Hc.
    by destruct d.
  - exists [], generic_error, ["Error in chat stream:"]. split; [| by left].
    by destruct d.
Qed.

Lemma text_payloads_texts (texts : list string) (tail : list StreamChunk.t) :
  text_payloads ((text_event <$> texts) ++ tail) = texts ++ text_payloads tail.
Proof.
  unfold text_payloads.
  induction texts as [| t ts IH]; [done |]. simpl. f_equal. exact IH.
Qed.

Lemma text_events_not_terminal (texts : list string) :
  Forall (λ e, is_terminal e = false) (text_event <$> texts).
Proof. induction texts; constructor; done. Qed.

Lemma user_assistant_ids_differ (prefix : string) :
  prefix +:+ "-user" ≠ prefix +:+ "-assistant".
Proof. intros H. by apply String.app_inj in H. Qed.

(** Writing the two turns either changes nothing or adds exactly the two
    rows under their identifiers. *)
Lemma after_write_turns w d projectId sessionId message fullResponse :
  let data := persisted_turns projectId sessionId message fullResponse in
  let user_id := Js.to_string sessionId +:+ "-user" in
  let assistant_id := Js.to_string sessionId +:+ "-assistant" in
  (write_failed w d data = true ∧ after_write w d data = messages d)
  ∨ (write_failed w d data = false
     ∧ messages d !! user_id = None ∧ messages d !! assistant_id = None
     ∧ after_write w d data =
         <[assistant_id := row_of (now w)
             {| id := assistant_id; projectId := projectId;
                create_content := fullResponse; create_role := assistant |}]>
         (<[user_id := row_of (now w)
             {| id := user_id; projectId := projectId;
                create_content := message; create_role := user |}]>
          (messages d))).
Proof.
  intros data user_id assistant_id.
  unfold after_write, write_failed. destruct (dbReachable w); [| by left].
  subst data. unfold persisted_turns. cbn [insertRows id negb orb].
  fold user_id assistant_id.
  destruct (messages d !! user_id) eqn:Hu; [by left |].
  rewrite lookup_insert_ne by apply user_assistant_ids_differ.
  destruct (messages d !! assistant_id) eqn:Ha; [by left |].
  right. by rewrite bool_decide_eq_false_2.
Qed.

(** C1. Every stream ends with exactly one terminal event, which is its
    last event.  When retrieval and the model call go through and the
    model completes, the events are one [sources] event, one [text] event
    per non-empty increment in generation order, and one [done] event;
    when the write succeeds the assistant turn that is stored holds the
    concatenation of the [text] payloads, and when it fails the table is
    as it was; when the model fails midway the same prefix ends with
    one [error] event and nothing is written; a stream that fails earlier
    consists of an optional [sources] event and one [error] event. *)
Theorem stream_event_order w projectId pm message sessionId style d :
  let final := (start w projectId pm message sessionId style (open_stream d)).1 in
  let assistant_id := Js.to_string sessionId +:+ "-assistant" in
  closed final = true ∧
  (∃ body last,
     enqueued final = body ++ [last] ∧
     Forall (λ e, is_terminal e = false) body ∧ is_terminal last = true) ∧
  match delivered w projectId pm message style with
  | Some (sources, completion) =>
      let texts := increments (deltas completion) in
      if rejects completion then
        enqueued final =
          sources_event sources :: (text_event <$> texts) ++ [error_event generic_error]
        ∧ messages (db final) = messages d
      else
        enqueued final = sources_event sources :: (text_event <$> texts) ++ [done_event]
        ∧ text_payloads (enqueued final) = texts
        ∧ (if write_failed w d
                (persisted_turns projectId sessionId message (String.concat "" texts))
           then messages (db final) = messages d
           else MessageRow.content <$> messages (db final) !! assistant_id =
                  Some (String.concat "" (text_payloads (enqueued final))))
  | None =>
      ∃ text, enqueued final = [error_event text]
              ∨ ∃ sources, enqueued final = [sources_event sources; error_event text]
  end.
Proof.
  intros final assistant_id. subst final.
  destruct (delivered w projectId pm message style) as [[sources completion] |] eqn:Hd.
  - rewrite (start_delivered _ _ _ _ sessionId _ d _ _ Hd).
    set (texts := increments (deltas completion)).
    assert (Hbody : Forall (λ e, is_terminal e = false)
                      (sources_event sources :: (text_event <$> texts))).
    { constructor; [done | apply text_events_not_terminal]. }
    destruct (rejects completion); cbn [fst closed enqueued db messages].
    + split; [done |]. split; [| done].
      by exists (sources_event sources :: (text_event <$> texts)), (error_event generic_error).
    + split; [done |]. split.
      { by exists (sources_event sources :: (text_event <$> texts)), done_event. }
      split; [done |].
      assert (Hp : text_payloads (sources_event sources :: (text_event <$> texts) ++ [done_event])
                   = texts).
      { change (text_payloads ((text_event <$> texts) ++ [done_event]) = texts).
        rewrite text_payloads_texts. apply app_nil_r. }
      split; [exact Hp |]. rewrite Hp.
      destruct (after_write_turns w d projectId sessionId message (String.concat "" texts))
        as [[-> ->] | (-> & _ & _ & ->)]; [done |].
      by rewrite lookup_insert_eq.
  - destruct (start_not_delivered _ _ _ _ sessionId _ d Hd) as (pre & text & log & -> & Hpre).
    cbn [fst closed enqueued]. split; [done |]. split.
    + exists pre, (error_event text). split; [done |]. split; [| done].
      destruct Hpre as [-> | [sources ->]]; repeat constructor.
    + exists text. destruct Hpre as [-> | [sources ->]]; [by left | right; by exists sources].
Qed.

Lemma number_to_string_safe (n : Z) :
  0 ≤ n < 2 ^ 53 → Js.to_string (Js.Num n) = pretty n.
Proof.
  intros [Hlo Hhi]. cbn [Js.to_string].
  unfold Js.number_to_string, Js.positive_to_string, Js.nearest_double.
  destruct (Z.ltb_spec n 0) as [? | _]; [lia |].
  destruct (Z.ltb_spec n (2 ^ 53)) as [_ | ?]; [| lia].
  destruct (Z.ltb_spec n (2 ^ 53)) as [_ | ?]; [done | lia].
Qed.

(** ** Persistence at completion (C7, C4) *)

(** C7. When retrieval and the model call go through and the model
    completes, the handler returns normally, the stream ends with [done]
    and holds no [error] event, whether or not the write succeeds.  A
    successful write adds exactly two rows, keyed [sessionId + '-user'] and
    [sessionId + '-assistant'], holding the message and the full response;
    a failed write leaves the table as it was and only logs.  The keys
    are the session identifier as JavaScript prints it followed by the
    suffix: the string itself, [undefined] for a missing one, the digits
    of a safe integer. *)
Theorem persist_two_turns_best_effort
    w projectId pm message sessionId style d sources completion :
  delivered w projectId pm message style = Some (sources, completion) →
  rejects completion = false →
  let run := start w projectId pm message sessionId style (open_stream d) in
  let fullResponse := String.concat "" (increments (deltas completion)) in
  let data := persisted_turns projectId sessionId message fullResponse in
  let user_id := Js.to_string sessionId +:+ "-user" in
  let assistant_id := Js.to_string sessionId +:+ "-assistant" in
  (∀ s, sessionId = Js.Str s →
        user_id = s +:+ "-user" ∧ assistant_id = s +:+ "-assistant") ∧
  (sessionId = Js.Undefined →
   user_id = "undefined-user" ∧ assistant_id = "undefined-assistant") ∧
  (∀ n, sessionId = Js.Num n → 0 ≤ n < 2 ^ 53 →
        user_id = pretty n +:+ "-user" ∧ assistant_id = pretty n +:+ "-assistant") ∧
  run.2 = Returned () ∧
  last (enqueued run.1) = Some done_event ∧
  Forall (λ e, StreamChunk.type e ≠ StreamChunk.error) (enqueued run.1) ∧
  if write_failed w d data then
    messages (db run.1) = messages d ∧
    console run.1 = ["Failed to save messages to database:"]
  else
    messages d !! user_id = None ∧ messages d !! assistant_id = None ∧
    messages (db run.1) =
      <[assistant_id := {| MessageRow.projectId := projectId;
                           MessageRow.content := fullResponse;
                           MessageRow.role := assistant;
                           MessageRow.isDeleted := false;
                           MessageRow.deletedAt := None;
                           MessageRow.editHistory := None;
                           MessageRow.lastEditedAt := None;
                           MessageRow.metadata := None;
                           MessageRow.createdAt := now w;
                           MessageRow.updatedAt := now w |}]>
      (<[user_id := {| MessageRow.projectId := projectId;
                       MessageRow.content := message;
                       MessageRow.role := user;
                       MessageRow.isDeleted := false;
                       MessageRow.deletedAt := None;
                       MessageRow.editHistory := None;
                       MessageRow.lastEditedAt := None;
                       MessageRow.metadata := None;
                       MessageRow.createdAt := now w;
                       MessageRow.updatedAt := now w |}]> (messages d)) ∧
    size (messages (db run.1)) = (size (messages d) + 2)%nat ∧
    console run.1 = [].
Proof.
  intros Hd Hrej run fullResponse data user_id assistant_id. subst run.
  rewrite (start_delivered _ _ _ _ sessionId _ d _ _ Hd), Hrej.
  cbn [fst snd enqueued db messages console].
  split; [by intros s -> |]. split; [by intros -> |].
  split; [intros n -> Hn; subst user_id assistant_id;
          by rewrite (number_to_string_safe n Hn) |].
  split; [done |]. split.
  { rewrite app_comm_cons. apply last_snoc. }
  split.
  { constructor; [done |]. apply Forall_app. split; [| by repeat constructor].
    apply Forall_fmap, Forall_true. done. }
  fold fullResponse. fold data.
  destruct (after_write_turns w d projectId sessionId message fullResponse)
    as [[Hf Hw] | (Hf & Hu & Ha & Hw)]; fold data in Hf, Hw; rewrite Hf, Hw.
  - done.
  - fold user_id assistant_id in Hu, Ha |- *.
    split; [done |]. split; [done |]. split; [done |]. split; [| done].
    rewrite map_size_insert_None.
    + rewrite map_size_insert_None by done. lia.
    + rewrite lookup_insert_ne by apply user_assistant_ids_differ. done.
Qed.

(** ** The relevance filter (C2) *)

Lemma filterScored_sublist threshold scored :
  filterScored threshold scored `sublist_of` scored.
Proof.
  unfold filterScored. induction scored as [| e l IH]; simpl; [constructor |].
  destruct (PrimFloat.leb threshold e.2); by constructor.
Qed.

Lemma filterScored_app threshold l1 l2 :
  filterScored threshold (l1 ++ l2) =
  filterScored threshold l1 ++ filterScored threshold l2.
Proof. apply List.filter_app. Qed.

Lemma elem_of_filterScored threshold scored e :
  e ∈ filterScored threshold scored ↔
  e ∈ scored ∧ PrimFloat.leb threshold e.2 = true.
Proof. unfold filterScored. rewrite !list_elem_of_In. apply List.filter_In. Qed.

(** As soon as retrieval has returned, the first event of the stream is
    the [sources] event for the filtered candidates. *)
Lemma sources_event_first w projectId pm message sessionId style d scored :
  configured w = true →
  similaritySearchWithScore w ("project-" +:+ projectId) message 4 = Some scored →
  ∃ rest,
    enqueued (start w projectId pm message sessionId style (open_stream d)).1 =
      sources_event (toSources (filterScored SIM_THRESHOLD scored)) :: rest.
Proof.
  intros Hc Hs.
  destruct (delivered w projectId pm message style) as [[sources completion] |] eqn:Hd.
  - pose proof Hd as Hd'. unfold delivered in Hd'. rewrite Hc, Hs in Hd'. simpl in Hd'.
    destruct (chat_completions_create w _); [| done]. injection Hd' as <- <-.
    rewrite (start_delivered _ _ _ _ sessionId _ d _ _ Hd).
    destruct (rejects _); eauto.
  - pose proof Hd as Hd'. unfold delivered in Hd'. rewrite Hc, Hs in Hd'. simpl in Hd'.
    destruct (chat_completions_create w _) eqn:Hcc; [done |].
    unfold configured in Hc. apply andb_true_iff in Hc as [Hc H3].
    apply andb_true_iff in Hc as [H1 H2]. apply negb_true_iff in H1, H2, H3.
    unfold Controller.start, stream_body, try_catch, bind.
    rewrite H1, H2, H3, Hs. cbn [orb ret]. unfold sendChunk at 1.
    cbn [closed open_stream enqueued app db console]. rewrite Hcc. eauto.
Qed.

(** C2. The filter returns the entries whose score is at least the
    threshold, each as often as it occurs and in the input order: the
    result is a subsequence of the input, it holds exactly the qualifying
    entries, and filtering distributes over concatenation.  With the
    threshold [0.75] and candidates scoring [0.91] and [0.60], only the
    first is kept and the [sources] event carries the one-element array. *)
Theorem relevance_filter_exact :
  (∀ threshold scored,
     filterScored threshold scored `sublist_of` scored ∧
     (∀ e, e ∈ filterScored threshold scored ↔
           e ∈ scored ∧ PrimFloat.leb threshold e.2 = true) ∧
     (∀ before e after, scored = before ++ e :: after →
        filterScored threshold scored =
          filterScored threshold before ++
          (if PrimFloat.leb threshold e.2 then [e] else []) ++
          filterScored threshold after)) ∧
  (∀ passage1 passage2 : Document.t,
     let scored := [(passage1, 0.91%float); (passage2, 0.60%float)] in
     filterScored 0.75%float scored = [(passage1, 0.91%float)] ∧
     toSources (filterScored SIM_THRESHOLD scored) =
       [ {| DocumentSource.id := "src-0";
            DocumentSource.name := source_name passage1;
            DocumentSource.pageContent := Document.pageContent passage1;
            DocumentSource.metadata := Document.metadata passage1 |} ] ∧
     ∀ w projectId pm message sessionId style d,
       configured w = true →
       similaritySearchWithScore w ("project-" +:+ projectId) message 4 = Some scored →
       ∃ rest,
         enqueued (start w projectId pm message sessionId style (open_stream d)).1 =
           sources_event
             [ {| DocumentSource.id := "src-0";
                  DocumentSource.name := source_name passage1;
                  DocumentSource.pageContent := Document.pageContent passage1;
                  DocumentSource.metadata := Document.metadata passage1 |} ] :: rest).
Proof.
  split.
  - intros threshold scored. split; [apply filterScored_sublist |].
    split; [intros e; apply elem_of_filterScored |].
    intros before e after ->. rewrite filterScored_app. f_equal.
    change (e :: after) with ([e] ++ after). rewrite filterScored_app. f_equal.
  - intros passage1 passage2 scored.
    assert (Hf : filterScored 0.75%float scored = [(passage1, 0.91%float)]) by reflexivity.
    split; [exact Hf |]. split; [reflexivity |].
    intros w projectId pm message sessionId style d Hc Hs.
    destruct (sources_event_first w projectId pm message sessionId style d scored Hc Hs)
      as [rest Hrest].
    exists rest. exact Hrest.
Qed.

(** ** Prompt composition (C3) *)

Lemma foldl_push_history (recent : list (string * MessageRow.t)) (acc : list ChatMessage) :
  foldl (λ acc m, push acc {| role := MessageRow.role m.2;
                              content := MessageRow.content m.2 |}) acc recent
  = acc ++ (as_chat_message <$> recent).
Proof.
  revert acc. induction recent as [| m ms IH]; intros acc; simpl.
  - by rewrite app_nil_r.
  - rewrite IH. unfold push. by rewrite <- app_assoc.
Qed.

Lemma messagesForLLM_layout style sources recent message :
  messagesForLLM style sources recent message =
    [ {| role := system; content := baseSystem style |} ] ++
    (match sources with
     | [] => []
     | _ :: _ => [ {| role := system;
                     content := "Context:" +:+ Js.nl +:+ contextText sources |} ]
     end) ++
    (as_chat_message <$> recent) ++
    [ {| role := user; content := message |} ].
Proof.
  unfold messagesForLLM. destruct sources as [| s0 sources].
  - rewrite bool_decide_eq_false_2 by (simpl; lia).
    rewrite foldl_push_history. unfold push. by rewrite <- app_assoc.
  - rewrite bool_decide_eq_true_2 by (simpl; lia).
    rewrite foldl_push_history. unfold push. by rewrite <- !app_assoc.
Qed.

Lemma prefix_append (p rest : string) : String.prefix p (p +:+ rest) = true.
Proof.
  induction p as [| c p IH]; [by destruct rest |].
  change (String.prefix (String c p) (String c (p +:+ rest)) = true).
  simpl. destruct (ascii_dec c c); [exact IH | done].
Qed.

Lemma includes_append (before p after : string) :
  Js.includes p (before +:+ (p +:+ after)) = true.
Proof.
  induction before as [| c before IH].
  - change ("" +:+ (p +:+ after)) with (p +:+ after).
    pose proof (prefix_append p after) as H.
    destruct (p +:+ after); cbn [Js.includes]; by rewrite H.
  - change (String c before +:+ (p +:+ after)) with (String c (before +:+ (p +:+ after))).
    cbn [Js.includes]. rewrite IH. apply orb_true_r.
Qed.

Lemma concat_snoc (sep : string) (xs : list string) (x0 x : string) :
  String.concat sep ((x0 :: xs) ++ [x]) = String.concat sep (x0 :: xs) +:+ sep +:+ x.
Proof.
  revert x0. induction xs as [| x1 xs IH]; intros x0; [done |].
  change (x0 +:+ sep +:+ String.concat sep ((x1 :: xs) ++ [x])
          = (x0 +:+ sep +:+ String.concat sep (x1 :: xs)) +:+ sep +:+ x).
  rewrite IH. by rewrite !append_assoc.
Qed.

Lemma contextText_snoc (s0 : DocumentSource.t) (sources : list DocumentSource.t)
    (s : DocumentSource.t) :
  contextText ((s0 :: sources) ++ [s]) =
    contextText (s0 :: sources) +:+ context_separator +:+
    "[" +:+ pretty (length (s0 :: sources) + 1)%nat +:+ "] " +:+ DocumentSource.pageContent s.
Proof.
  unfold contextText, Js.join. rewrite imap_app.
  cbn [imap app]. rewrite Nat.add_0_r.
  apply concat_snoc.
Qed.

(** *** The history window *)

Section History.

Variables (d : Db) (projectId : string).

Let rows : list (string * MessageRow.t) :=
  map_to_list (filter (λ kv, MessageRow.projectId kv.2 = projectId) (messages d)).

Let sorted : list (string * MessageRow.t) := merge_sort newer_first rows.

Let recent : list (string * MessageRow.t) :=
  recentMessages (include_messages d projectId).

Lemma recent_unfold : recent = reverse (take 6 sorted).
Proof.
  unfold recent, recentMessages, include_messages. fold rows. fold sorted.
  by rewrite take_take.
Qed.

Lemma elem_of_rows k row :
  (k, row) ∈ rows ↔ messages d !! k = Some row ∧ MessageRow.projectId row = projectId.
Proof. unfold rows. by rewrite elem_of_map_to_list, map_lookup_filter_Some. Qed.

Lemma elem_of_sorted m : m ∈ sorted ↔ m ∈ rows.
Proof. unfold sorted. by rewrite merge_sort_Permutation. Qed.

Lemma recent_length : length recent = min 6 (length rows).
Proof.
  rewrite recent_unfold, length_reverse, length_take.
  unfold sorted. by rewrite merge_sort_Permutation.
Qed.

Lemma recent_from_project m :
  m ∈ recent → messages d !! m.1 = Some m.2 ∧ MessageRow.projectId m.2 = projectId.
Proof.
  rewrite recent_unfold, elem_of_reverse. intros Hm.
  apply elem_of_rows. destruct m as [k row]. apply elem_of_sorted.
  eapply sublist_subseteq; [apply sublist_take | exact Hm].
Qed.

Lemma recent_chronological :
  StronglySorted (λ a b, MessageRow.createdAt a.2 ≤ MessageRow.createdAt b.2) recent.
Proof.
  rewrite recent_unfold.
  change (StronglySorted (flip newer_first) (reverse (take 6 sorted))).
  assert (Transitive (flip newer_first)).
  { intros a b c. unfold flip, newer_first. lia. }
  apply Sorted_StronglySorted; [done |].
  apply Sorted_reverse, StronglySorted_Sorted.
  apply (StronglySorted_app_1_l _ _ (drop 6 sorted)).
  rewrite take_drop. apply StronglySorted_merge_sort; apply _.
Qed.

Lemma recent_most_recent k row m :
  messages d !! k = Some row → MessageRow.projectId row = projectId →
  (k, row) ∉ recent → m ∈ recent →
  MessageRow.createdAt row ≤ MessageRow.createdAt m.2.
Proof.
  rewrite recent_unfold, !elem_of_reverse. intros Hk Hp Hnot Hm.
  assert (Hin : (k, row) ∈ take 6 sorted ++ drop 6 sorted).
  { rewrite take_drop. by apply elem_of_sorted, elem_of_rows. }
  apply elem_of_app in Hin as [Hin | Hin]; [done |].
  apply (StronglySorted_app_1_elem_of newer_first (take 6 sorted) (drop 6 sorted) m (k, row));
    [| done | done].
  rewrite take_drop. apply StronglySorted_merge_sort; apply _.
Qed.

End History.

Lemma findFirst_messages d projectId userId pm :
  findFirst d projectId userId = Some pm →
  projects d !! projectId = Some userId ∧ pm = include_messages d projectId.
Proof.
  unfold findFirst. destruct (projects d !! projectId) as [owner |]; [| done].
  destruct (decide (owner = userId)) as [-> |]; [| done]. by intros [= <-].
Qed.


(** ** Soft-deleted turns in the history (C5) *)

(** A turn of the project that fewer than six other turns of the project
    are at least as new as is in the history. *)
Lemma recent_complete d projectId k row :
  messages d !! k = Some row → MessageRow.projectId row = projectId →
  (size (filter (λ kv, MessageRow.projectId kv.2 = projectId ∧ kv.1 ≠ k ∧
                       (MessageRow.createdAt row ≤ MessageRow.createdAt kv.2)%Z)
                (messages d)) < 6)%nat →
  (k, row) ∈ recentMessages (include_messages d projectId).
Proof.
  intros Hk Hp Hsize. rewrite recent_unfold, elem_of_reverse.
  set (sorted := merge_sort newer_first _).
  assert (Hin : (k, row) ∈ take 6 sorted ++ drop 6 sorted).
  { rewrite take_drop. by apply elem_of_sorted, elem_of_rows. }
  apply elem_of_app in Hin as [Hin | Hin]; [done | exfalso].
  assert (Hnodup : NoDup (take 6 sorted ++ drop 6 sorted)).
  { rewrite take_drop. unfold sorted. rewrite merge_sort_Permutation.
    apply NoDup_map_to_list. }
  apply NoDup_app in Hnodup as (Hnd & Hdisj & _).
  assert (Hsorted : StronglySorted newer_first (take 6 sorted ++ drop 6 sorted)).
  { rewrite take_drop. apply StronglySorted_merge_sort; apply _. }
  assert (Hlen : length (take 6 sorted) = 6%nat).
  { rewrite length_take. apply list_elem_of_lookup in Hin as [i Hi].
    apply lookup_lt_Some in Hi. rewrite length_drop in Hi. lia. }
  set (others := map_to_list
    (filter (λ kv : string * MessageRow.t,
               MessageRow.projectId kv.2 = projectId ∧ kv.1 ≠ k ∧
               MessageRow.createdAt row ≤ MessageRow.createdAt kv.2) (messages d))).
  assert (Hsub : take 6 sorted ⊆+ others).
  { apply NoDup_submseteq; [done |]. intros [k' row'] Hm.
    assert (Hrow : messages d !! k' = Some row' ∧ MessageRow.projectId row' = projectId).
    { apply elem_of_rows, elem_of_sorted.
      eapply sublist_subseteq; [apply sublist_take | exact Hm]. }
    destruct Hrow as [Hk' Hp'].
    apply elem_of_map_to_list, map_lookup_filter_Some. split; [done |].
    split; [done |]. split.
    - simpl. intros ->. rewrite Hk in Hk'. injection Hk' as <-.
      by apply (Hdisj (k, row)).
    - apply (StronglySorted_app_1_elem_of _ _ _ (k', row') (k, row) Hsorted); done. }
  apply submseteq_length in Hsub. unfold others in Hsub.
  rewrite length_map_to_list in Hsub. lia.
Qed.

(** C5, as the code has it.  The history query does not look at the
    soft-delete marker: any turn of the project that fewer than six other
    turns of the project are at least as new as (in particular every turn
    of a project with at most six turns) is in the history and is handed
    to the model with its role and content, soft-deleted or not. *)
Theorem history_ignores_soft_delete d projectId k row :
  messages d !! k = Some row → MessageRow.projectId row = projectId →
  (size (filter (λ kv, MessageRow.projectId kv.2 = projectId ∧ kv.1 ≠ k ∧
                       (MessageRow.createdAt row ≤ MessageRow.createdAt kv.2)%Z)
                (messages d)) < 6)%nat →
  (k, row) ∈ recentMessages (include_messages d projectId) ∧
  ∀ style sources message,
    {| role := MessageRow.role row; content := MessageRow.content row |}
      ∈ messagesForLLM style sources
          (recentMessages (include_messages d projectId)) message.
Proof.
  intros Hk Hp Hsize.
  pose proof (recent_complete d projectId k row Hk Hp Hsize) as Hin.
  split; [exact Hin |]. intros style sources message.
  rewrite messagesForLLM_layout. rewrite !elem_of_app. right. right. left.
  apply (list_elem_of_fmap_2 as_chat_message) in Hin. exact Hin.
Qed.

(** ** Validation of the message (C6) *)

Local Abbreviation POST := (Controller.POST JSON_stringify).

Lemma no_message_check body :
  no_message body ↔
  negb (Js.truthy (message body)) || negb (Js.is_string (message body)) = true.
Proof.
  unfold no_message. destruct (message body) as [| | b | n | s]; simpl;
    try (split; [intros _; by rewrite ?orb_true_r | intros _ ? [=]]).
  destruct s; simpl; split; try done.
  - intros _ ? [= <-]. done.
  - intros H. by specialize (H _ eq_refl).
Qed.

(** C6, as the code has it.  A request whose message is missing, not a
    string or the empty string never opens the event stream, and once
    authentication and the ownership check have passed it is answered
    with status 400.  Any non-empty string, white space included, passes
    the check and opens the stream. *)
Theorem empty_message_rejected w d projectId body :
  requestBody w = Some body →
  (no_message body →
     (∀ final outcome, POST w d projectId ≠ EventStream final outcome) ∧
     (∀ userId pm,
        sessionUserId w = Some userId → userId ≠ "" →
        findFirst d projectId userId = Some pm →
        POST w d projectId = Plain 400 "Message is required")) ∧
  (∀ s userId pm,
     message body = Js.Str s → s ≠ "" →
     sessionUserId w = Some userId → userId ≠ "" →
     findFirst d projectId userId = Some pm →
     ∃ final outcome, POST w d projectId = EventStream final outcome).
Proof.
  intros Hbody. split.
  - intros Hno. apply no_message_check in Hno. split.
    + intros final outcome. unfold Controller.POST. rewrite Hbody, Hno.
      destruct (sessionUserId w) as [userId |]; [| done].
      destruct (Js.is_empty userId); [done |].
      by destruct (findFirst d projectId userId).
    + intros userId pm Hu Hne Hf. unfold Controller.POST.
      rewrite Hu, Hf, Hbody, Hno. by destruct userId.
  - intros s userId pm Hm Hs Hu Hne Hf. unfold Controller.POST.
    rewrite Hu, Hf, Hbody, Hm.
    assert (Js.is_empty userId = false) as -> by by destruct userId.
    assert (negb (Js.truthy (Js.Str s)) || negb (Js.is_string (Js.Str s)) = false) as ->
      by by destruct s.
    destruct (Controller.start _ _ _ _ _ _ _ _) as [final outcome]. eauto.
Qed.

(** ** Metadata of the stored turns (C4) *)

(** A row that a stream adds to the table is one of the two turns and
    has no metadata. *)
Lemma new_rows_without_metadata w projectId pm message sessionId style d k row :
  messages (db (start w projectId pm message sessionId style (open_stream d)).1) !! k
    = Some row →
  messages d !! k = None →
  MessageRow.metadata row = None ∧
  (k = Js.to_string sessionId +:+ "-user" ∨ k = Js.to_string sessionId +:+ "-assistant").
Proof.
  destruct (delivered w projectId pm message style) as [[sources completion] |] eqn:Hd.
  - rewrite (start_delivered _ _ _ _ sessionId _ d _ _ Hd).
    destruct (rejects completion); cbn [fst db messages]; [congruence |].
    destruct (after_write_turns w d projectId sessionId message
                (String.concat "" (increments (deltas completion))))
      as [[_ ->] | (_ & _ & _ & ->)]; [congruence |].
    intros Hrow Hnew.
    apply lookup_insert_Some in Hrow as [[<- <-] | [_ Hrow]]; [by auto |].
    apply lookup_insert_Some in Hrow as [[<- <-] | [_ Hrow]]; [by auto | congruence].
  - destruct (start_not_delivered _ _ _ _ sessionId _ d Hd) as (pre & text & log & -> & _).
    cbn [fst db]. congruence.
Qed.

End ControllerFacts.

(** ** The controller on the demo request *)

Section ControllerExamples.

Import Controller.

Local Abbreviation start := (Controller.start Wire.stringify_sources).
Local Abbreviation POST := (Controller.POST Wire.stringify_sources).

(** In the demo database the soft-deleted turn [m2] is part of the
    history and its content is in the list handed to the model. *)
Lemma history_excludes_deleted_fails :
  ¬ history_excludes_deleted Demo.database "p1"
  ∧ {| role := user; content := "My card number is 1234" |}
      ∈ messagesForLLM "detailed" []
          (recentMessages (include_messages Demo.database "p1")) "Next question".
Proof.
  split.
  - unfold history_excludes_deleted.
    change (recentMessages (include_messages Demo.database "p1"))
      with [("m1", Demo.row "p1" "Hi" user false 100);
            ("m2", Demo.row "p1" "My card number is 1234" user true 200)].
    intros H. apply Forall_cons in H as [_ H]. apply Forall_cons in H as [H _]. done.
  - change (recentMessages (include_messages Demo.database "p1"))
      with [("m1", Demo.row "p1" "Hi" user false 100);
            ("m2", Demo.row "p1" "My card number is 1234" user true 200)].
    rewrite messagesForLLM_layout. simpl. set_solver.
Qed.

(** The soft-deleted turn [m2] of the demo database reaches the model. *)
Lemma history_ignores_soft_delete_witness :
  MessageRow.isDeleted (Demo.row "p1" "My card number is 1234" user true 200) = true ∧
  ("m2", Demo.row "p1" "My card number is 1234" user true 200)
    ∈ recentMessages (include_messages Demo.database "p1").
Proof.
  split; [reflexivity |].
  apply (history_ignores_soft_delete Demo.database "p1" "m2"
           (Demo.row "p1" "My card number is 1234" user true 200)).
  - reflexivity.
  - reflexivity.
  - vm_compute. lia.
Defined.

(** The demo request completes and its two turns are stored under
    [s1-user] and [s1-assistant]. *)
Lemma persist_two_turns_best_effort_witness :
  let run := start (Demo.world Demo.question) "p1"
               (include_messages Demo.database "p1")
               "What is the refund policy?" (Js.Str "s1") "detailed"
               (open_stream Demo.database) in
  last (enqueued run.1) = Some done_event ∧
  MessageRow.content <$> messages (db run.1) !! "s1-user"
    = Some "What is the refund policy?" ∧
  MessageRow.content <$> messages (db run.1) !! "s1-assistant" = Some "Hello" ∧
  size (messages (db run.1)) = 5%nat.
Proof.
  pose proof (persist_two_turns_best_effort Wire.stringify_sources (Demo.world Demo.question) "p1"
    (include_messages Demo.database "p1") "What is the refund policy?"
    (Js.Str "s1") "detailed" Demo.database
    [Demo.refund_source]
    {| deltas := [Some "Hel"; None; Some ""; Some "lo"]; rejects := false |}
    eq_refl eq_refl) as H.
  cbv zeta in H. destruct H as (Hkeys & _ & _ & _ & Hlast & _ & H).
  destruct (Hkeys "s1" eq_refl) as [Hu Ha].
  split; [exact Hlast |].
  change (write_failed _ _ _) with false in H.
  destruct H as (_ & _ & Hrows & Hsize & _).
  split; [| split; [| by rewrite Hsize]]; rewrite Hrows, Hu, Ha.
  - rewrite lookup_insert_ne by discriminate. by rewrite lookup_insert_eq.
  - by rewrite lookup_insert_eq.
Defined.

(** A message of three spaces passes the check: the stream opens and
    runs to its [done] event. *)
Lemma blank_message_opens_stream :
  ¬ blank_message_rejected Wire.stringify_sources
      (Demo.world (Js.Str "   ")) Demo.database "p1"
  ∧ ∃ final,
      POST (Demo.world (Js.Str "   "))
        Demo.database "p1" = EventStream final (Returned ())
      ∧ last (enqueued final) = Some done_event.
Proof.
  split.
  - intros H.
    destruct (H (Demo.request (Js.Str "   ")) "   " eq_refl eq_refl eq_refl) as [text Ht].
    vm_compute in Ht. discriminate Ht.
  - eexists. split; [vm_compute; reflexivity | reflexivity].
Qed.

(** The demo request with an empty message is refused, with a
    white-space message it is served. *)
Lemma empty_message_rejected_witness :
  POST (Demo.world (Js.Str "")) Demo.database "p1"
    = Plain 400 "Message is required".
Proof.
  destruct (empty_message_rejected Wire.stringify_sources (Demo.world (Js.Str ""))
              Demo.database "p1" (Demo.request (Js.Str "")) eq_refl) as [H _].
  assert (Hno : no_message (Demo.request (Js.Str ""))).
  { intros s [= <-]. reflexivity. }
  destruct (H Hno) as [_ H400].
  apply (H400 "u1" (include_messages Demo.database "p1")).
  - reflexivity.
  - discriminate.
  - reflexivity.
Defined.

(** On the demo request the write succeeds and one source passes the
    filter, and the stored assistant turn has no metadata. *)
Lemma assistant_metadata_missing :
  ∃ final,
    POST (Demo.world Demo.question) Demo.database "p1"
      = EventStream final (Returned ()) ∧
    toSources (filterScored SIM_THRESHOLD
      [(Demo.refund_passage, 0.91%float); (Demo.shipping_passage, 0.60%float)])
      = [Demo.refund_source] ∧
    MessageRow.metadata <$> messages (db final) !! "s1-assistant" = Some None ∧
    ¬ stores_sources_metadata final (Js.Str "s1") [Demo.refund_source].
Proof.
  eexists. split; [vm_compute; reflexivity |]. split; [reflexivity |].
  split; [reflexivity |].
  intros (row & md & Hrow & Hmd & _). vm_compute in Hrow.
  injection Hrow as <-. discriminate Hmd.
Qed.

(** A failed write is swallowed: the stream still ends with [done], the
    table is unchanged and the failure is only logged. *)
Example failed_write_is_swallowed :
  ∃ final,
    POST (Demo.world_offline Demo.question) Demo.database "p1"
      = EventStream final (Returned ()) ∧
    StreamChunk.type <$> enqueued final =
      [StreamChunk.sources; StreamChunk.text; StreamChunk.text; StreamChunk.done] ∧
    messages (db final) = messages Demo.database ∧
    console final = ["Failed to save messages to database:"].
Proof. eexists. split; [vm_compute; reflexivity | done]. Qed.

(** A write that meets an existing identifier fails as a whole. *)
Example reused_session_is_not_stored_twice :
  ∃ first second,
    POST (Demo.world Demo.question) Demo.database "p1"
      = EventStream first (Returned ()) ∧
    POST (Demo.world Demo.question) (db first) "p1"
      = EventStream second (Returned ()) ∧
    messages (db second) = messages (db first) ∧
    last (enqueued second) = Some done_event.
Proof. do 2 eexists. split; [vm_compute; reflexivity |]. by vm_compute. Qed.

(** A model that fails midway: what was produced is sent, then one
    [error] event, and nothing is written. *)
Example model_failure_midway :
  ∃ final,
    POST (Demo.world_model_fails Demo.question) Demo.database "p1"
      = EventStream final (Returned ()) ∧
    (λ e, (StreamChunk.type e, StreamChunk.content e)) <$> drop 1 (enqueued final) =
      [(StreamChunk.text, "Hel"); (StreamChunk.error, generic_error)] ∧
    messages (db final) = messages Demo.database.
Proof. eexists. split; [vm_compute; reflexivity | done]. Qed.

End ControllerExamples.


(** ** The consumer's read loop *)

Section ConsumerFacts.

Import Consumer.

Variable projectId : string.
Variable JSON_parse_chunk : string → option ParsedChunk.
Variable JSON_parse_sources : string → option (list DocumentSource.t).

Local Abbreviation dispatch := (Consumer.dispatch JSON_parse_sources).
Local Abbreviation process_line :=
  (Consumer.process_line JSON_parse_chunk JSON_parse_sources).
Local Abbreviation process_lines :=
  (Consumer.process_lines JSON_parse_chunk JSON_parse_sources).
Local Abbreviation read_loop :=
  (Consumer.read_loop JSON_parse_chunk JSON_parse_sources).
Local Abbreviation consume :=
  (Consumer.consume JSON_parse_chunk JSON_parse_sources).
Local Abbreviation sendMessage :=
  (Consumer.sendMessage projectId JSON_parse_chunk JSON_parse_sources).

Lemma dispatch_release w data r :
  readerReleased r = false → release_step r (dispatch w data r).
Proof.
  intros Hr. unfold Consumer.dispatch, release_step.
  destruct (type data) as [[] |]; simpl; try done.
  - by destruct (JSON_parse_sources (content data)).
  - unfold release_and_mark. simpl. by rewrite Hr.
  - unfold release_and_mark. simpl. by rewrite Hr.
Qed.

Lemma process_line_release w line r :
  readerReleased r = false → release_step r (process_line w line r).
Proof.
  intros Hr. unfold Consumer.process_line.
  destruct (Js.startsWith DATA_PREFIX line); [| done].
  destruct (Js.is_empty _); [done |].
  destruct (JSON_parse_chunk _); [by apply dispatch_release | done].
Qed.

Lemma process_lines_release w lines r :
  readerReleased r = false → release_step r (process_lines w lines r).
Proof.
  revert r. induction lines as [| line rest IH]; intros r Hr; [done |].
  cbn [Consumer.process_lines].
  pose proof (process_line_release w line r Hr) as Hstep.
  destruct (process_line w line r) as [r' [t |]]; [exact Hstep |].
  destruct Hstep as [Hr' Hcalls]. simpl in Hr', Hcalls.
  specialize (IH r' Hr'). unfold release_step in *.
  destruct (process_lines w rest r') as [r'' [t |]]; simpl in *; by rewrite <- Hcalls.
Qed.

Lemma read_loop_release w chunks ending r :
  readerReleased r = false →
  let out := read_loop w chunks ending r in
  match out.2 with
  | Returned t =>
      readerReleased out.1 = true ∧
      releaseLock_calls out.1 = releaseLock_calls r ++ [site_of_terminal t]
  | Exhausted | ReadThrew _ =>
      readerReleased out.1 = false ∧ releaseLock_calls out.1 = releaseLock_calls r
  end.
Proof.
  revert r. induction chunks as [| chunk rest IH]; intros r Hr.
  - simpl. by destruct ending.
  - cbn [Consumer.read_loop].
    pose proof (process_lines_release w (Js.split Js.LF chunk) r Hr) as Hstep.
    destruct (process_lines w (Js.split Js.LF chunk) r) as [r' [t |]]; [exact Hstep |].
    destruct Hstep as [Hr' Hcalls]. simpl in Hr', Hcalls.
    specialize (IH r' Hr'). simpl in IH |- *.
    destruct (read_loop w rest ending r') as [r'' []]; simpl in *; by rewrite <- Hcalls.
Qed.

Lemma consume_releases_once w reader r :
  readerReleased r = false →
  releaseLock_calls (consume w reader r).1 =
    releaseLock_calls r ++
    [release_site (read_loop w (reads reader) (ending reader) r).2].
Proof.
  intros Hr. unfold Consumer.consume.
  pose proof (read_loop_release w (reads reader) (ending reader) r Hr) as H.
  simpl in H.
  destruct (read_loop w (reads reader) (ending reader) r) as [r' exit].
  unfold release_finally. simpl in *.
  destruct exit as [t | | e]; destruct H as [-> H]; simpl; by rewrite H.
Qed.

Lemma handle_failure_releases e r :
  releaseLock_calls (handle_failure e r) = releaseLock_calls r.
Proof. unfold handle_failure. by destruct (String.eqb _ _). Qed.

(** ** Release of the reader (C8) *)

Local Abbreviation acquired_reader := (Consumer.acquired_reader projectId).
Local Abbreviation begin := (Consumer.begin).

(** C8. A call that obtains a reader calls [releaseLock] exactly once:
    in the [done] case when the loop returns on a [done] event, in the
    [error] case when it returns on an [error] event, and in the [finally]
    block when the stream is exhausted or a read rejects (an abort).  A
    call that obtains no reader releases nothing. *)
Theorem reader_released_once w content options h :
  match acquired_reader w content options h with
  | Some reader =>
      releases (sendMessage w content options h) =
        [release_site
           (read_loop w (reads reader) (ending reader) (begin w content options h)).2]
  | None => releases (sendMessage w content options h) = []
  end.
Proof.
  unfold Consumer.acquired_reader, Consumer.sendMessage, Consumer.sendMessage_from, Consumer.sendMessage_body.
  destruct (Js.is_empty (Js.trim content) || isLoading (state h)); [done |].
  destruct (fetch w _) as [e | ok status body]; cbn [releases].
  { by rewrite handle_failure_releases. }
  destruct ok; cbn [negb]; [| by rewrite handle_failure_releases].
  destruct body as [reader |]; [| by rewrite handle_failure_releases].
  pose proof (consume_releases_once w reader (begin w content options h) eq_refl) as H.
  simpl in H.
  destruct (consume w reader (begin w content options h)) as [r' exit].
  simpl in H. destruct exit; by rewrite ?handle_failure_releases.
Qed.

(** ** The guard of [sendMessage] (C9) *)

Lemma dispatch_keeps_loading w data r r' :
  dispatch w data r = (r', None) →
  isLoading (hook_state r') = isLoading (hook_state r).
Proof.
  unfold Consumer.dispatch.
  destruct (type data) as [[] |]; try (intros [= <-]; done).
  destruct (JSON_parse_sources _); intros [= <-]; done.
Qed.

Lemma process_lines_keeps_loading w lines r r' :
  process_lines w lines r = (r', None) →
  isLoading (hook_state r') = isLoading (hook_state r).
Proof.
  revert r. induction lines as [| line rest IH]; intros r; [by intros [= <-] |].
  cbn [Consumer.process_lines].
  destruct (process_line w line r) as [r1 [t |]] eqn:Hline; [done |].
  intros Hrest. rewrite (IH _ Hrest).
  unfold Consumer.process_line in Hline.
  destruct (Js.startsWith DATA_PREFIX line); [| by injection Hline as <-].
  destruct (Js.is_empty _); [by injection Hline as <- |].
  destruct (JSON_parse_chunk _); [| by injection Hline as <-].
  by apply dispatch_keeps_loading in Hline.
Qed.

Local Abbreviation sendMessage_from :=
  (Consumer.sendMessage_from projectId JSON_parse_chunk JSON_parse_sources).
Local Abbreviation sendMessage_issue := (Consumer.sendMessage_issue projectId).


(** ** Malformed event lines (C10) *)

(** C10. A line that starts with [data: ] and whose remainder is blank, or
    is rejected by [JSON.parse], ends the loop body without a [return]:
    the React state (the error state included), the accumulated text, the
    current sources and the release bookkeeping are as before, a rejected
    line only adds one console line, and the loop goes on with the
    remaining lines from that state. *)
Theorem malformed_line_skipped w line r :
  Js.startsWith DATA_PREFIX line = true →
  Js.trim (Js.slice 6 line) = "" ∨ JSON_parse_chunk (Js.trim (Js.slice 6 line)) = None →
  let r' := if Js.is_empty (Js.trim (Js.slice 6 line)) then r
            else console_log "Error parsing SSE data:" r in
  process_line w line r = (r', None) ∧
  hook_state r' = hook_state r ∧
  fullAssistantContent r' = fullAssistantContent r ∧
  currentSources r' = currentSources r ∧
  readerReleased r' = readerReleased r ∧
  releaseLock_calls r' = releaseLock_calls r ∧
  ∀ rest, process_lines w (line :: rest) r = process_lines w rest r'.
Proof.
  intros Hprefix Hbad r'.
  assert (Hline : process_line w line r = (r', None)).
  { unfold Consumer.process_line. rewrite Hprefix. subst r'.
    destruct Hbad as [-> | Hparse]; [done |].
    destruct (Js.is_empty _); [done |]. by rewrite Hparse. }
  split; [exact Hline |].
  repeat split; try (subst r'; by destruct (Js.is_empty _)).
  intros rest. cbn [Consumer.process_lines]. by rewrite Hline.
Qed.

(** ** The assistant turn materialized on [done] (C4) *)

Lemma done_materializes_metadata w data r :
  type data = Some StreamChunk.done →
  messages (hook_state (dispatch w data r).1) =
    messages (hook_state r) ++
    [ {| Message.id := assistantMessageId w +:+ "_assistant";
         Message.role := assistant;
         Message.content := fullAssistantContent r;
         Message.images := None;
         Message.metadata :=
           Some {| MessageMetadata.sources := Some (currentSources r);
                   MessageMetadata.images := None;
                   MessageMetadata.timestamp := Some (assistantTimestamp w);
                   MessageMetadata.tokens := None |};
         Message.createdAt := assistantCreatedAt w |} ].
Proof.
  intros Hdone. unfold Consumer.dispatch. rewrite Hdone.
  unfold release_and_mark. cbn [fst setState readerReleased].
  by destruct (readerReleased r).
Qed.

End ConsumerFacts.


(** ** The consumer on the demo request *)

Section ConsumerExamples.

Import Consumer.

(** The four ways out of the read loop, each with its single release. *)
Example release_on_done :
  releases (Demo.send (Demo.streaming
    [StreamChunk.mk StreamChunk.text "Hi"; StreamChunk.mk StreamChunk.done ""]
    EndOfStream)) = [AtDone].
Proof. vm_compute. reflexivity. Qed.

Example release_on_error :
  releases (Demo.send (Demo.streaming
    [StreamChunk.mk StreamChunk.text "Hi"; StreamChunk.mk StreamChunk.error "boom"]
    EndOfStream)) = [AtError].
Proof. vm_compute. reflexivity. Qed.

Example release_on_exhaustion :
  releases (Demo.send (Demo.streaming
    [StreamChunk.mk StreamChunk.text "Hi"] EndOfStream)) = [AtFinally].
Proof. vm_compute. reflexivity. Qed.

Example release_on_abort :
  let result := Demo.send (Demo.streaming
    [StreamChunk.mk StreamChunk.sources "[]"] (ReadRejects Demo.AbortError)) in
  releases result = [AtFinally] ∧
  error (state (hook result)) = None ∧
  isLoading (state (hook result)) = false ∧
  length (messages (state (hook result))) = 1%nat.
Proof. vm_compute. done. Qed.

(** The controller's events for the demo request, sent over the wire and
    read back: the consumer ends with the user turn and the assistant
    turn [Hello] carrying the one source. *)
Example end_to_end :
  Demo.served_events =
    [ StreamChunk.mk StreamChunk.sources (Wire.stringify_sources [Demo.refund_source]);
      StreamChunk.mk StreamChunk.text "Hel";
      StreamChunk.mk StreamChunk.text "lo";
      StreamChunk.mk StreamChunk.done "" ] ∧
  let result := Demo.send (Demo.streaming Demo.served_events EndOfStream) in
  (λ m, (Message.role m, Message.content m)) <$> messages (state (hook result)) =
    [(user, "What is the refund policy?"); (assistant, "Hello")] ∧
  (Message.metadata <$> last (messages (state (hook result)))) =
    Some (Some {| MessageMetadata.sources := Some [Demo.refund_source];
                  MessageMetadata.images := None;
                  MessageMetadata.timestamp := Some "1970-01-01T00:00:00.002Z";
                  MessageMetadata.tokens := None |}) ∧
  isLoading (state (hook result)) = false ∧
  releases result = [AtDone].
Proof. vm_compute. done. Qed.


End ConsumerExamples.


(** ** Where the sources metadata lives (C4) *)

(** C4, as the code has it.  The write at stream completion sets only the
    identifier, project, content and role: every row a stream adds to the
    table is one of the two turns and its metadata is empty.  The sources
    and a timestamp are attached to the assistant turn that the consumer
    appends to its message list on the [done] event. *)
Theorem stored_turns_without_metadata :
  (∀ JSON_stringify w projectId pm message sessionId style d k row,
     Controller.messages (Controller.db
       (Controller.start JSON_stringify w projectId pm message sessionId style
          (Controller.open_stream d)).1) !! k = Some row →
     Controller.messages d !! k = None →
     MessageRow.metadata row = None ∧
     (k = Js.to_string sessionId +:+ "-user" ∨
      k = Js.to_string sessionId +:+ "-assistant")) ∧
  (∀ JSON_parse_sources w data r,
     Consumer.type data = Some StreamChunk.done →
     ∃ turn,
       Consumer.messages (Consumer.hook_state
         (Consumer.dispatch JSON_parse_sources w data r).1) =
         Consumer.messages (Consumer.hook_state r) ++ [turn] ∧
       Consumer.Message.role turn = assistant ∧
       Consumer.Message.content turn = Consumer.fullAssistantContent r ∧
       Consumer.Message.metadata turn =
         Some {| MessageMetadata.sources := Some (Consumer.currentSources r);
                 MessageMetadata.images := None;
                 MessageMetadata.timestamp := Some (Consumer.assistantTimestamp w);
                 MessageMetadata.tokens := None |}).
Proof.
  split.
  - intros. by eapply new_rows_without_metadata.
  - intros JSON_parse_sources w data r Hdone.
    eexists. split; [by apply done_materializes_metadata |]. done.
Qed.

(** The demo client skips a line that is not JSON. *)
Lemma malformed_line_skipped_witness :
  let w := Demo.client (Consumer.FetchRejects Demo.AbortError) in
  let r := Consumer.begin w "hello" Demo.no_options Demo.idle in
  Consumer.process_line Wire.parse_chunk Wire.parse_sources w "data: {not json" r
    = (Consumer.console_log "Error parsing SSE data:" r, None).
Proof.
  intros w r.
  exact (proj1 (malformed_line_skipped Wire.parse_chunk Wire.parse_sources w
                  "data: {not json" r eq_refl (or_intror eq_refl))).
Defined.


(** * Further properties of the controller *)

Section ControllerMore.

Import Controller.
Local Open Scope ctl_scope.

Variable JSON_stringify : list DocumentSource.t → string.

Local Abbreviation sources_event := (Controller.sources_event JSON_stringify).
Local Abbreviation start := (Controller.start JSON_stringify).
Local Abbreviation POST := (Controller.POST JSON_stringify).

(** ** Which requests open a stream *)

(** X1. The handler opens the event stream exactly for a request with a
    session user, on a project owned by that user, with a body that parses
    and a message that is a non-empty string.  Every other request gets a
    plain response with status 401, 403, 500 or 400. *)
Theorem stream_opens_iff w d projectId :
  ((∃ final outcome, POST w d projectId = EventStream final outcome) ↔
   (∃ userId body s,
      sessionUserId w = Some userId ∧ userId ≠ "" ∧
      projects d !! projectId = Some userId ∧
      requestBody w = Some body ∧ message body = Js.Str s ∧ s ≠ "")) ∧
  (∀ status text,
     POST w d projectId = Plain status text → status ∈ [401; 403; 500; 400]%nat).
Proof.
  unfold Controller.POST, findFirst. split.
  - split.
    + intros (final & outcome & H).
      destruct (sessionUserId w) as [userId |]; [| done].
      destruct (Js.is_empty userId) eqn:Hu; [done |].
      destruct (projects d !! projectId) as [owner |] eqn:Hp; [| done].
      destruct (decide (owner = userId)) as [-> |]; [| done].
      destruct (requestBody w) as [body |]; [| done].
      destruct (message body) as [| | b | n | s] eqn:Hm; simpl in H;
        try done; try (by destruct b); try (by destruct (n =? 0)).
      destruct s as [| c s]; [done |].
      exists userId, body, (String c s). repeat split; try done.
      by destruct userId.
    + intros (userId & body & s & -> & Hu & -> & -> & -> & Hs).
      assert (Js.is_empty userId = false) as -> by by destruct userId.
      rewrite decide_True by done.
      assert (negb (Js.truthy (Js.Str s)) || negb (Js.is_string (Js.Str s)) = false) as ->
        by by destruct s.
      destruct (Controller.start _ _ _ _ _ _ _ _) as [final outcome]. eauto.
  - intros status text.
    destruct (sessionUserId w) as [userId |]; [| intros [= <- _]; set_solver].
    destruct (Js.is_empty userId); [intros [= <- _]; set_solver |].
    destruct (projects d !! projectId) as [owner |]; [| intros [= <- _]; set_solver].
    destruct (decide (owner = userId)); [| intros [= <- _]; set_solver].
    destruct (requestBody w) as [body |]; [| intros [= <- _]; set_solver].
    destruct (_ || _); [intros [= <- _]; set_solver |].
    by destruct (Controller.start _ _ _ _ _ _ _ _).
Qed.

(** ** Failures before the model is asked *)

(** X2. The configuration checks come first and in this order: without
    the OpenAI key the stream is the single [error] event naming that key,
    otherwise without one of the Pinecone variables the single [error]
    event naming them; with the configuration in place a rejected
    retrieval gives the single generic [error] event.  In all three cases
    the stream is closed, nothing is written, and the model and the
    database play no part in the result. *)
Theorem failure_before_model w projectId pm message sessionId style d :
  let run := start w projectId pm message sessionId style (open_stream d) in
  let failed text log :=
    run = ({| enqueued := [error_event text]; closed := true; db := d;
              console := log |}, Returned ()) in
  (Js.env_missing (OPENAI_API_KEY (env w)) = true →
     failed "OpenAI API key not configured" []) ∧
  (Js.env_missing (OPENAI_API_KEY (env w)) = false →
   Js.env_missing (PINECONE_API_KEY (env w)) = true
   ∨ Js.env_missing (PINECONE_INDEX_NAME (env w)) = true →
     failed "Pinecone environment variables not configured" []) ∧
  (configured w = true →
   similaritySearchWithScore w ("project-" +:+ projectId) message 4 = None →
     failed generic_error ["Error in chat stream:"]).
Proof.
  intros run failed. subst run failed. cbv beta.
  unfold Controller.start, stream_body, try_catch, bind, configured.
  split; [| split].
  - intros ->. by destruct d.
  - intros -> [-> | ->]; rewrite ?orb_true_r; by destruct d.
  - intros Hc Hs.
    apply andb_true_iff in Hc as [Hc H3]. apply andb_true_iff in Hc as [H1 H2].
    apply negb_true_iff in H1, H2, H3. rewrite H1, H2, H3, Hs. by destruct d.
Qed.

(** ** What a stream does to the tables *)

(** X3. A stream never changes or removes a row that exists and never
    touches the projects: whatever its outcome, every message present
    before is present unchanged afterwards. *)
Theorem existing_rows_untouched w projectId pm message sessionId style d :
  let final := (start w projectId pm message sessionId style (open_stream d)).1 in
  projects (db final) = projects d ∧
  ∀ k row, messages d !! k = Some row → messages (db final) !! k = Some row.
Proof.
  intros final. subst final.
  destruct (delivered w projectId pm message style) as [[sources completion] |] eqn:Hd.
  - rewrite (start_delivered _ _ _ _ _ sessionId _ d _ _ Hd).
    destruct (rejects completion); cbn [fst db projects messages]; [done |].
    split; [done |]. intros k row Hk.
    destruct (after_write_turns w d projectId sessionId message
                (String.concat "" (increments (deltas completion))))
      as [[_ ->] | (_ & Hu & Ha & ->)]; [done |].
    rewrite !lookup_insert_ne; [done | |]; intros <-; congruence.
  - destruct (start_not_delivered JSON_stringify _ _ _ _ sessionId _ d Hd)
      as (pre & text & log & -> & _).
    done.
Qed.

(** X4. An exchange whose identifiers are taken is not stored: when a row
    keyed [sessionId + '-user'] or [sessionId + '-assistant'] exists (as
    after an earlier request with the same session identifier, or with
    none, which makes the keys [undefined-user] and
    [undefined-assistant]), a completed stream ends with [done], leaves the
    table as it was and logs the failed write. *)
Theorem taken_identifier_not_stored
    w projectId pm message sessionId style d sources completion :
  delivered w projectId pm message style = Some (sources, completion) →
  rejects completion = false →
  is_Some (messages d !! (Js.to_string sessionId +:+ "-user"))
  ∨ is_Some (messages d !! (Js.to_string sessionId +:+ "-assistant")) →
  let run := start w projectId pm message sessionId style (open_stream d) in
  last (enqueued run.1) = Some done_event ∧
  messages (db run.1) = messages d ∧
  console run.1 = ["Failed to save messages to database:"].
Proof.
  intros Hd Hrej Htaken run. subst run.
  rewrite (start_delivered _ _ _ _ _ sessionId _ d _ _ Hd), Hrej.
  cbn [fst enqueued db messages console].
  split; [rewrite app_comm_cons; apply last_snoc |].
  destruct (after_write_turns w d projectId sessionId message
              (String.concat "" (increments (deltas completion))))
    as [[-> ->] | (_ & Hu & Ha & _)]; [done |].
  destruct Htaken as [[? H] | [? H]]; congruence.
Qed.

(** ** Requests without relevant passages *)

Lemma filterScored_none threshold scored :
  Forall (λ e, PrimFloat.leb threshold e.2 = false) scored →
  filterScored threshold scored = [].
Proof.
  unfold filterScored. induction 1 as [| e l He _ IH]; [done |].
  simpl. by rewrite He.
Qed.

(** X5. When every candidate scores below the threshold (or there is no
    candidate) the request is answered without grounding: the [sources]
    event carries the empty array, the model gets the base system message,
    the history and the user message with no [Context:] message, and the
    stream completes as usual. *)
Theorem ungrounded_when_nothing_relevant
    w projectId pm message sessionId style d scored completion :
  configured w = true →
  similaritySearchWithScore w ("project-" +:+ projectId) message 4 = Some scored →
  Forall (λ e, PrimFloat.leb SIM_THRESHOLD e.2 = false) scored →
  chat_completions_create w
    ({| role := system; content := baseSystem style |} ::
     (as_chat_message <$> recentMessages pm) ++
     [ {| role := user; content := message |} ]) = Some completion →
  rejects completion = false →
  enqueued (start w projectId pm message sessionId style (open_stream d)).1 =
    sources_event [] :: (text_event <$> increments (deltas completion)) ++ [done_event].
Proof.
  intros Hc Hs Hlow Hmodel Hrej.
  assert (Hd : delivered w projectId pm message style = Some ([], completion)).
  { unfold delivered. rewrite Hc, Hs. simpl.
    rewrite (filterScored_none _ _ Hlow). cbn [toSources imap].
    rewrite messagesForLLM_layout. cbn [app]. by rewrite Hmodel. }
  by rewrite (start_delivered _ _ _ _ _ sessionId _ d _ _ Hd), Hrej.
Qed.

(** ** Numbering of the sources *)

Lemma toSources_lookup filtered i entry :
  filtered !! i = Some entry →
  toSources filtered !! i =
    Some {| DocumentSource.id := "src-" +:+ pretty i;
            DocumentSource.name := source_name entry.1;
            DocumentSource.pageContent := Document.pageContent entry.1;
            DocumentSource.metadata := Document.metadata entry.1 |}.
Proof. intros H. unfold toSources. by rewrite list_lookup_imap, H. Qed.

Lemma source_name_not_empty doc : source_name doc ≠ "".
Proof.
  unfold source_name. destruct (Document.metadata doc) as [md |]; [| done].
  destruct (documentName md) as [n |]; [| done]. by destruct n.
Qed.

Lemma includes_concat (sep x : string) (xs : list string) :
  x ∈ xs → Js.includes x (String.concat sep xs) = true.
Proof.
  induction xs as [| y ys IH]; [by intros ?%elem_of_nil |].
  intros [<- | Hin]%elem_of_cons.
  - destruct ys as [| z zs].
    + rewrite <- (append_nil_r x) at 2. apply (includes_append "" x "").
    + apply (includes_append "" x (sep +:+ String.concat sep (z :: zs))).
  - destruct ys as [| z zs]; [by apply elem_of_nil in Hin |].
    specialize (IH Hin).
    change (String.concat sep (y :: z :: zs))
      with (y +:+ sep +:+ String.concat sep (z :: zs)).
    rewrite <- append_assoc.
    generalize dependent (String.concat sep (z :: zs)). intros rest Hrest.
    induction (y +:+ sep) as [| c pre IHpre]; [done |].
    change (String c pre +:+ rest) with (String c (pre +:+ rest)).
    cbn [Js.includes]. rewrite IHpre. apply orb_true_r.
Qed.

(** X6. The sources keep the order and number of the filtered passages:
    the passage at position [i] becomes the source with identifier
    [src-i], its page content and metadata and a non-empty display name,
    the identifiers are pairwise distinct, and the context text cites that
    source as [[i+1]]. *)
Theorem sources_numbered_in_order filtered :
  length (toSources filtered) = length filtered ∧
  NoDup (DocumentSource.id <$> toSources filtered) ∧
  ∀ i entry, filtered !! i = Some entry →
    ∃ source,
      toSources filtered !! i = Some source ∧
      DocumentSource.id source = "src-" +:+ pretty i ∧
      DocumentSource.pageContent source = Document.pageContent entry.1 ∧
      DocumentSource.metadata source = Document.metadata entry.1 ∧
      DocumentSource.name source ≠ "" ∧
      Js.includes ("[" +:+ pretty (i + 1)%nat +:+ "] " +:+ Document.pageContent entry.1)
        (contextText (toSources filtered)) = true.
Proof.
  split; [apply length_imap |]. split.
  - apply NoDup_alt. intros i j x Hi Hj.
    rewrite list_lookup_fmap in Hi, Hj. unfold toSources in Hi, Hj.
    rewrite list_lookup_imap in Hi, Hj.
    destruct (filtered !! i) as [ei |]; [| done].
    destruct (filtered !! j) as [ej |]; [| done].
    simpl in Hi, Hj. rewrite <- Hj in Hi. injection Hi as Heq.
    apply String.app_inj in Heq. by apply (inj pretty) in Heq.
  - intros i entry Hi. eexists. split; [by apply toSources_lookup |].
    cbn [DocumentSource.id DocumentSource.pageContent DocumentSource.metadata
         DocumentSource.name].
    repeat split; [apply source_name_not_empty |].
    unfold contextText, Js.join. apply includes_concat.
    apply list_elem_of_lookup. exists i.
    rewrite list_lookup_imap, (toSources_lookup _ _ _ Hi). done.
Qed.

(** ** The filter on its own output and on NaN *)

Lemma leb_nan (threshold : float) : PrimFloat.leb threshold nan = false.
Proof.
  rewrite leb_spec.
  assert (H : Prim2SF nan = S754_nan) by reflexivity.
  rewrite H. unfold SFleb, SFcompare.
  destruct (Prim2SF threshold) as [ | | | ]; reflexivity.
Qed.

(** X7. Filtering is idempotent, and a candidate whose score is NaN is
    dropped whatever the threshold, since [score >= threshold] is false
    for it. *)
Theorem filter_idempotent_drops_nan :
  (∀ threshold scored,
     filterScored threshold (filterScored threshold scored)
     = filterScored threshold scored) ∧
  (∀ threshold doc scored,
     filterScored threshold ((doc, nan) :: scored) = filterScored threshold scored).
Proof.
  split.
  - intros threshold scored. unfold filterScored.
    induction scored as [| e l IH]; [done |]. simpl.
    destruct (PrimFloat.leb threshold e.2) eqn:He; [| done].
    simpl. by rewrite He, IH.
  - intros threshold doc scored. unfold filterScored. simpl. by rewrite leb_nan.
Qed.

(** ** Size and ends of the prompt *)

(** X8. Whatever the history returned by the query, the list handed to the
    model starts with the base system message, ends with the new user
    message and has between two and nine entries: two, one more when
    there are sources, and at most six history turns. *)
Theorem prompt_shape style sources pm message :
  let msgs := messagesForLLM style sources (recentMessages pm) message in
  head msgs = Some {| role := system; content := baseSystem style |} ∧
  last msgs = Some {| role := user; content := message |} ∧
  length msgs =
    (2 + (if bool_decide (sources = []) then 0 else 1) + min 6 (length pm))%nat ∧
  (2 ≤ length msgs ≤ 9)%nat.
Proof.
  intros msgs. subst msgs. rewrite messagesForLLM_layout.
  split; [done |]. split.
  { rewrite !app_assoc. apply last_snoc. }
  assert (Hlen : length (recentMessages pm) = min 6 (length pm)).
  { unfold recentMessages. by rewrite length_reverse, length_take. }
  rewrite !length_app, length_fmap, Hlen.
  destruct sources as [| s0 sources].
  - rewrite bool_decide_eq_true_2 by done. cbn [length]. lia.
  - rewrite bool_decide_eq_false_2 by done. cbn [length]. lia.
Qed.

(** ** A stored exchange and the next request *)

(** X9. A stored exchange is part of the next request's history: when
    the write succeeds and the database clock is ahead of every earlier
    turn of the project, both new turns are among the history that the
    ownership query returns on the resulting table. *)
Theorem stored_turns_enter_history
    w projectId pm message sessionId style d sources completion :
  delivered w projectId pm message style = Some (sources, completion) →
  rejects completion = false →
  write_failed w d
    (persisted_turns projectId sessionId message
       (String.concat "" (increments (deltas completion)))) = false →
  (∀ k row, messages d !! k = Some row → MessageRow.projectId row = projectId →
            MessageRow.createdAt row < now w) →
  let final := (start w projectId pm message sessionId style (open_stream d)).1 in
  let history := recentMessages (include_messages (db final) projectId) in
  ∃ user_turn assistant_turn,
    (Js.to_string sessionId +:+ "-user", user_turn) ∈ history ∧
    (Js.to_string sessionId +:+ "-assistant", assistant_turn) ∈ history ∧
    MessageRow.role user_turn = user ∧
    MessageRow.content user_turn = message ∧
    MessageRow.role assistant_turn = assistant ∧
    MessageRow.content assistant_turn =
      String.concat "" (increments (deltas completion)).
Proof.
  intros Hd Hrej Hok Hclock final history. subst final history.
  rewrite (start_delivered _ _ _ _ _ sessionId _ d _ _ Hd), Hrej.
  cbn [fst db].
  set (full := String.concat "" (increments (deltas completion))) in *.
  destruct (after_write_turns w d projectId sessionId message full)
    as [[Hf _] | (_ & Hu & Ha & Hw)]; [congruence |].
  set (uid := Js.to_string sessionId +:+ "-user") in *.
  set (aid := Js.to_string sessionId +:+ "-assistant") in *.
  set (ra := row_of (now w) {| id := aid; projectId := projectId;
                               create_content := full; create_role := assistant |}) in Hw.
  set (ru := row_of (now w) {| id := uid; projectId := projectId;
                               create_content := message; create_role := user |}) in Hw.
  set (d' := {| projects := projects d; messages := after_write w d _ |}).
  assert (Hne : uid ≠ aid) by apply user_assistant_ids_differ.
  assert (Hlu : messages d' !! uid = Some ru).
  { cbn [d' messages]. rewrite Hw. rewrite lookup_insert_ne by done.
    apply lookup_insert_eq. }
  assert (Hla : messages d' !! aid = Some ra).
  { cbn [d' messages]. rewrite Hw. apply lookup_insert_eq. }
  assert (Hfew : ∀ k other (rk ro : MessageRow.t),
    messages d' !! k = Some rk → MessageRow.createdAt rk = now w →
    (k = uid ∧ other = aid ∧ ro = ra) ∨ (k = aid ∧ other = uid ∧ ro = ru) →
    (size (filter (λ kv : string * MessageRow.t,
                     MessageRow.projectId kv.2 = projectId ∧ kv.1 ≠ k ∧
                     (MessageRow.createdAt rk ≤ MessageRow.createdAt kv.2)%Z)
                  (messages d')) < 6)%nat).
  { intros k other rk ro Hk Hrk Hcase.
    apply Nat.le_lt_trans with (size ({[other := ro]} : gmap string MessageRow.t));
      [| rewrite map_size_singleton; lia].
    apply map_subseteq_size, map_subseteq_spec. intros i x Hi.
    apply map_lookup_filter_Some in Hi as [Hi (Hp & Hik & Hnew)]. simpl in *.
    rewrite Hrk in Hnew. cbn [d' messages] in Hi. rewrite Hw in Hi.
    apply lookup_insert_Some in Hi as [[<- <-] | [Hia Hi]].
    - destruct Hcase as [(-> & -> & ->) | (-> & _ & _)]; [| done].
      apply lookup_singleton_eq.
    - apply lookup_insert_Some in Hi as [[<- <-] | [Hiu Hi]].
      + destruct Hcase as [(-> & _ & _) | (-> & -> & ->)]; [done |].
        apply lookup_singleton_eq.
      + specialize (Hclock i x Hi Hp). lia. }
  exists ru, ra. split; [| split; [| done]].
  - apply recent_complete; [done | done |]. by apply (Hfew uid aid ru ra); auto.
  - apply recent_complete; [done | done |]. by apply (Hfew aid uid ra ru); auto.
Qed.

End ControllerMore.


(** * Further properties of the consumer *)

Section ConsumerMore.

Import Consumer.

Variable projectId : string.
Variable JSON_parse_chunk : string → option ParsedChunk.
Variable JSON_parse_sources : string → option (list DocumentSource.t).
Variable JSON_stringify_chunk : StreamChunk.t → string.

Local Abbreviation dispatch := (Consumer.dispatch JSON_parse_sources).
Local Abbreviation process_line :=
  (Consumer.process_line JSON_parse_chunk JSON_parse_sources).
Local Abbreviation process_lines :=
  (Consumer.process_lines JSON_parse_chunk JSON_parse_sources).
Local Abbreviation read_loop :=
  (Consumer.read_loop JSON_parse_chunk JSON_parse_sources).
Local Abbreviation consume :=
  (Consumer.consume JSON_parse_chunk JSON_parse_sources).
Local Abbreviation sendMessage :=
  (Consumer.sendMessage projectId JSON_parse_chunk JSON_parse_sources).
Local Abbreviation request_of := (Consumer.request_of projectId).
Local Abbreviation event_text := (Transport.event_text JSON_stringify_chunk).
Local Abbreviation reads_back :=
  (Transport.reads_back JSON_stringify_chunk JSON_parse_chunk).
Local Abbreviation run_events := (Delivery.run_events JSON_parse_sources).
Local Abbreviation after_events := (Delivery.after_events JSON_parse_sources).
Local Abbreviation responds_with :=
  (Delivery.responds_with projectId JSON_stringify_chunk).
Local Abbreviation acquired_reader := (Consumer.acquired_reader projectId).
Local Abbreviation retryLastMessage :=
  (Retry.retryLastMessage projectId JSON_parse_chunk JSON_parse_sources).
Local Abbreviation handleSubmit :=
  (Retry.handleSubmit projectId JSON_parse_chunk JSON_parse_sources).

(** ** From the text on the transport to events *)

Lemma split_without_line_feed (s : string) :
  Transport.has_line_feed s = false →
  Js.split Js.LF (s +:+ Js.nl +:+ Js.nl) = [s; ""; ""].
Proof.
  induction s as [| c s IH]; [done |].
  cbn [Transport.has_line_feed]. intros [Hc Hs]%orb_false_iff.
  change (String c s +:+ Js.nl +:+ Js.nl) with (String c (s +:+ Js.nl +:+ Js.nl)).
  cbn [Js.split]. by rewrite Hc, (IH Hs).
Qed.

Lemma has_line_feed_data (json : string) :
  Transport.has_line_feed ("data: " +:+ json) = Transport.has_line_feed json.
Proof. done. Qed.

(** One read that holds the text of one event is one application of the
    [switch] to that event. *)
Lemma process_event_text w chunk r :
  reads_back chunk →
  process_lines w (Js.split Js.LF (event_text chunk)) r
  = dispatch w (Transport.parsed chunk) r.
Proof.
  intros (Hlf & Hblank & Hparse).
  change (event_text chunk)
    with (("data: " +:+ JSON_stringify_chunk chunk) +:+ Js.nl +:+ Js.nl).
  rewrite split_without_line_feed by done.
  cbn [Consumer.process_lines].
  assert (Hline : process_line w ("data: " +:+ JSON_stringify_chunk chunk) r
                  = dispatch w (Transport.parsed chunk) r).
  { unfold Consumer.process_line.
    unfold Js.startsWith, DATA_PREFIX. rewrite prefix_append.
    change (Js.slice 6 ("data: " +:+ JSON_stringify_chunk chunk))
      with (JSON_stringify_chunk chunk).
    cbv iota. by rewrite Hblank, Hparse. }
  rewrite Hline. by destruct (dispatch w (Transport.parsed chunk) r) as [r' [t |]].
Qed.

Lemma read_loop_events w events more ending r :
  Forall reads_back events →
  read_loop w ((event_text <$> events) ++ more) ending r =
    match run_events w events ending r with
    | (r', Returned t) => (r', Returned t)
    | _ => (read_loop w more ending (after_events w events r))
    end.
Proof.
  intros Hall. revert r. induction Hall as [| event rest Hevent _ IH]; intros r.
  - cbn [fmap list_fmap app Delivery.run_events Delivery.after_events foldl].
    by destruct ending.
  - cbn [fmap list_fmap app Consumer.read_loop Delivery.run_events
         Delivery.after_events foldl].
    rewrite (process_event_text w event r Hevent).
    destruct (dispatch w (Transport.parsed event) r) as [r' [t |]]; [done |].
    apply IH.
Qed.

(** ** Events that do not end the stream *)

Lemma dispatch_goes_on w event r :
  Delivery.goes_on event = true →
  ∃ r', dispatch w (Transport.parsed event) r = (r', None) ∧
        Delivery.carried_over r r' ∧
        fullAssistantContent r' =
          fullAssistantContent r +:+ String.concat "" (Controller.text_payloads [event]) ∧
        streamingContent (hook_state r') =
          match Controller.text_payloads [event] with
          | [] => streamingContent (hook_state r)
          | _ => fullAssistantContent r'
          end.
Proof.
  unfold Delivery.goes_on, Consumer.dispatch, Transport.parsed, Delivery.carried_over,
    Controller.text_payloads.
  destruct event as [kind text]. cbn [StreamChunk.type StreamChunk.content type content].
  destruct kind; try done; intros _;
    [ | | destruct (JSON_parse_sources text) ];
    (eexists; split; [done |]);
    cbn -[String.append bool_decide];
    rewrite ?bool_decide_eq_true_2, ?bool_decide_eq_false_2 by done;
    cbn -[String.append]; by rewrite ?append_nil_r.
Qed.

Lemma text_payloads_cons event rest :
  Controller.text_payloads (event :: rest) =
  Controller.text_payloads [event] ++ Controller.text_payloads rest.
Proof.
  unfold Controller.text_payloads. cbn [List.filter].
  by destruct (bool_decide (StreamChunk.type event = StreamChunk.text)).
Qed.

Lemma text_payloads_single event :
  Controller.text_payloads [event] = [] ∨
  Controller.text_payloads [event] = [StreamChunk.content event].
Proof.
  unfold Controller.text_payloads. cbn [List.filter].
  destruct (bool_decide (StreamChunk.type event = StreamChunk.text)); auto.
Qed.

Lemma after_events_goes_on w events ending r :
  Forall (λ e, Delivery.goes_on e = true) events →
  run_events w events ending r = (after_events w events r, Delivery.exit_of ending) ∧
  Delivery.carried_over r (after_events w events r) ∧
  fullAssistantContent (after_events w events r) =
    fullAssistantContent r +:+ String.concat "" (Controller.text_payloads events) ∧
  streamingContent (hook_state (after_events w events r)) =
    match Controller.text_payloads events with
    | [] => streamingContent (hook_state r)
    | _ => fullAssistantContent (after_events w events r)
    end.
Proof.
  intros Hall. revert r. induction Hall as [| event rest Hevent _ IH]; intros r.
  - cbn [Delivery.run_events Delivery.after_events foldl]. unfold Delivery.carried_over.
    split; [by destruct ending |]. split; [done |]. split; [| done].
    change (Controller.text_payloads []) with (@nil string).
    by rewrite append_nil_r.
  - destruct (dispatch_goes_on w event r Hevent) as (r1 & Hstep & Hcarry & Hfull & Hstream).
    cbn [Delivery.run_events Delivery.after_events foldl]. rewrite Hstep. cbn [fst].
    destruct (IH r1) as (Hrun & Hcarry' & Hfull' & Hstream').
    unfold Delivery.after_events in *.
    split; [exact Hrun |]. split.
    { destruct Hcarry as (H1 & H2 & H3 & H4 & H5).
      destruct Hcarry' as (G1 & G2 & G3 & G4 & G5).
      unfold Delivery.carried_over. repeat split; congruence. }
    rewrite text_payloads_cons.
    destruct (text_payloads_single event) as [He | He]; rewrite He in *.
    + change (String.concat "" []) with "" in Hfull. rewrite append_nil_r in Hfull.
      cbn [app]. split; [by rewrite Hfull', Hfull |].
      rewrite Hstream'. by destruct (Controller.text_payloads rest); [rewrite Hstream |].
    + cbn [app]. rewrite concat_cons, <- append_assoc.
      change (String.concat "" [StreamChunk.content event])
        with (StreamChunk.content event) in Hfull.
      rewrite <- Hfull. split; [exact Hfull' |].
      rewrite Hstream'. destruct (Controller.text_payloads rest); [| done].
      rewrite Hstream, Hfull'. change (String.concat "" []) with "".
      by rewrite append_nil_r.
Qed.


Lemma run_events_app w pre rest ending r :
  Forall (λ e, Delivery.goes_on e = true) pre →
  run_events w (pre ++ rest) ending r = run_events w rest ending (after_events w pre r).
Proof.
  intros Hall. revert r. induction Hall as [| event pre Hevent _ IH]; intros r; [done |].
  destruct (dispatch_goes_on w event r Hevent) as (r1 & Hstep & _).
  cbn [app Delivery.run_events Delivery.after_events foldl]. rewrite Hstep. apply IH.
Qed.

Lemma text_events_go_on (texts : list string) :
  Forall (λ e, Delivery.goes_on e = true) (Controller.text_event <$> texts).
Proof. induction texts; constructor; done. Qed.

Lemma text_payloads_text_events (texts : list string) :
  Controller.text_payloads (Controller.text_event <$> texts) = texts.
Proof.
  rewrite <- (app_nil_r (Controller.text_event <$> texts)).
  rewrite text_payloads_texts. apply app_nil_r.
Qed.

Lemma current_sources_after_texts w texts r :
  currentSources (after_events w (Controller.text_event <$> texts) r) = currentSources r ∧
  sources (hook_state (after_events w (Controller.text_event <$> texts) r))
    = sources (hook_state r).
Proof.
  unfold Delivery.after_events.
  revert r. induction texts as [| t texts IH]; intros r; [done |].
  cbn [fmap list_fmap foldl].
  destruct (IH (dispatch w (Transport.parsed (Controller.text_event t)) r).1) as [-> ->].
  done.
Qed.

Lemma completed_stream_state
    w content options h sources_text parsed_sources texts more ending :
  Js.is_empty (Js.trim content) = false →
  isLoading (state h) = false →
  let events :=
    StreamChunk.mk StreamChunk.sources sources_text ::
    (Controller.text_event <$> texts) ++ [Controller.done_event] in
  responds_with w content options events more ending →
  Forall reads_back events →
  JSON_parse_sources sources_text = Some parsed_sources →
  let result := sendMessage w content options h in
  state (hook result) =
    {| messages :=
         messages (state h) ++
         [ userMessage w content options;
           {| Message.id := assistantMessageId w +:+ "_assistant";
              Message.role := assistant;
              Message.content := String.concat "" texts;
              Message.images := None;
              Message.metadata :=
                Some {| MessageMetadata.sources := Some parsed_sources;
                        MessageMetadata.images := None;
                        MessageMetadata.timestamp := Some (assistantTimestamp w);
                        MessageMetadata.tokens := None |};
              Message.createdAt := assistantCreatedAt w |} ];
       isLoading := false; streamingContent := ""; sources := [];
       error := None |} ∧
  releases result = [AtDone] ∧
  length (fetches result) = 1%nat.
Proof.
  intros Hcontent Hidle events [status Hfetch] Hback Hsources result.
  set (r0 := begin w content options h).
  assert (Hconsume : ∃ r3,
    consume w {| reads := (event_text <$> events) ++ more; ending := ending |} r0
      = (r3, Returned ByDone) ∧
    messages (hook_state r3) =
      messages (hook_state r0) ++
      [ {| Message.id := assistantMessageId w +:+ "_assistant";
           Message.role := assistant;
           Message.content := String.concat "" texts;
           Message.images := None;
           Message.metadata :=
             Some {| MessageMetadata.sources := Some parsed_sources;
                     MessageMetadata.images := None;
                     MessageMetadata.timestamp := Some (assistantTimestamp w);
                     MessageMetadata.tokens := None |};
           Message.createdAt := assistantCreatedAt w |} ] ∧
    isLoading (hook_state r3) = false ∧
    streamingContent (hook_state r3) = "" ∧
    sources (hook_state r3) = [] ∧
    error (hook_state r3) = None ∧
    releaseLock_calls r3 = [AtDone]).
  { unfold Consumer.consume. cbn [reads Consumer.ending].
    rewrite (read_loop_events w events more ending _ Hback).
    subst events. cbn [Delivery.run_events]. unfold Consumer.dispatch at 1.
    cbn [Transport.parsed Consumer.type Consumer.content StreamChunk.type
         StreamChunk.content].
    rewrite Hsources. cbn [fst snd].
    set (r1 := setState _ _).
    rewrite (run_events_app w _ [Controller.done_event] ending r1 (text_events_go_on texts)).
    destruct (after_events_goes_on w (Controller.text_event <$> texts) ending r1
                (text_events_go_on texts)) as (_ & Hcarry & Hfull & _).
    destruct (current_sources_after_texts w texts r1) as [Hcur _].
    destruct Hcarry as (Hm & _ & He & Hrel & Hcalls).
    rewrite text_payloads_text_events in Hfull.
    set (r2 := after_events w (Controller.text_event <$> texts) r1) in *.
    cbn [Delivery.run_events]. unfold Consumer.dispatch.
    cbn [Transport.parsed Consumer.type StreamChunk.type Controller.done_event].
    unfold release_and_mark, release_finally, setState.
    cbn [readerReleased]. rewrite Hrel. cbn [readerReleased].
    eexists. split; [reflexivity |].
    cbn [hook_state releaseLock_calls messages isLoading streamingContent sources error].
    rewrite Hm, He, Hfull, Hcur, Hcalls. done. }
  destruct Hconsume as (r3 & Hconsume & Hm & Hl & Hs & Hsrc & He & Hrel).
  subst result. unfold Consumer.sendMessage, Consumer.sendMessage_from, Consumer.sendMessage_body.
  rewrite Hcontent, Hidle, Hfetch. cbn [orb negb]. fold r0. rewrite Hconsume.
  cbn [hook state releases fetches length].
  split; [| done].
  destruct (hook_state r3) as [m l s src e]. cbn in Hm, Hl, Hs, Hsrc, He.
  subst. cbn [r0 begin hook_state messages]. by rewrite <- app_assoc.
Qed.

(** X10. A stream of one [sources] event, [text] events and a [done]
    event, read back event by event, leaves the hook with the user turn
    and one assistant turn whose content is the concatenation of the
    [text] payloads and whose metadata holds the parsed sources; the
    loading flag, the streaming text and the current sources are cleared,
    no error is set, the reader is released once, and nothing after the
    [done] event is read. *)
Theorem consumer_reads_completed_stream
    w content options h sources_text parsed_sources texts more ending :
  Js.is_empty (Js.trim content) = false →
  isLoading (state h) = false →
  let events :=
    StreamChunk.mk StreamChunk.sources sources_text ::
    (Controller.text_event <$> texts) ++ [Controller.done_event] in
  responds_with w content options events more ending →
  Forall reads_back events →
  JSON_parse_sources sources_text = Some parsed_sources →
  let result := sendMessage w content options h in
  state (hook result) =
    {| messages :=
         messages (state h) ++
         [ userMessage w content options;
           {| Message.id := assistantMessageId w +:+ "_assistant";
              Message.role := assistant;
              Message.content := String.concat "" texts;
              Message.images := None;
              Message.metadata :=
                Some {| MessageMetadata.sources := Some parsed_sources;
                        MessageMetadata.images := None;
                        MessageMetadata.timestamp := Some (assistantTimestamp w);
                        MessageMetadata.tokens := None |};
              Message.createdAt := assistantCreatedAt w |} ];
       isLoading := false; streamingContent := ""; sources := [];
       error := None |} ∧
  releases result = [AtDone] ∧
  length (fetches result) = 1%nat.
Proof. apply completed_stream_state. Qed.

(** ** Streams that end without [done] *)

(** The run of a call whose stream holds only events that do not end it. *)
Lemma unfinished_stream w content options h events ending :
  Js.is_empty (Js.trim content) = false →
  isLoading (state h) = false →
  responds_with w content options events [] ending →
  Forall reads_back events →
  Forall (λ e, Delivery.goes_on e = true) events →
  ∃ r,
    sendMessage w content options h =
      (let final := match ending with
                    | EndOfStream => r
                    | ReadRejects e => handle_failure e r
                    end in
       {| hook := {| state := hook_state final; abortControllerRef := false |};
          fetches := [request_of w content options];
          releases := [AtFinally];
          log := console final |}) ∧
    messages (hook_state r) = messages (state h) ++ [userMessage w content options] ∧
    isLoading (hook_state r) = true ∧
    error (hook_state r) = None ∧
    streamingContent (hook_state r) = String.concat "" (Controller.text_payloads events).
Proof.
  intros Hcontent Hidle [status Hfetch] Hback Hgo.
  set (r0 := begin w content options h).
  destruct (after_events_goes_on w events ending r0 Hgo)
    as (Hrun & (Hm & Hl & He & Hrel & Hcalls) & Hfull & Hstream).
  change (readerReleased r0) with false in Hrel.
  change (releaseLock_calls r0) with (@nil ReleaseSite) in Hcalls.
  change (messages (hook_state r0))
    with (messages (state h) ++ [userMessage w content options]) in Hm.
  change (isLoading (hook_state r0)) with true in Hl.
  change (error (hook_state r0)) with (@None string) in He.
  change (streamingContent (hook_state r0)) with "" in Hstream.
  change (fullAssistantContent r0) with "" in Hfull.
  exists (release_finally (after_events w events r0)).
  assert (Hfin : release_finally (after_events w events r0) =
                 {| hook_state := hook_state (after_events w events r0);
                    fullAssistantContent := fullAssistantContent (after_events w events r0);
                    currentSources := currentSources (after_events w events r0);
                    readerReleased := false;
                    releaseLock_calls := [AtFinally];
                    console := console (after_events w events r0) |}).
  { unfold release_finally. by rewrite Hrel, Hcalls. }
  split.
  - unfold Consumer.sendMessage, Consumer.sendMessage_from, Consumer.sendMessage_body. rewrite Hcontent, Hidle, Hfetch. cbn [orb negb].
    fold r0. unfold Consumer.consume. cbn [reads Consumer.ending].
    rewrite (read_loop_events w events [] ending r0 Hback), Hrun.
    destruct ending as [| e]; cbn [Delivery.exit_of Consumer.read_loop]; cbv zeta;
      f_equal; rewrite ?handle_failure_releases; by rewrite Hfin.
  - rewrite Hfin. cbn [hook_state]. rewrite Hm, Hl, He, Hstream.
    repeat split. destruct (Controller.text_payloads events) eqn:Hp; [done |].
    by rewrite Hfull.
Qed.

(** ** A stream that ends with an [error] event *)

Lemma error_stream_state w content options h pre text more ending :
  Js.is_empty (Js.trim content) = false →
  isLoading (state h) = false →
  let events := pre ++ [Controller.error_event text] in
  responds_with w content options events more ending →
  Forall reads_back events →
  Forall (λ e, Delivery.goes_on e = true) pre →
  let result := sendMessage w content options h in
  messages (state (hook result)) = messages (state h) ++ [userMessage w content options] ∧
  isLoading (state (hook result)) = false ∧
  streamingContent (state (hook result)) = "" ∧
  error (state (hook result)) = Some text ∧
  releases result = [AtError] ∧
  fetches result = [request_of w content options].
Proof.
  intros Hcontent Hidle events [status Hfetch] Hback Hgo result.
  set (r0 := begin w content options h).
  destruct (after_events_goes_on w pre ending r0 Hgo)
    as (_ & (Hm & _ & _ & Hrel & Hcalls) & _ & _).
  subst result. unfold Consumer.sendMessage, Consumer.sendMessage_from, Consumer.sendMessage_body.
  rewrite Hcontent, Hidle, Hfetch. cbn [orb negb]. fold r0.
  unfold Consumer.consume. cbn [reads Consumer.ending].
  rewrite (read_loop_events w events more ending r0 Hback).
  subst events. rewrite (run_events_app w pre _ ending r0 Hgo).
  set (r1 := after_events w pre r0) in *.
  cbn [Delivery.run_events]. unfold Consumer.dispatch.
  cbn [Transport.parsed Consumer.type Consumer.content StreamChunk.type
       StreamChunk.content Controller.error_event].
  unfold release_and_mark, release_finally, setState.
  cbn [readerReleased]. rewrite Hrel. cbn [r0 begin readerReleased].
  cbn [hook state releases fetches hook_state releaseLock_calls messages isLoading
       streamingContent error].
  by rewrite Hm, Hcalls.
Qed.

(** X11. An [error] event ends the call with its text as the error: the
    text streamed so far is dropped, no assistant turn is appended after
    the user turn, loading stops, the reader is released once, at the
    event, and whatever follows the event is never read. *)
Theorem error_event_ends_without_turn w content options h pre text more ending :
  Js.is_empty (Js.trim content) = false →
  isLoading (state h) = false →
  let events := pre ++ [Controller.error_event text] in
  responds_with w content options events more ending →
  Forall reads_back events →
  Forall (λ e, Delivery.goes_on e = true) pre →
  let result := sendMessage w content options h in
  messages (state (hook result)) = messages (state h) ++ [userMessage w content options] ∧
  isLoading (state (hook result)) = false ∧
  streamingContent (state (hook result)) = "" ∧
  error (state (hook result)) = Some text ∧
  releases result = [AtError] ∧
  fetches result = [request_of w content options].
Proof. apply error_stream_state. Qed.

(** ** A stream that ends without a closing event *)

(** X12. When the body ends after events none of which is [done] or
    [error], the hook stays loading: the user turn and the streamed text
    remain, and every later [sendMessage] is a no-op, also after
    [clearMessages]; only [stopStreaming] makes the hook send again. *)
Theorem cut_stream_leaves_hook_loading w content options h events :
  Js.is_empty (Js.trim content) = false →
  isLoading (state h) = false →
  responds_with w content options events [] EndOfStream →
  Forall reads_back events →
  Forall (λ e, Delivery.goes_on e = true) events →
  let result := sendMessage w content options h in
  isLoading (state (hook result)) = true ∧
  messages (state (hook result)) = messages (state h) ++ [userMessage w content options] ∧
  streamingContent (state (hook result)) =
    String.concat "" (Controller.text_payloads events) ∧
  error (state (hook result)) = None ∧
  releases result = [AtFinally] ∧
  (∀ w' content' options',
     sendMessage w' content' options' (hook result) = no_op (hook result)) ∧
  (∀ w' content' options',
     sendMessage w' content' options' (clearMessages (hook result))
       = no_op (clearMessages (hook result))) ∧
  (∀ w' content' options',
     Js.is_empty (Js.trim content') = false →
     fetches (sendMessage w' content' options' (stopStreaming (hook result)))
       = [request_of w' content' options']).
Proof.
  intros Hcontent Hidle Hresp Hback Hgo result.
  destruct (unfinished_stream w content options h events EndOfStream
              Hcontent Hidle Hresp Hback Hgo) as (r & Hsend & Hm & Hl & He & Hs).
  subst result. rewrite Hsend. cbv zeta. cbn [hook state releases].
  repeat split; try done.
  - intros w' content' options'. unfold Consumer.sendMessage, Consumer.sendMessage_from, Consumer.sendMessage_body, no_op.
    cbn [state]. rewrite Hl. by rewrite orb_true_r.
  - intros w' content' options'. unfold Consumer.sendMessage, Consumer.sendMessage_from, Consumer.sendMessage_body, no_op, clearMessages.
    cbn [state isLoading]. rewrite Hl. by rewrite orb_true_r.
  - intros w' content' options' Hc. unfold Consumer.sendMessage, Consumer.sendMessage_from, Consumer.sendMessage_body, stopStreaming.
    cbn [state isLoading]. by rewrite Hc.
Qed.

(** ** A read that fails *)

(** X13. When a read rejects after events none of which ends the stream,
    loading stops, the streamed text is dropped and no assistant turn is
    appended; the reader is released once, by the [finally].  An abort
    sets no error; any other failure shows the time-out text when its
    message mentions a time-out, else the network text when it mentions
    the network, else the message itself. *)
Theorem failed_read_outcome w content options h events e :
  Js.is_empty (Js.trim content) = false →
  isLoading (state h) = false →
  responds_with w content options events [] (ReadRejects e) →
  Forall reads_back events →
  Forall (λ e, Delivery.goes_on e = true) events →
  let result := sendMessage w content options h in
  messages (state (hook result)) = messages (state h) ++ [userMessage w content options] ∧
  isLoading (state (hook result)) = false ∧
  streamingContent (state (hook result)) = "" ∧
  releases result = [AtFinally] ∧
  error (state (hook result)) =
    (if String.eqb (exn_name e) "AbortError" then None
     else if Js.includes "timeout" (exn_message e)
          then Some "Request timed out. Please try again."
     else if Js.includes "network" (exn_message e)
          then Some "Network error. Please check your connection and try again."
     else Some (exn_message e)).
Proof.
  intros Hcontent Hidle Hresp Hback Hgo result.
  destruct (unfinished_stream w content options h events (ReadRejects e)
              Hcontent Hidle Hresp Hback Hgo) as (r & Hsend & Hm & Hl & He & Hs).
  subst result. rewrite Hsend. cbv zeta. cbn [hook state releases].
  unfold handle_failure.
  destruct (String.eqb (exn_name e) "AbortError");
    [| destruct (Js.includes "timeout" (exn_message e));
       [| destruct (Js.includes "network" (exn_message e))]];
    cbn [setState console_log hook_state messages isLoading streamingContent error];
    by rewrite ?Hm, ?He.
Qed.

(** ** A request that yields no stream *)

Lemma includes_needs_first_char c p s :
  Text.has_char c s = false → Js.includes (String c p) s = false.
Proof.
  induction s as [| c' s IH]; [done |].
  cbn [Text.has_char Js.includes String.prefix]. intros [Hc Hs]%orb_false_elim.
  rewrite (IH Hs), orb_false_r.
  destruct (ascii_dec c c') as [-> | Hne]; [| done].
  by rewrite Ascii.eqb_refl in Hc.
Qed.

Lemma digits_have_no_other_char c s :
  Text.is_digit c = false → Text.digits_only s = true → Text.has_char c s = false.
Proof.
  intros Hc. induction s as [| c' s IH]; [done |].
  cbn [Text.digits_only Text.has_char]. intros [Hd Hs]%andb_true_iff.
  rewrite (IH Hs), orb_false_r. apply Ascii.eqb_neq. congruence.
Qed.

Lemma pretty_N_go_digits x s :
  Text.digits_only s = true → Text.digits_only (pretty_N_go x s) = true.
Proof.
  revert s. induction (N.lt_wf_0 x) as [x _ IH]; intros s Hs.
  destruct (decide (0 < x)%N) as [Hx | Hx].
  - rewrite pretty_N_go_step by done. apply IH; [by apply N.div_lt |].
    cbn [Text.digits_only]. rewrite Hs, andb_true_r.
    unfold pretty_N_char. by repeat case_match.
  - assert (x = 0%N) as -> by lia. by rewrite pretty_N_go_0.
Qed.

Lemma pretty_nat_digits (n : nat) : Text.digits_only (pretty n) = true.
Proof.
  unfold pretty, pretty_nat, pretty, pretty_N.
  destruct (decide (N.of_nat n = 0%N)); [done |]. by apply pretty_N_go_digits.
Qed.

Lemma status_text_verbatim (status : nat) :
  Js.includes "timeout" ("HTTP error! status: " +:+ pretty status) = false ∧
  Js.includes "network" ("HTTP error! status: " +:+ pretty status) = false.
Proof.
  pose proof (pretty_nat_digits status) as Hd.
  split.
  - change (Js.includes "timeout" (pretty status) = false).
    by apply includes_needs_first_char, digits_have_no_other_char.
  - change (Js.includes "network" (pretty status) = false).
    by apply includes_needs_first_char, digits_have_no_other_char.
Qed.

(** X14. A request that yields no readable stream ends the call with the
    user turn only, loading stopped and no reader released.  A response
    that is not [ok] shows [HTTP error! status: ] followed by the status
    code, whatever the code is; a response without a body shows
    [Failed to get response reader]; an aborted request shows nothing. *)
Theorem request_without_stream_outcome w content options h :
  Js.is_empty (Js.trim content) = false →
  isLoading (state h) = false →
  acquired_reader w content options h = None →
  let result := sendMessage w content options h in
  messages (state (hook result)) = messages (state h) ++ [userMessage w content options] ∧
  isLoading (state (hook result)) = false ∧
  streamingContent (state (hook result)) = "" ∧
  releases result = [] ∧
  fetches result = [request_of w content options] ∧
  (∀ status body,
     fetch w (request_of w content options) = FetchResponds false status body →
     error (state (hook result)) = Some ("HTTP error! status: " +:+ pretty status)) ∧
  (∀ status,
     fetch w (request_of w content options) = FetchResponds true status None →
     error (state (hook result)) = Some "Failed to get response reader") ∧
  (∀ e,
     fetch w (request_of w content options) = FetchRejects e →
     exn_name e = "AbortError" →
     error (state (hook result)) = None).
Proof.
  intros Hcontent Hidle Hnone result. subst result.
  unfold Consumer.acquired_reader in Hnone. rewrite Hcontent, Hidle in Hnone.
  cbn [orb] in Hnone.
  unfold Consumer.sendMessage, Consumer.sendMessage_from, Consumer.sendMessage_body. rewrite Hcontent, Hidle. cbn [orb].
  set (r0 := begin w content options h).
  assert (Hfail : ∀ e,
    messages (hook_state (handle_failure e r0)) =
      messages (state h) ++ [userMessage w content options] ∧
    isLoading (hook_state (handle_failure e r0)) = false ∧
    streamingContent (hook_state (handle_failure e r0)) = "" ∧
    releaseLock_calls (handle_failure e r0) = []).
  { intros e. unfold handle_failure. by destruct (String.eqb _ _). }
  destruct (fetch w (request_of w content options)) as [e | [|] status [reader |]] eqn:Hf;
    [| done | | |]; cbn [negb hook state releases fetches];
    (destruct (Hfail e) as (-> & -> & -> & ->) ||
     destruct (Hfail (new_Error "Failed to get response reader")) as (-> & -> & -> & ->) ||
     destruct (Hfail (new_Error ("HTTP error! status: " +:+ pretty status)))
       as (-> & -> & -> & ->));
    repeat split; try done.
  - intros e' [= <-] Habort. unfold handle_failure. by rewrite Habort.
  - intros status' body [= <- <-]. unfold handle_failure, new_Error.
    cbn [exn_name exn_message String.eqb Ascii.eqb Bool.eqb].
    by destruct (status_text_verbatim status) as [-> ->].
  - intros status' body [= <- <-]. unfold handle_failure, new_Error.
    cbn [exn_name exn_message String.eqb Ascii.eqb Bool.eqb].
    by destruct (status_text_verbatim status) as [-> ->].
Qed.

(** ** Turns over an arbitrary stream *)

Lemma dispatch_turns w data r :
  error (hook_state r) = None → Delivery.turn_step r (dispatch w data r).
Proof.
  intros He. unfold Consumer.dispatch, Delivery.turn_step.
  destruct (type data) as [[] |]; cbn [fst snd]; try done.
  - by destruct (JSON_parse_sources (content data)).
  - unfold release_and_mark. cbn [readerReleased setState].
    destruct (readerReleased r); cbn [hook_state messages error isLoading];
      (split; [by eexists | done]).
  - unfold release_and_mark. cbn [readerReleased setState].
    destruct (readerReleased r); cbn [hook_state messages error isLoading]; done.
Qed.

Lemma process_line_turns w line r :
  error (hook_state r) = None → Delivery.turn_step r (process_line w line r).
Proof.
  intros He. unfold Consumer.process_line.
  destruct (Js.startsWith DATA_PREFIX line); [| done].
  destruct (Js.is_empty _); [done |].
  destruct (JSON_parse_chunk _); [by apply dispatch_turns | done].
Qed.

Lemma process_lines_turns w lines r :
  error (hook_state r) = None → Delivery.turn_step r (process_lines w lines r).
Proof.
  revert r. induction lines as [| line rest IH]; intros r He; [done |].
  cbn [Consumer.process_lines].
  pose proof (process_line_turns w line r He) as Hstep.
  destruct (process_line w line r) as [r' [t |]]; [exact Hstep |].
  destruct Hstep as [Hm He']. cbn [fst] in Hm, He'.
  specialize (IH r' He'). unfold Delivery.turn_step in *.
  destruct (process_lines w rest r') as [r'' [[] |]]; cbn [fst snd] in *;
    by rewrite <- Hm.
Qed.

Lemma read_loop_turns w chunks ending r :
  error (hook_state r) = None →
  let out := read_loop w chunks ending r in
  match out.2 with
  | Returned t => Delivery.turn_step r (out.1, Some t)
  | Exhausted | ReadThrew _ => Delivery.turn_step r (out.1, None)
  end.
Proof.
  revert r. induction chunks as [| chunk rest IH]; intros r He.
  - cbn. by destruct ending.
  - cbn [Consumer.read_loop].
    pose proof (process_lines_turns w (Js.split Js.LF chunk) r He) as Hstep.
    destruct (process_lines w (Js.split Js.LF chunk) r) as [r' [t |]]; [exact Hstep |].
    destruct Hstep as [Hm He']. cbn [fst] in Hm, He'.
    specialize (IH r' He'). cbv zeta in IH. unfold Delivery.turn_step in *.
    destruct (read_loop w rest ending r') as [r'' [[] | |]]; cbn [fst snd] in *;
      by rewrite <- Hm.
Qed.

Lemma handle_failure_turns e r :
  messages (hook_state (handle_failure e r)) = messages (hook_state r) ∧
  isLoading (hook_state (handle_failure e r)) = false.
Proof. unfold handle_failure. by destruct (String.eqb _ _). Qed.

Lemma sendMessage_turns w content options h :
  let result := sendMessage w content options h in
  result = no_op h ∨
  (fetches result = [request_of w content options] ∧
   abortControllerRef (hook result) = false ∧
   (messages (state (hook result)) =
      messages (state h) ++ [userMessage w content options] ∨
    ∃ turn,
      messages (state (hook result)) =
        messages (state h) ++ [userMessage w content options; turn] ∧
      Message.role turn = assistant ∧
      error (state (hook result)) = None ∧
      isLoading (state (hook result)) = false)).
Proof.
  cbv zeta. unfold Consumer.sendMessage, Consumer.sendMessage_from, Consumer.sendMessage_body, no_op.
  destruct (Js.is_empty (Js.trim content) || isLoading (state h)); [by left | right].
  cbn [fetches hook abortControllerRef state]. do 2 (split; [done |]).
  set (r0 := begin w content options h).
  assert (Hfail : ∀ e, messages (hook_state (handle_failure e r0)) =
                       messages (state h) ++ [userMessage w content options]).
  { intros e. by destruct (handle_failure_turns e r0) as [-> _]. }
  destruct (fetch w _) as [e | [|] status [reader |]]; cbn [negb]; try by left.
  unfold Consumer.consume.
  pose proof (read_loop_turns w (reads reader) (Consumer.ending reader) r0 eq_refl) as H.
  cbv zeta in H.
  destruct (read_loop w (reads reader) (Consumer.ending reader) r0) as [r' exit].
  unfold Delivery.turn_step in H. cbn [fst snd] in H.
  assert (Hhook : hook_state (release_finally r') = hook_state r').
  { unfold release_finally. by destruct (readerReleased r'). }
  destruct exit as [[] | | e].
  - right. rewrite Hhook. destruct H as ((turn & Hm & Hrole) & He & Hl).
    exists turn. rewrite Hm. cbn [r0 begin hook_state messages].
    by rewrite <- app_assoc.
  - left. rewrite Hhook. by destruct H as (-> & _).
  - left. rewrite Hhook. by destruct H as (-> & _).
  - left. destruct (handle_failure_turns e (release_finally r')) as [-> _].
    rewrite Hhook. by destruct H as (-> & _).
Qed.

(** X15. Whatever the transport delivers, a call that is not a no-op
    issues one request, clears the abort-controller ref, keeps every
    earlier turn in place and appends the user turn, followed by at most
    one assistant turn; an assistant turn is appended only in an outcome
    without an error and with loading stopped. *)
Theorem sendMessage_only_appends w content options h :
  let result := sendMessage w content options h in
  result = no_op h ∨
  (fetches result = [request_of w content options] ∧
   abortControllerRef (hook result) = false ∧
   (messages (state (hook result)) =
      messages (state h) ++ [userMessage w content options] ∨
    ∃ turn,
      messages (state (hook result)) =
        messages (state h) ++ [userMessage w content options; turn] ∧
      Message.role turn = assistant ∧
      error (state (hook result)) = None ∧
      isLoading (state (hook result)) = false)).
Proof. apply sendMessage_turns. Qed.

(** ** The controller and the hook on one exchange *)

(** X16. What the hook shows agrees with what the controller stores.
    When the hook reads back the events the controller emits for a
    request that reaches the model: if the model completes, the hook ends
    with the user turn followed by one assistant turn whose content is
    the concatenation of the increments and whose metadata holds the
    sources that were sent; when the write goes through, the row stored
    under the assistant id has that same content, and when the write
    fails the table is as it was; if the model fails, the hook ends with the user turn only and the generic error,
    and the table is as it was. *)
Theorem hook_agrees_with_store
    (JSON_stringify : list DocumentSource.t → string)
    cw project pm message sessionId style d served completion
    w content options h more ending :
  Controller.delivered cw project pm message style = Some (served, completion) →
  let final :=
    (Controller.start JSON_stringify cw project pm message sessionId style
       (Controller.open_stream d)).1 in
  let full := String.concat "" (Controller.increments (Controller.deltas completion)) in
  Js.is_empty (Js.trim content) = false →
  isLoading (state h) = false →
  responds_with w content options (Controller.enqueued final) more ending →
  Forall reads_back (Controller.enqueued final) →
  JSON_parse_sources (JSON_stringify served) = Some served →
  let result := sendMessage w content options h in
  if Controller.rejects completion then
    messages (state (hook result)) =
      messages (state h) ++ [userMessage w content options] ∧
    error (state (hook result)) = Some Controller.generic_error ∧
    Controller.db final = d
  else
    ∃ turn,
      messages (state (hook result)) =
        messages (state h) ++ [userMessage w content options; turn] ∧
      Message.role turn = assistant ∧
      Message.content turn = full ∧
      MessageMetadata.sources <$> Message.metadata turn = Some (Some served) ∧
      error (state (hook result)) = None ∧
      (if Controller.write_failed cw d
            (Controller.persisted_turns project sessionId message full)
       then Controller.messages (Controller.db final) = Controller.messages d
       else MessageRow.content <$>
              Controller.messages (Controller.db final)
                !! (Js.to_string sessionId +:+ "-assistant") = Some full).
Proof.
  intros Hd final full Hcontent Hidle Hresp Hback Hsources result.
  subst final result.
  rewrite (start_delivered JSON_stringify _ _ _ _ sessionId _ d _ _ Hd) in *.
  destruct (Controller.rejects completion); cbn [fst Controller.enqueued Controller.db] in *.
  - change (Controller.sources_event JSON_stringify served ::
            (Controller.text_event <$> Controller.increments (Controller.deltas completion)) ++
            [Controller.error_event "An error occurred while processing your message"])
      with ((Controller.sources_event JSON_stringify served ::
             (Controller.text_event <$> Controller.increments (Controller.deltas completion))) ++
            [Controller.error_event Controller.generic_error]) in *.
    destruct (error_stream_state w content options h _ _ more ending
                Hcontent Hidle Hresp Hback) as (Hm & _ & _ & He & _).
    { constructor; [done | apply text_events_go_on]. }
    done.
  - destruct (completed_stream_state w content options h _ served _ more ending
                Hcontent Hidle Hresp Hback Hsources) as (Hstate & _).
    rewrite Hstate. cbn [messages error]. eexists. split; [reflexivity |].
    repeat split.
    cbn [Controller.messages]. fold full.
    destruct (after_write_turns cw d project sessionId message full)
      as [[-> Hsame] | (-> & _ & _ & Hw)]; [done |].
    rewrite Hw. by rewrite lookup_insert_eq.
Qed.

(** ** What the hook sends *)

Lemma trimEnd_idempotent s : Js.trimEnd (Js.trimEnd s) = Js.trimEnd s.
Proof.
  induction s as [| c s IH]; [done |].
  cbn [Js.trimEnd]. destruct (Js.trimEnd s) as [| c' r] eqn:Hr.
  - destruct (Js.is_white_space c) eqn:Hc; [done |]. cbn [Js.trimEnd]. by rewrite Hc.
  - cbn [Js.trimEnd]. cbn [Js.trimEnd] in IH. by rewrite IH.
Qed.

Lemma trimEnd_keeps_head c s :
  Js.is_white_space c = false → ∃ r, Js.trimEnd (String c s) = String c r.
Proof.
  intros Hc. cbn [Js.trimEnd]. destruct (Js.trimEnd s); [rewrite Hc |]; by eexists.
Qed.

Lemma trimStart_head s :
  Js.trimStart s = "" ∨
  ∃ c r, Js.trimStart s = String c r ∧ Js.is_white_space c = false.
Proof.
  induction s as [| c s IH]; [by left |].
  cbn [Js.trimStart]. destruct (Js.is_white_space c) eqn:Hc; [done |].
  right. by exists c, s.
Qed.

Lemma trim_idempotent s : Js.trim (Js.trim s) = Js.trim s.
Proof.
  unfold Js.trim. destruct (trimStart_head s) as [-> | (c & r & -> & Hc)]; [done |].
  destruct (trimEnd_keeps_head c r Hc) as [r' Hr]. rewrite Hr.
  cbn [Js.trimStart]. rewrite Hc, <- Hr. apply trimEnd_idempotent.
Qed.

(** X17. Every request the hook issues passes the controller's check of
    the message: the message sent is the trimmed content, which is not
    empty, and the context style sent is never empty, so a handler that
    receives that body does not answer with status 400. *)
Theorem hook_requests_pass_validation
    (JSON_stringify : list DocumentSource.t → string) w content options h req :
  req ∈ fetches (sendMessage w content options h) →
  req_message req = Js.trim content ∧
  req_message req ≠ "" ∧
  req_contextStyle req ≠ "" ∧
  ∀ cw d project body,
    Controller.requestBody cw = Some body →
    Controller.message body = Js.Str (req_message req) →
    ∀ text, Controller.POST JSON_stringify cw d project ≠ Controller.Plain 400 text.
Proof.
  unfold Consumer.sendMessage, Consumer.sendMessage_from, Consumer.sendMessage_body.
  destruct (Js.is_empty (Js.trim content)) eqn:Hc; [by intros ?%elem_of_nil |].
  destruct (isLoading (state h)); [by intros ?%elem_of_nil |].
  cbn [orb fetches]. intros ->%list_elem_of_singleton.
  cbn [Consumer.request_of req_message req_contextStyle].
  assert (Hne : Js.trim content ≠ "") by (by destruct (Js.trim content)).
  repeat split; [done | |].
  - unfold or_default. destruct (contextStyle options) as [s |]; [| done].
    destruct (Js.is_empty s) eqn:Hs; [done |]. by destruct s.
  - intros cw d project body Hbody Hmessage text. unfold Controller.POST.
    destruct (Controller.sessionUserId cw) as [uid |]; [| done].
    destruct (Js.is_empty uid); [done |].
    destruct (Controller.findFirst d project uid); [| done].
    rewrite Hbody, Hmessage. cbn [Js.truthy Js.is_string]. rewrite Hc.
    cbn [negb orb]. by destruct (Controller.start _ _ _ _ _ _ _ _).
Qed.

(** X18. The submit handler of the message input does nothing when the
    input is blank or the hook is loading; otherwise it clears the text
    and the images of the input, keeps the chosen context style, and has
    the hook send the trimmed text with that style and those images, the
    default style standing in for an empty one. *)
Theorem submit_sends_trimmed_input w input h :
  (handleSubmit w input h = None ↔
     Js.trim (Retry.value input) = "" ∨ isLoading (state h) = true) ∧
  ∀ input' result,
    handleSubmit w input h = Some (input', result) →
    Retry.value input' = "" ∧
    Retry.input_images input' = [] ∧
    Retry.input_contextStyle input' = Retry.input_contextStyle input ∧
    fetches result =
      [ {| url := "/api/chat/" +:+ projectId +:+ "/stream";
           req_message := Js.trim (Retry.value input);
           req_sessionId := requestSessionId w;
           req_contextStyle :=
             if Js.is_empty (Retry.input_contextStyle input) then "detailed"
             else Retry.input_contextStyle input;
           req_images := Retry.input_images input |} ] ∧
    ∃ rest,
      messages (state (hook result)) =
        messages (state h) ++
        {| Message.id := userMessageId w +:+ "_user"; Message.role := user;
           Message.content := Js.trim (Retry.value input);
           Message.images := Some (Retry.input_images input);
           Message.metadata := None;
           Message.createdAt := userCreatedAt w |} :: rest.
Proof.
  unfold Retry.handleSubmit.
  destruct (Js.is_empty (Js.trim (Retry.value input))) eqn:Hv.
  { split; [| done]. split; [| done]. intros _. left. by destruct (Js.trim _). }
  destruct (isLoading (state h)) eqn:Hl; cbn [orb].
  { split; [| done]. split; [| done]. intros _. by right. }
  split.
  { split; [done |]. intros [Hblank | ?]; [| done]. by rewrite Hblank in Hv. }
  intros input' result [= <- <-]. cbn [Retry.value Retry.input_images Retry.input_contextStyle].
  do 3 (split; [done |]).
  pose proof (sendMessage_turns w (Js.trim (Retry.value input))
    {| contextStyle := Some (Retry.input_contextStyle input);
       opt_images := Some (Retry.input_images input) |} h) as H.
  cbv zeta in H. destruct H as [Hnoop | (Hf & _ & Hm)].
  - exfalso. apply (f_equal fetches) in Hnoop. revert Hnoop.
    unfold Consumer.sendMessage, Consumer.sendMessage_from, Consumer.sendMessage_body. by rewrite trim_idempotent, Hv, Hl.
  - rewrite Hf. unfold Consumer.request_of, userMessage in *.
    cbn [contextStyle opt_images or_default] in *. rewrite trim_idempotent in *.
    split; [done |].
    destruct Hm as [-> | (turn & -> & _)]; by eexists.
Qed.

(** X19. Retrying with the hook idle sends the content of the last user
    turn again, with its images and the default context style.  The
    earlier user turn stays in the list and a new user turn with the same
    content is appended after the turns that are kept, so the list then
    holds that content twice; of the turns after the last user turn, the
    assistant turns created later than it are removed. *)
Theorem retry_resends_last_user_turn w h before last after :
  messages (state h) = before ++ last :: after →
  Message.role last = user →
  Forall (λ msg, Message.role msg ≠ user) after →
  isLoading (state h) = false →
  Js.is_empty (Js.trim (Message.content last)) = false →
  let result := retryLastMessage w h in
  let keep := List.filter (Retry.kept_on_retry last) in
  fetches result =
    [ {| url := "/api/chat/" +:+ projectId +:+ "/stream";
         req_message := Js.trim (Message.content last);
         req_sessionId := requestSessionId w;
         req_contextStyle := "detailed";
         req_images := default [] (Message.images last) |} ] ∧
  (∃ resent rest,
     messages (state (hook result)) = keep before ++ last :: keep after ++ resent :: rest ∧
     Message.role resent = user ∧
     Message.content resent = Js.trim (Message.content last) ∧
     (∀ typed, Message.content last = Js.trim typed →
               Message.content resent = Message.content last)) ∧
  Forall (λ msg, Message.role msg = assistant →
                 Message.createdAt msg ≤ Message.createdAt last) (keep after).
Proof.
  intros Hmessages Hrole Hafter Hidle Hcontent result keep.
  assert (Hlast : Retry.lastUserMessage (state h) = Some last).
  { unfold Retry.lastUserMessage. rewrite Hmessages, reverse_app, reverse_cons.
    rewrite <- app_assoc. cbn [app].
    assert (Hnone : ∀ l tail, Forall (λ msg, Message.role msg ≠ user) l →
      List.find (λ msg, bool_decide (Message.role msg = user)) (l ++ tail) =
      List.find (λ msg, bool_decide (Message.role msg = user)) tail).
    { intros l tail Hl. induction Hl as [| m l Hm _ IH]; [done |].
      cbn [app List.find]. by rewrite bool_decide_eq_false_2. }
    rewrite Hnone by (by apply Forall_reverse).
    cbn [List.find]. by rewrite bool_decide_eq_true_2. }
  subst result. unfold Retry.retryLastMessage. rewrite Hlast. cbv zeta.
  set (h' := {| state := _; abortControllerRef := _ |}).
  set (options := {| contextStyle := None; opt_images := Message.images last |}).
  pose proof (sendMessage_turns w (Message.content last) options h') as H.
  cbv zeta in H. destruct H as [Hnoop | (Hf & _ & Hm)].
  { exfalso. apply (f_equal fetches) in Hnoop. revert Hnoop.
    unfold Consumer.sendMessage, Consumer.sendMessage_from, Consumer.sendMessage_body. cbn [h' state isLoading]. by rewrite Hcontent, Hidle. }
  assert (Hkept : messages (state h') = keep before ++ last :: keep after).
  { cbn [h' state messages]. rewrite Hmessages. unfold keep.
    rewrite List.filter_app. cbn [List.filter].
    unfold Retry.kept_on_retry at 2. rewrite Hrole.
    by rewrite bool_decide_eq_false_2. }
  split; [| split].
  - rewrite Hf. unfold Consumer.request_of, or_default. cbn [options contextStyle opt_images].
    by destruct (Message.images last).
  - exists (userMessage w (Message.content last) options).
    assert (Htrim : ∀ typed, Message.content last = Js.trim typed →
                    Js.trim (Message.content last) = Message.content last).
    { intros typed ->. apply trim_idempotent. }
    destruct Hm as [Hm | (turn & Hm & _)]; rewrite Hm, Hkept, <- app_assoc;
      cbn [app]; eexists; (split; [reflexivity | done]).
  - unfold keep. apply Forall_forall. intros msg [_ Hk]%list_elem_of_In%List.filter_In Hassistant.
    unfold Retry.kept_on_retry in Hk. rewrite Hassistant in Hk.
    rewrite bool_decide_eq_true_2 in Hk by done. cbn [andb] in Hk.
    apply negb_true_iff, Z.ltb_ge in Hk. done.
Qed.

End ConsumerMore.


(** * The message routes *)

Section MessageRoutesFacts.

Import Controller MessageRoutes.

Lemma findMessage_Some d id userId row :
  findMessage d id userId = Some row ↔
  messages d !! id = Some row ∧ projects d !! MessageRow.projectId row = Some userId.
Proof.
  unfold findMessage. split.
  - destruct (messages d !! id) as [r |]; [| done]. cbn.
    destruct (projects d !! MessageRow.projectId r) as [owner |] eqn:Ho; [| done]. cbn.
    destruct (decide (owner = userId)) as [-> |]; [| done]. by intros [= ->].
  - intros [-> Ho]. cbn. rewrite Ho. cbn. by rewrite decide_True.
Qed.

Lemma findMessage_updated d id userId row row' :
  findMessage d id userId = Some row →
  MessageRow.projectId row' = MessageRow.projectId row →
  findMessage (with_messages d (<[id := row']> (messages d))) id userId = Some row'.
Proof.
  intros [_ Howner]%findMessage_Some Hp. apply findMessage_Some.
  cbn [with_messages messages projects]. rewrite lookup_insert_eq, Hp. done.
Qed.

(** ** Soft delete and restore *)

(** X20. Soft-deleting a turn and restoring it gives the turn back: the
    soft delete marks the row and stamps [deletedAt], the restore clears
    both, and after the two calls the table differs from the original one
    at most in that row's [isDeleted], [deletedAt] and [updatedAt].  A
    turn that is not soft-deleted cannot be restored. *)
Theorem soft_delete_restore_round_trip w w' id d userId row :
  authenticate w = inr userId →
  authenticate w' = inr userId →
  findMessage d id userId = Some row →
  let deleted := DELETE w false id d in
  let restored :=
    {| MessageRow.projectId := MessageRow.projectId row;
       MessageRow.content := MessageRow.content row;
       MessageRow.role := MessageRow.role row;
       MessageRow.isDeleted := false;
       MessageRow.deletedAt := None;
       MessageRow.editHistory := MessageRow.editHistory row;
       MessageRow.lastEditedAt := MessageRow.lastEditedAt row;
       MessageRow.metadata := MessageRow.metadata row;
       MessageRow.createdAt := MessageRow.createdAt row;
       MessageRow.updatedAt := date w' 0 |} in
  (∃ marked,
     deleted.1 = Deleted "Message deleted" false (Some marked) ∧
     messages deleted.2 !! id = Some marked ∧
     MessageRow.isDeleted marked = true ∧
     MessageRow.deletedAt marked = Some (date w 0)) ∧
  restore w' id deleted.2 =
    (Restored "Message restored successfully" restored,
     with_messages d (<[id := restored]> (messages d))) ∧
  (MessageRow.isDeleted row = false →
   restore w' id d = (Failure 404 "Deleted message not found", d)).
Proof.
  intros Hw Hw' Hfind deleted restored. subst deleted. unfold DELETE.
  rewrite Hw, Hfind. cbn [fst snd]. split; [| split].
  - eexists. split; [reflexivity |]. cbn [with_messages messages].
    by rewrite lookup_insert_eq.
  - unfold restore. rewrite Hw'.
    erewrite findMessage_updated by done.
    cbn [MessageRow.isDeleted]. subst restored.
    cbn [MessageRow.projectId MessageRow.content MessageRow.role MessageRow.editHistory
         MessageRow.lastEditedAt MessageRow.metadata MessageRow.createdAt].
    f_equal. unfold with_messages. cbn [projects messages].
    by rewrite insert_insert_eq.
  - intros Hlive. unfold restore. by rewrite Hw', Hfind, Hlive.
Qed.

(** ** Edits *)

(** X21. An accepted edit appends exactly one entry to the edit history,
    holding the content the turn had before the edit and the time of the
    edit, also when the new content equals the old one or is left out;
    the role, the project, the creation time, the metadata and the
    soft-delete marker of the turn stay as they were. *)
Theorem edit_appends_history w body id d updated d' :
  PATCH w (Some body) id d = (Updated updated, d') →
  ∃ row,
    messages d !! id = Some row ∧
    messages d' !! id = Some updated ∧
    MessageRow.editHistory updated =
      Some (default [] (MessageRow.editHistory row) ++
            [(MessageRow.content row, date w 0)]) ∧
    MessageRow.content updated =
      match patch_content body with
      | Js.Str content => content
      | _ => MessageRow.content row
      end ∧
    MessageRow.lastEditedAt updated = Some (date w 1) ∧
    MessageRow.role updated = MessageRow.role row ∧
    MessageRow.projectId updated = MessageRow.projectId row ∧
    MessageRow.createdAt updated = MessageRow.createdAt row ∧
    MessageRow.metadata updated = MessageRow.metadata row ∧
    MessageRow.isDeleted updated = MessageRow.isDeleted row.
Proof.
  unfold PATCH. destruct (sessionEmail w) as [email |]; [| done].
  destruct (Js.is_empty email); [done |].
  destruct (users w !! email) as [userId |]; [| done].
  destruct (findMessage d id userId) as [row |] eqn:Hfind; [| done].
  destruct (_ && _); [done |].
  apply findMessage_Some in Hfind as [Hrow _].
  destruct (patch_content body); intros [= <- <-]; exists row;
    cbn [with_messages messages]; rewrite lookup_insert_eq; done.
Qed.

(** ** Confinement *)

(** X22. A call of one of the three handlers changes at most the row it
    names, never the projects, and changes that row only when the caller
    is a signed-in user who owns the project of the row; every refusal
    leaves the database as it was. *)
Theorem routes_change_only_own_row w id d :
  ∀ outcome,
    (∃ body, outcome = PATCH w body id d) ∨
    (∃ permanent, outcome = DELETE w permanent id d) ∨
    outcome = restore w id d →
    projects outcome.2 = projects d ∧
    (∀ k, k ≠ id → messages outcome.2 !! k = messages d !! k) ∧
    (messages outcome.2 !! id ≠ messages d !! id →
     ∃ email userId row,
       sessionEmail w = Some email ∧ users w !! email = Some userId ∧
       messages d !! id = Some row ∧
       projects d !! MessageRow.projectId row = Some userId) ∧
    (∀ status error, outcome.1 = Failure status error → outcome.2 = d).
Proof.
  assert (Hsame : ∀ response : Response,
    projects d = projects d ∧
    (∀ k, k ≠ id → messages d !! k = messages d !! k) ∧
    (messages d !! id ≠ messages d !! id →
     ∃ email userId row,
       sessionEmail w = Some email ∧ users w !! email = Some userId ∧
       messages d !! id = Some row ∧
       projects d !! MessageRow.projectId row = Some userId) ∧
    (∀ status error, response = Failure status error → d = d)) by done.
  assert (Hchanged : ∀ (response : Response) table email userId row,
    sessionEmail w = Some email → users w !! email = Some userId →
    findMessage d id userId = Some row →
    (∀ k, k ≠ id → table !! k = messages d !! k) →
    (∀ status error, response ≠ Failure status error) →
    projects (with_messages d table) = projects d ∧
    (∀ k, k ≠ id → messages (with_messages d table) !! k = messages d !! k) ∧
    (messages (with_messages d table) !! id ≠ messages d !! id →
     ∃ email userId row,
       sessionEmail w = Some email ∧ users w !! email = Some userId ∧
       messages d !! id = Some row ∧
       projects d !! MessageRow.projectId row = Some userId) ∧
    (∀ status error, response = Failure status error → with_messages d table = d)).
  { intros response table email userId row He Hu [Hrow Ho]%findMessage_Some Hk Hr.
    repeat split; [done | | by intros ?? ?%Hr].
    intros _. by exists email, userId, row. }
  intros outcome [[body ->] | [[permanent ->] | ->]].
  - unfold PATCH. destruct (sessionEmail w) as [email |] eqn:He; [| apply Hsame].
    destruct (Js.is_empty email); [apply Hsame |].
    destruct body as [body |]; [| apply Hsame].
    destruct (users w !! email) as [userId |] eqn:Hu; [| apply Hsame].
    destruct (findMessage d id userId) as [row |] eqn:Hfind; [| apply Hsame].
    destruct (_ && _); [apply Hsame |].
    destruct (patch_content body); try apply Hsame; cbn [fst snd];
      (eapply Hchanged; [done .. | | done]);
      intros k Hk; by rewrite lookup_insert_ne.
  - unfold DELETE, authenticate.
    destruct (sessionEmail w) as [email |] eqn:He; [| apply Hsame].
    destruct (Js.is_empty email); [apply Hsame |].
    destruct (users w !! email) as [userId |] eqn:Hu; [| apply Hsame].
    destruct (findMessage d id userId) as [row |] eqn:Hfind; [| apply Hsame].
    destruct permanent; cbn [fst snd]; (eapply Hchanged; [done .. | | done]);
      intros k Hk; by rewrite ?lookup_insert_ne, ?lookup_delete_ne.
  - unfold restore, authenticate.
    destruct (sessionEmail w) as [email |] eqn:He; [| apply Hsame].
    destruct (Js.is_empty email); [apply Hsame |].
    destruct (users w !! email) as [userId |] eqn:Hu; [| apply Hsame].
    destruct (findMessage d id userId) as [row |] eqn:Hfind; [| apply Hsame].
    destruct (MessageRow.isDeleted row); [| apply Hsame].
    cbn [fst snd]. eapply Hchanged; [done .. | | done].
    intros k Hk; by rewrite lookup_insert_ne.
Qed.

(** ** The routes and the history of the stream handler *)

Lemma filter_others_insert (P : string * MessageRow.t → Prop)
    `{!∀ x, Decision (P x)} id (row' : MessageRow.t) (m : gmap string MessageRow.t) :
  (∀ kv, P kv → kv.1 ≠ id) → filter P (<[id := row']> m) = filter P m.
Proof.
  intros HP. apply map_eq. intros k. apply option_eq. intros r.
  rewrite !map_lookup_filter_Some. destruct (decide (k = id)) as [-> | Hk].
  - split; intros [_ Hkv%HP]; done.
  - by rewrite lookup_insert_ne.
Qed.

Lemma recent_after_update d id row row' :
  messages d !! id = Some row →
  MessageRow.projectId row' = MessageRow.projectId row →
  MessageRow.createdAt row' = MessageRow.createdAt row →
  (size (filter (λ kv, MessageRow.projectId kv.2 = MessageRow.projectId row ∧
                       kv.1 ≠ id ∧
                       (MessageRow.createdAt row ≤ MessageRow.createdAt kv.2)%Z)
                (messages d)) < 6)%nat →
  (id, row') ∈ recentMessages
                 (include_messages (with_messages d (<[id := row']> (messages d)))
                    (MessageRow.projectId row)).
Proof.
  intros Hrow Hp Hc Hsize. apply recent_complete.
  - cbn [with_messages messages]. apply lookup_insert_eq.
  - done.
  - cbn [with_messages messages]. rewrite Hc.
    rewrite filter_others_insert; [done |]. by intros kv (_ & ? & _).
Qed.

(** X23. What the stream handler's history makes of the routes' work.
    For a turn that fewer than six other turns of its project are at
    least as new as: after a soft delete the marked turn is still in the
    history and is handed to the model with its role and content; after
    an edit the model gets the new content; after a permanent delete no
    history holds the turn. *)
Theorem history_after_route_calls w id d userId row :
  authenticate w = inr userId →
  findMessage d id userId = Some row →
  (size (filter (λ kv, MessageRow.projectId kv.2 = MessageRow.projectId row ∧
                       kv.1 ≠ id ∧
                       (MessageRow.createdAt row ≤ MessageRow.createdAt kv.2)%Z)
                (messages d)) < 6)%nat →
  let history d' := recentMessages (include_messages d' (MessageRow.projectId row)) in
  (∃ marked,
     (id, marked) ∈ history (DELETE w false id d).2 ∧
     MessageRow.isDeleted marked = true ∧
     ∀ style sources message,
       {| role := MessageRow.role row; content := MessageRow.content row |}
         ∈ messagesForLLM style sources (history (DELETE w false id d).2) message) ∧
  (∀ body content style sources message,
     patch_content body = Js.Str content →
     Js.truthy (patch_role body) = false →
     {| role := MessageRow.role row; content := content |}
       ∈ messagesForLLM style sources (history (PATCH w (Some body) id d).2) message) ∧
  (∀ projectId turn, (id, turn) ∉ include_messages (DELETE w true id d).2 projectId).
Proof.
  intros Hw Hfind Hsize history.
  pose proof Hfind as [Hrow Howner]%findMessage_Some.
  assert (Hprompt : ∀ d' row' style sources message,
    (id, row') ∈ history d' →
    {| role := MessageRow.role row'; content := MessageRow.content row' |}
      ∈ messagesForLLM style sources (history d') message).
  { intros d' row' style sources message Hin.
    rewrite messagesForLLM_layout. rewrite !elem_of_app. right. right. left.
    by apply (list_elem_of_fmap_2 as_chat_message) in Hin. }
  split; [| split].
  - unfold DELETE. rewrite Hw, Hfind. cbn [snd].
    set (marked := {| MessageRow.isDeleted := true |}).
    assert (Hin : (id, marked) ∈ history (with_messages d (<[id := marked]> (messages d))))
      by by apply recent_after_update.
    exists marked. repeat split; [done |].
    intros style sources message.
    apply (Hprompt _ marked style sources message Hin).
  - intros body content style sources message Hcontent Hrole.
    unfold PATCH. unfold authenticate in Hw.
    destruct (sessionEmail w) as [email |]; [| done].
    destruct (Js.is_empty email); [done |].
    destruct (users w !! email) as [u |]; [| done]. injection Hw as ->.
    rewrite Hfind, Hrole, Hcontent. cbn [andb snd].
    set (updated := {| MessageRow.content := content |}).
    assert (Hin : (id, updated) ∈ history (with_messages d (<[id := updated]> (messages d))))
      by by apply recent_after_update.
    apply (Hprompt _ updated style sources message Hin).
  - intros projectId turn Hin. unfold DELETE in Hin. rewrite Hw, Hfind in Hin.
    cbn [snd] in Hin. unfold include_messages in Hin.
    apply elem_of_take in Hin as (i & Hin & _). apply list_elem_of_lookup_2 in Hin.
    rewrite merge_sort_Permutation in Hin.
    apply elem_of_map_to_list, map_lookup_filter_Some in Hin as [Hin _].
    cbn [with_messages messages] in Hin. by rewrite lookup_delete_eq in Hin.
Qed.

(** ** The identifiers of the hook's turns *)

Lemma length_append (s t : string) :
  String.length (s +:+ t) = (String.length s + String.length t)%nat.
Proof.
  induction s as [| c s IH]; [done |].
  change (String c s +:+ t) with (String c (s +:+ t)).
  cbn [String.length]. by rewrite IH.
Qed.

Lemma append_suffix_inj (s1 s2 t1 t2 : string) :
  String.length t1 = String.length t2 → s1 +:+ t1 = s2 +:+ t2 → t1 = t2.
Proof.
  intros Hlen. revert s2. induction s1 as [| c s1 IH]; intros [| c' s2] H.
  - done.
  - apply (f_equal String.length) in H. rewrite !length_append in H.
    cbn [String.length] in H. lia.
  - apply (f_equal String.length) in H. rewrite !length_append in H.
    cbn [String.length] in H. lia.
  - change (String c (s1 +:+ t1) = String c' (s2 +:+ t2)) in H.
    injection H as _ H. by apply (IH s2).
Qed.

Lemma hook_id_not_stored_id (a b : string) :
  a +:+ "_user" ≠ b +:+ "-user" ∧
  a +:+ "_user" ≠ b +:+ "-assistant" ∧
  a +:+ "_assistant" ≠ b +:+ "-user" ∧
  a +:+ "_assistant" ≠ b +:+ "-assistant".
Proof.
  repeat split; intros H.
  - by apply append_suffix_inj in H.
  - change "-assistant" with ("-assi" +:+ "stant") in H.
    rewrite <- append_assoc in H. by apply append_suffix_inj in H.
  - change "_assistant" with ("_assi" +:+ "stant") in H.
    rewrite <- append_assoc in H. by apply append_suffix_inj in H.
  - by apply append_suffix_inj in H.
Qed.

(** X24. The identifiers the hook gives to the turns of an exchange are
    not the identifiers under which the controller stores them, whatever
    the session identifiers are; so unless the table already held a row
    under the hook's identifier, each of the three handlers answers a
    call for that identifier with a refusal and changes nothing. *)
Theorem hook_turn_unknown_to_routes
    (cw : Controller.World) d project sessionId message fullResponse
    (hw : Consumer.World) content options turn_id :
  turn_id ∈ [ Consumer.Message.id (Consumer.userMessage hw content options);
              Consumer.assistantMessageId hw +:+ "_assistant" ] →
  messages d !! turn_id = None →
  let stored :=
    with_messages d
      (after_write cw d (persisted_turns project sessionId message fullResponse)) in
  messages stored !! turn_id = None ∧
  ∀ w,
    (∀ body, ∃ status error,
       PATCH w body turn_id stored = (Failure status error, stored)) ∧
    (∀ permanent, ∃ status error,
       DELETE w permanent turn_id stored = (Failure status error, stored)) ∧
    (∃ status error, restore w turn_id stored = (Failure status error, stored)).
Proof.
  intros Hid Hfresh stored.
  assert (Hnone : messages stored !! turn_id = None).
  { subst stored. cbn [with_messages messages].
    destruct (after_write_turns cw d project sessionId message fullResponse)
      as [[_ ->] | (_ & _ & _ & ->)]; [done |].
    assert (Hne : turn_id ≠ Js.to_string sessionId +:+ "-user" ∧
                  turn_id ≠ Js.to_string sessionId +:+ "-assistant").
    { apply elem_of_cons in Hid as [-> | Hid];
        [| apply list_elem_of_singleton in Hid as ->];
        cbn [Consumer.userMessage Consumer.Message.id];
        split; apply hook_id_not_stored_id. }
    destruct Hne. by rewrite !lookup_insert_ne. }
  split; [done |].
  assert (Hfind : ∀ userId, findMessage stored turn_id userId = None).
  { intros userId. unfold findMessage. by rewrite Hnone. }
  intros w. repeat split.
  - intros body. unfold PATCH.
    destruct (sessionEmail w) as [email |]; [| by eexists _, _].
    destruct (Js.is_empty email); [by eexists _, _ |].
    destruct body; [| by eexists _, _].
    destruct (users w !! email); [| by eexists _, _].
    rewrite Hfind. by eexists _, _.
  - intros permanent. unfold DELETE, authenticate.
    destruct (sessionEmail w) as [email |]; [| by eexists _, _].
    destruct (Js.is_empty email); [by eexists _, _ |].
    destruct (users w !! email); [| by eexists _, _].
    rewrite Hfind. by eexists _, _.
  - unfold restore, authenticate.
    destruct (sessionEmail w) as [email |]; [| by eexists _, _].
    destruct (Js.is_empty email); [by eexists _, _ |].
    destruct (users w !! email); [| by eexists _, _].
    rewrite Hfind. by eexists _, _.
Qed.

End MessageRoutesFacts.


(** * The semantic search route *)

Section SearchFacts.

Variable JSON_stringify : list DocumentSource.t → string.

Local Ltac refused :=
  cbn [Search.payload Search.status];
  repeat first [by apply list_elem_of_here | apply list_elem_of_further].

Local Ltac same_answer :=
  cbn [Search.status];
  split; (split; [try done; by eexists | try done; by intros [? [=]]]).

(** X25. The search route answers with results exactly when the caller
    is signed in and owns the project, the body holds a non-empty string
    as query, the three environment variables are set and the search in
    the project's namespace succeeds.  It then echoes the query and
    returns every document found, unfiltered, numbered from 0 in the
    order of the search, with the count of the documents; every other
    answer is a failure with status 401, 403, 400 or 500. *)
Theorem search_results_numbered (w : Search.World) projects projectId :
  let response := Search.POST w projects projectId in
  (∀ userId query found,
     Search.sessionUserId w = Some userId → userId ≠ "" →
     projects !! projectId = Some userId →
     Search.requestQuery w = Some (Js.Str query) → query ≠ "" →
     Js.env_missing (Controller.OPENAI_API_KEY (Search.env w)) = false →
     Js.env_missing (Controller.PINECONE_API_KEY (Search.env w)) = false →
     Js.env_missing (Controller.PINECONE_INDEX_NAME (Search.env w)) = false →
     Search.maxMarginalRelevanceSearch w ("project-" +:+ projectId) query 4 20
       0.6%float = Some found →
     response =
       {| Search.status := 200;
          Search.payload :=
            Search.Results query
              (imap (λ i doc, {| Search.id := i;
                                 Search.content := Document.pageContent doc;
                                 Search.metadata := Document.metadata doc |}) found)
              (length found) |}) ∧
  match Search.payload response with
  | Search.Results query results totalResults =>
      Search.status response = 200%nat ∧
      (∃ userId, Search.sessionUserId w = Some userId ∧ userId ≠ "" ∧
                 projects !! projectId = Some userId) ∧
      Search.requestQuery w = Some (Js.Str query) ∧ query ≠ "" ∧
      Js.env_missing (Controller.OPENAI_API_KEY (Search.env w)) = false ∧
      Js.env_missing (Controller.PINECONE_API_KEY (Search.env w)) = false ∧
      Js.env_missing (Controller.PINECONE_INDEX_NAME (Search.env w)) = false ∧
      ∃ found,
        Search.maxMarginalRelevanceSearch w ("project-" +:+ projectId) query 4 20
          0.6%float = Some found ∧
        totalResults = length found ∧
        length results = length found ∧
        ∀ i doc, found !! i = Some doc →
          results !! i = Some {| Search.id := i;
                                 Search.content := Document.pageContent doc;
                                 Search.metadata := Document.metadata doc |}
  | Search.Failure _ => Search.status response ∈ [401; 403; 400; 500]%nat
  end.
Proof.
  cbv zeta. split.
  { intros userId query found Hu Hne Howns Hq Hqne H1 H2 H3 Hfound.
    unfold Search.POST, Search.owns, Search.formattedResults.
    rewrite Hu, Hq, H1, H2, H3. cbn [orb Js.truthy Js.is_string Js.to_string].
    assert (Js.is_empty userId = false) as -> by by destruct userId.
    assert (Js.is_empty query = false) as -> by by destruct query.
    rewrite bool_decide_eq_true_2 by done. cbn [negb orb].
    by rewrite Hfound, length_imap. }
  unfold Search.POST.
  destruct (Search.sessionUserId w) as [userId |]; [| refused].
  destruct (Js.is_empty userId) eqn:Hu; [refused |].
  unfold Search.owns. case_bool_decide as Howns; cbn [negb]; [| refused].
  destruct (Search.requestQuery w) as [query |]; [| refused].
  destruct (negb (Js.truthy query) || negb (Js.is_string query)) eqn:Hq; [refused |].
  destruct query as [| | | | query]; cbn in Hq; rewrite ?orb_true_r in Hq; try done.
  destruct (Js.env_missing (Controller.OPENAI_API_KEY _)); [refused |].
  destruct (Js.env_missing (Controller.PINECONE_API_KEY _)); [refused |].
  destruct (Js.env_missing (Controller.PINECONE_INDEX_NAME _)); [refused |].
  cbn [orb Js.to_string].
  destruct (Search.maxMarginalRelevanceSearch w _ _ _ _ _) as [found |] eqn:Hs;
    [| refused].
  cbn [Search.payload Search.status]. split; [done |].
  split; [exists userId; by destruct userId |].
  split; [done |]. split; [by destruct query |]. do 3 (split; [done |]).
  exists found. unfold Search.formattedResults.
  rewrite length_imap. repeat split; [done |].
  intros i doc Hi. by rewrite list_lookup_imap, Hi.
Qed.

(** X26. The search route and the stream route let the same callers in:
    for the same session and the same projects, one answers 401 exactly
    when the other does, and 403 exactly when the other does. *)
Theorem search_and_stream_same_access
    (sw : Search.World) (cw : Controller.World) d projectId :
  Search.sessionUserId sw = Controller.sessionUserId cw →
  let searched := Search.POST sw (Controller.projects d) projectId in
  let streamed := Controller.POST JSON_stringify cw d projectId in
  (Search.status searched = 401%nat ↔ ∃ text, streamed = Controller.Plain 401 text) ∧
  (Search.status searched = 403%nat ↔ ∃ text, streamed = Controller.Plain 403 text).
Proof.
  intros Hsession searched streamed. subst searched streamed.
  unfold Search.POST, Controller.POST, Controller.findFirst, Search.owns.
  rewrite Hsession.
  destruct (Controller.sessionUserId cw) as [userId |]; [| same_answer].
  destruct (Js.is_empty userId); [same_answer |].
  destruct (Controller.projects d !! projectId) as [owner |] eqn:Howner;
    [| rewrite bool_decide_eq_false_2 by done; same_answer].
  destruct (decide (owner = userId)) as [-> | Hne];
    [| rewrite bool_decide_eq_false_2 by congruence; same_answer].
  rewrite bool_decide_eq_true_2 by done. cbn [negb].
  destruct (Search.requestQuery sw) as [query |];
    [destruct (negb (Js.truthy query) || negb (Js.is_string query));
     [| destruct (_ || _);
        [| destruct (Search.maxMarginalRelevanceSearch _ _ _ _ _ _)]] |];
    (destruct (Controller.requestBody cw) as [body |];
     [cbv zeta; destruct (negb (Js.truthy _) || _);
      [| destruct (Controller.start _ _ _ _ _ _ _ _)] |]);
    same_answer.
Qed.

End SearchFacts.


(** * The further properties on concrete requests *)

Section ControllerScenarios.

Import Controller.

Local Abbreviation start := (Controller.start Wire.stringify_sources).

(** With only the shipping passage found, at score 0.60, the demo request
    is answered without sources. *)
Lemma ungrounded_when_nothing_relevant_witness :
  enqueued (start Scenario.world_nothing_relevant "p1"
              (include_messages Demo.database "p1") "What is the refund policy?"
              (Js.Str "s1") "detailed" (open_stream Demo.database)).1 =
    [ StreamChunk.mk StreamChunk.sources (Wire.stringify_sources []);
      text_event "Hel"; text_event "lo"; done_event ].
Proof.
  apply (ungrounded_when_nothing_relevant Wire.stringify_sources
           Scenario.world_nothing_relevant "p1" (include_messages Demo.database "p1")
           "What is the refund policy?" (Js.Str "s1") "detailed" Demo.database
           [(Demo.shipping_passage, 0.60%float)] Scenario.completion).
  - reflexivity.
  - reflexivity.
  - repeat constructor.
  - reflexivity.
  - reflexivity.
Defined.

(** The demo request repeated with session [s1] already stored. *)
Lemma taken_identifier_not_stored_witness :
  let run := start (Demo.world Demo.question) "p1"
               (include_messages Scenario.database_after_s1 "p1")
               "What is the refund policy?" (Js.Str "s1") "detailed"
               (open_stream Scenario.database_after_s1) in
  last (enqueued run.1) = Some done_event ∧
  messages (db run.1) = messages Scenario.database_after_s1 ∧
  console run.1 = ["Failed to save messages to database:"].
Proof.
  apply (taken_identifier_not_stored Wire.stringify_sources (Demo.world Demo.question)
           "p1" (include_messages Scenario.database_after_s1 "p1")
           "What is the refund policy?" (Js.Str "s1") "detailed"
           Scenario.database_after_s1 [Demo.refund_source] Scenario.completion).
  - reflexivity.
  - reflexivity.
  - left. exists (Demo.row "p1" "Earlier question" user false 400). reflexivity.
Defined.

(** The two turns of the demo request are in the history of the next. *)
Lemma stored_turns_enter_history_witness :
  let final := (start (Demo.world Demo.question) "p1"
                  (include_messages Demo.database "p1")
                  "What is the refund policy?" (Js.Str "s1") "detailed"
                  (open_stream Demo.database)).1 in
  ∃ user_turn assistant_turn,
    ("s1-user", user_turn) ∈ recentMessages (include_messages (db final) "p1") ∧
    ("s1-assistant", assistant_turn)
      ∈ recentMessages (include_messages (db final) "p1") ∧
    MessageRow.content user_turn = "What is the refund policy?" ∧
    MessageRow.content assistant_turn = "Hello".
Proof.
  destruct (stored_turns_enter_history Wire.stringify_sources (Demo.world Demo.question)
              "p1" (include_messages Demo.database "p1")
              "What is the refund policy?" (Js.Str "s1") "detailed"
              Demo.database [Demo.refund_source] Scenario.completion)
    as (user_turn & assistant_turn & Hu & Ha & _ & Hcu & _ & Hca).
  - reflexivity.
  - reflexivity.
  - reflexivity.
  - intros k row Hk _. unfold Demo.database in Hk. cbn [messages] in Hk.
    apply lookup_insert_Some in Hk as [[_ <-] | [_ Hk]]; [reflexivity |].
    apply lookup_insert_Some in Hk as [[_ <-] | [_ Hk]]; [reflexivity |].
    apply lookup_insert_Some in Hk as [[_ <-] | [_ Hk]]; [reflexivity |].
    by rewrite lookup_empty in Hk.
  - exists user_turn, assistant_turn. repeat split; assumption.
Defined.

End ControllerScenarios.

Section ConsumerScenarios.

Import Consumer.

Local Abbreviation sendMessage :=
  (Consumer.sendMessage "p1" Wire.parse_chunk Wire.parse_sources).
Local Abbreviation served events ending := (Demo.client (Demo.streaming events ending)).

(** The hook on the events the controller serves for the demo request. *)
Lemma consumer_reads_completed_stream_witness :
  let result :=
    sendMessage (served Demo.served_events EndOfStream) Scenario.question
      Demo.no_options Demo.idle in
  (λ m, (Message.role m, Message.content m)) <$> messages (state (hook result)) =
    [(user, "What is the refund policy?"); (assistant, "Hello")] ∧
  releases result = [AtDone].
Proof.
  destruct (consumer_reads_completed_stream "p1" Wire.parse_chunk Wire.parse_sources
              Scenario.stringify_chunk (served Demo.served_events EndOfStream)
              Scenario.question Demo.no_options Demo.idle
              (Wire.stringify_sources [Demo.refund_source]) [Demo.refund_source]
              ["Hel"; "lo"] [] EndOfStream) as (Hstate & Hreleases & _).
  - reflexivity.
  - reflexivity.
  - exists 200%nat. reflexivity.
  - repeat constructor; by vm_compute.
  - by vm_compute.
  - cbv zeta. rewrite Hstate. split; [reflexivity | exact Hreleases].
Defined.

(** An [error] event after one [text] event. *)
Lemma error_event_ends_without_turn_witness :
  let result :=
    sendMessage (served [Controller.text_event "Hel"; Controller.error_event "boom"]
                   EndOfStream)
      Scenario.question Demo.no_options Demo.idle in
  length (messages (state (hook result))) = 1%nat ∧
  error (state (hook result)) = Some "boom" ∧
  releases result = [AtError].
Proof.
  destruct (error_event_ends_without_turn "p1" Wire.parse_chunk Wire.parse_sources
              Scenario.stringify_chunk
              (served [Controller.text_event "Hel"; Controller.error_event "boom"]
                 EndOfStream)
              Scenario.question Demo.no_options Demo.idle
              [Controller.text_event "Hel"] "boom" [] EndOfStream)
    as (Hm & _ & _ & He & Hr & _).
  - reflexivity.
  - reflexivity.
  - exists 200%nat. reflexivity.
  - repeat constructor; by vm_compute.
  - repeat constructor.
  - cbv zeta. by rewrite Hm.
Defined.

(** A body that ends after one [text] event. *)
Lemma cut_stream_leaves_hook_loading_witness :
  let result :=
    sendMessage (served [Controller.text_event "Hel"] EndOfStream)
      Scenario.question Demo.no_options Demo.idle in
  isLoading (state (hook result)) = true ∧
  streamingContent (state (hook result)) = "Hel" ∧
  fetches (sendMessage (served [] EndOfStream) "Again" Demo.no_options (hook result)) = [].
Proof.
  destruct (cut_stream_leaves_hook_loading "p1" Wire.parse_chunk Wire.parse_sources
              Scenario.stringify_chunk
              (served [Controller.text_event "Hel"] EndOfStream)
              Scenario.question Demo.no_options Demo.idle
              [Controller.text_event "Hel"])
    as (Hl & _ & Hs & _ & _ & Hnoop & _).
  - reflexivity.
  - reflexivity.
  - exists 200%nat. reflexivity.
  - repeat constructor; by vm_compute.
  - repeat constructor.
  - cbv zeta. split; [exact Hl |]. split; [exact Hs |]. by rewrite Hnoop.
Defined.

(** An abort after one [text] event. *)
Lemma failed_read_outcome_witness :
  let result :=
    sendMessage (served [Controller.text_event "Hel"] (ReadRejects Demo.AbortError))
      Scenario.question Demo.no_options Demo.idle in
  isLoading (state (hook result)) = false ∧
  streamingContent (state (hook result)) = "" ∧
  releases result = [AtFinally] ∧
  error (state (hook result)) = None.
Proof.
  destruct (failed_read_outcome "p1" Wire.parse_chunk Wire.parse_sources
              Scenario.stringify_chunk
              (served [Controller.text_event "Hel"] (ReadRejects Demo.AbortError))
              Scenario.question Demo.no_options Demo.idle
              [Controller.text_event "Hel"] Demo.AbortError)
    as (_ & Hl & Hs & Hr & He).
  - reflexivity.
  - reflexivity.
  - exists 200%nat. reflexivity.
  - repeat constructor; by vm_compute.
  - repeat constructor.
  - cbv zeta. by rewrite Hl, Hs, Hr, He.
Defined.

(** A request the controller refuses with status 403. *)
Lemma request_without_stream_outcome_witness :
  let result :=
    sendMessage (Demo.client (FetchResponds false 403 None))
      Scenario.question Demo.no_options Demo.idle in
  error (state (hook result)) = Some "HTTP error! status: 403" ∧
  releases result = [].
Proof.
  destruct (request_without_stream_outcome "p1" Wire.parse_chunk Wire.parse_sources
              (Demo.client (FetchResponds false 403 None))
              Scenario.question Demo.no_options Demo.idle)
    as (_ & _ & _ & Hr & _ & He & _).
  - reflexivity.
  - reflexivity.
  - reflexivity.
  - cbv zeta. split; [| exact Hr]. by rewrite (He 403%nat None eq_refl).
Defined.

(** The demo request on both sides. *)
Lemma hook_agrees_with_store_witness :
  let final :=
    (Controller.start Wire.stringify_sources (Demo.world Demo.question) "p1"
       (Controller.include_messages Demo.database "p1")
       "What is the refund policy?" (Js.Str "s1") "detailed"
       (Controller.open_stream Demo.database)).1 in
  let result :=
    sendMessage (served (Controller.enqueued final) EndOfStream) Scenario.question
      Demo.no_options Demo.idle in
  ∃ turn,
    last (messages (state (hook result))) = Some turn ∧
    Message.content turn = "Hello" ∧
    MessageRow.content <$>
      Controller.messages (Controller.db final) !! "s1-assistant" = Some "Hello".
Proof.
  pose proof (hook_agrees_with_store "p1" Wire.parse_chunk Wire.parse_sources
                Scenario.stringify_chunk Wire.stringify_sources
                (Demo.world Demo.question) "p1"
                (Controller.include_messages Demo.database "p1")
                "What is the refund policy?" (Js.Str "s1") "detailed" Demo.database
                [Demo.refund_source] Scenario.completion
                (served Demo.served_events EndOfStream)
                Scenario.question Demo.no_options Demo.idle [] EndOfStream
                eq_refl eq_refl eq_refl) as H.
  cbv zeta in H. destruct H as (turn & Hm & _ & Hc & _ & _ & Hstored).
  - exists 200%nat. reflexivity.
  - repeat constructor; by vm_compute.
  - by vm_compute.
  - cbv zeta. exists turn.
    change (Controller.write_failed _ _ _) with false in Hstored.
    split; [| split; [exact Hc | exact Hstored]].
    change (Controller.enqueued _) with Demo.served_events.
    rewrite Hm. reflexivity.
Defined.

(** The demo request carries the trimmed question. *)
Lemma hook_requests_pass_validation_witness :
  let request :=
    Consumer.request_of "p1" (Demo.client (FetchRejects Demo.AbortError))
      Scenario.question Demo.no_options in
  req_message request = "What is the refund policy?" ∧
  req_contextStyle request ≠ "".
Proof.
  destruct (hook_requests_pass_validation "p1" Wire.parse_chunk Wire.parse_sources
              Wire.stringify_sources (Demo.client (FetchRejects Demo.AbortError))
              Scenario.question Demo.no_options Demo.idle
              (Consumer.request_of "p1" (Demo.client (FetchRejects Demo.AbortError))
                 Scenario.question Demo.no_options))
    as (Hm & _ & Hs & _).
  - apply list_elem_of_here.
  - cbv zeta. split; [by rewrite Hm | exact Hs].
Defined.

(** Retrying the answered question of [Scenario.answered]. *)
Lemma retry_resends_last_user_turn_witness :
  let result :=
    Retry.retryLastMessage "p1" Wire.parse_chunk Wire.parse_sources
      (Demo.client (FetchRejects Demo.AbortError)) Scenario.answered in
  req_message <$> fetches result = ["What is the refund policy?"] ∧
  Message.content <$> messages (state (hook result)) =
    ["What is the refund policy?"; "What is the refund policy?"].
Proof.
  destruct (retry_resends_last_user_turn "p1" Wire.parse_chunk Wire.parse_sources
              (Demo.client (FetchRejects Demo.AbortError)) Scenario.answered
              [] Scenario.asked [Scenario.answer])
    as (Hf & _ & _).
  - reflexivity.
  - reflexivity.
  - repeat constructor. discriminate.
  - reflexivity.
  - reflexivity.
  - cbv zeta. rewrite Hf. split; reflexivity.
Defined.

End ConsumerScenarios.

Section RouteScenarios.

Import Controller MessageRoutes.

(** The owner soft-deletes and restores the first turn of the demo. *)
Lemma soft_delete_restore_round_trip_witness :
  let deleted := DELETE Scenario.owner false "m1" Demo.database in
  MessageRow.isDeleted <$> messages deleted.2 !! "m1" = Some true ∧
  MessageRow.isDeleted <$>
    messages (restore Scenario.owner "m1" deleted.2).2 !! "m1" = Some false.
Proof.
  destruct (soft_delete_restore_round_trip Scenario.owner Scenario.owner "m1"
              Demo.database "u1" Scenario.first_turn)
    as ((marked & _ & Hm & Hd & _) & Hr & _).
  - reflexivity.
  - reflexivity.
  - reflexivity.
  - cbv zeta. rewrite Hm, Hr. cbn [snd with_messages messages fmap option_fmap option_map].
    rewrite Hd, lookup_insert_eq. done.
Defined.

(** The owner edits the first turn of the demo. *)
Lemma edit_appends_history_witness :
  let outcome := PATCH Scenario.owner (Some Scenario.edit) "m1" Demo.database in
  ∃ updated,
    messages outcome.2 !! "m1" = Some updated ∧
    MessageRow.content updated = "Hello" ∧
    MessageRow.editHistory updated = Some [("Hi", 2000)].
Proof.
  set (updated :=
    {| MessageRow.projectId := "p1"; MessageRow.content := "Hello";
       MessageRow.role := user; MessageRow.isDeleted := false;
       MessageRow.deletedAt := None;
       MessageRow.editHistory := Some [("Hi", 2000)];
       MessageRow.lastEditedAt := Some 2001; MessageRow.metadata := None;
       MessageRow.createdAt := 100; MessageRow.updatedAt := 2002 |}).
  destruct (edit_appends_history Scenario.owner Scenario.edit "m1" Demo.database updated
              (PATCH Scenario.owner (Some Scenario.edit) "m1" Demo.database).2)
    as (row & _ & Hu & _).
  - reflexivity.
  - cbv zeta. exists updated. by rewrite Hu.
Defined.

(** A permanent delete by the owner leaves the other rows alone. *)
Lemma routes_change_only_own_row_witness :
  let outcome := DELETE Scenario.owner true "m1" Demo.database in
  projects outcome.2 = projects Demo.database ∧
  messages outcome.2 !! "m2" = messages Demo.database !! "m2".
Proof.
  destruct (routes_change_only_own_row Scenario.owner "m1" Demo.database
              (DELETE Scenario.owner true "m1" Demo.database))
    as (Hp & Hk & _).
  - right. left. by exists true.
  - cbv zeta. split; [exact Hp |]. by apply Hk.
Defined.

(** The first turn of the demo after a soft delete and after an edit. *)
Lemma history_after_route_calls_witness :
  {| role := user; content := "Hi" |}
    ∈ messagesForLLM "detailed" []
        (recentMessages
           (include_messages (DELETE Scenario.owner false "m1" Demo.database).2 "p1"))
        "Next question" ∧
  {| role := user; content := "Hello" |}
    ∈ messagesForLLM "detailed" []
        (recentMessages
           (include_messages
              (PATCH Scenario.owner (Some Scenario.edit) "m1" Demo.database).2 "p1"))
        "Next question".
Proof.
  destruct (history_after_route_calls Scenario.owner "m1" Demo.database "u1"
              Scenario.first_turn)
    as ((marked & _ & _ & Hsoft) & Hedit & _).
  - reflexivity.
  - reflexivity.
  - vm_compute. lia.
  - split.
    + apply (Hsoft "detailed" [] "Next question").
    + apply (Hedit Scenario.edit "Hello" "detailed" [] "Next question"); reflexivity.
Defined.

(** The turns the hook shows for the demo request are unknown to the
    routes after the controller has stored the exchange. *)
Lemma hook_turn_unknown_to_routes_witness :
  let stored :=
    with_messages Demo.database
      (after_write (Demo.world Demo.question) Demo.database
         (persisted_turns "p1" (Js.Str "session_1_b") "What is the refund policy?"
            "Hello")) in
  size (messages stored) = 5%nat ∧
  ∃ status error,
    DELETE Scenario.owner false "session_2_c_assistant" stored
      = (Failure status error, stored).
Proof.
  destruct (hook_turn_unknown_to_routes (Demo.world Demo.question) Demo.database "p1"
              (Js.Str "session_1_b") "What is the refund policy?" "Hello"
              (Demo.client (Consumer.FetchRejects Demo.AbortError))
              Scenario.question Demo.no_options "session_2_c_assistant")
    as (_ & H).
  - apply list_elem_of_further, list_elem_of_here.
  - reflexivity.
  - cbv zeta. split; [reflexivity |].
    destruct (H Scenario.owner) as (_ & Hdelete & _). apply (Hdelete false).
Defined.

End RouteScenarios.

Section SearchScenarios.

(** The owner of [p1] searches for [refund]: both passages come back,
    numbered 0 and 1. *)
Lemma search_results_numbered_witness :
  Search.POST Scenario.search_world (Controller.projects Demo.database) "p1" =
    {| Search.status := 200;
       Search.payload :=
         Search.Results "refund"
           [ {| Search.id := 0;
                Search.content := "Refunds are issued within 30 days of purchase.";
                Search.metadata := Document.metadata Demo.refund_passage |};
             {| Search.id := 1;
                Search.content := "Orders ship within 5 business days.";
                Search.metadata := None |} ]
           2 |}.
Proof.
  apply (proj1 (search_results_numbered Scenario.search_world
                  (Controller.projects Demo.database) "p1")
           "u1" "refund" [Demo.refund_passage; Demo.shipping_passage]);
    (reflexivity || discriminate).
Defined.

(** Project [p2] is somebody else's: both routes answer 403. *)
Lemma search_and_stream_same_access_witness :
  Search.status (Search.POST Scenario.search_world (Controller.projects Demo.database)
                   "p2") = 403%nat ∧
  ∃ text,
    Controller.POST Wire.stringify_sources (Demo.world Demo.question) Demo.database "p2"
      = Controller.Plain 403 text.
Proof.
  destruct (search_and_stream_same_access Wire.stringify_sources Scenario.search_world
              (Demo.world Demo.question) Demo.database "p2" eq_refl)
    as (_ & H403).
  split; [reflexivity |]. apply H403. reflexivity.
Defined.

End SearchScenarios.
